(** * TRADEco: the reservation / transaction workflow

    A shallow embedding of [backend/models/product.py],
    [backend/models/transaction.py] and [backend/routes/transactions.py].

    The two MongoDB collections are finite maps from object ids to
    documents.  Every model method and every route handler is a
    computation in a small state-and-exception monad over the [World]:
    the collections together with the sources of what the program reads
    from its environment (the clock behind [datetime.utcnow()], the
    generator behind [secrets.choice], the ids the driver hands out). *)

From Stdlib Require Import QArith Ascii String.
From stdpp Require Import gmap strings list fin_maps sorting.

Close Scope Q_scope.
Open Scope string_scope.

(** ** Python exceptions and the monad *)

Inductive exn :=
  | InvalidId          (* bson.errors.InvalidId *)
  | AttributeError     (* [None.get(...)] *)
  | IndexError         (* [secrets.choice] of an empty sequence *)
  | DuplicateKeyError. (* pymongo.errors.DuplicateKeyError *)

Global Instance exn_eq_dec : EqDecision exn.
Proof. solve_decision. Defined.

(** [str(e)].  The messages of the driver's exceptions quote the offending
    value; for [InvalidId] and [DuplicateKeyError] the name of the
    exception stands for them. *)
Definition exn_str (e : exn) : string :=
  match e with
  | InvalidId => "InvalidId"
  | AttributeError => "'NoneType' object has no attribute 'get'"
  | IndexError => "Cannot choose from an empty sequence"
  | DuplicateKeyError => "DuplicateKeyError"
  end.

(** The result of running a piece of code: a value, a raised exception,
    or [Timeout] when a [while] loop was still running after the fuel
    the caller granted. *)
Inductive outcome (A : Type) :=
  | Ret (a : A)
  | Exc (e : exn)
  | Timeout.
Arguments Ret {A} a.
Arguments Exc {A} e.
Arguments Timeout {A}.

(** ** Object ids

    [bson.ObjectId(s)] accepts a string of exactly 24 hexadecimal digits;
    [str(oid)] prints the 24 digits in lower case.  An object id is the
    96-bit number they spell.  It raises [InvalidId] on a string whose
    length is not 24 or that holds a character other than a hexadecimal
    digit or ASCII white space.  The strings of length 24 in between, with
    white space among the digits, are decoded by [bytes.fromhex], and some
    of them give an id (of fewer than 12 bytes, which names no document);
    [ObjectId] below raises [InvalidId] on all of them. *)

Definition hex_val (c : ascii) : option N :=
  let n := N_of_ascii c in
  if ((48 <=? n) && (n <=? 57))%N then Some (n - 48)%N
  else if ((97 <=? n) && (n <=? 102))%N then Some (n - 87)%N
  else if ((65 <=? n) && (n <=? 70))%N then Some (n - 55)%N
  else None.

Fixpoint from_hex (s : string) (acc : N) : option N :=
  match s with
  | EmptyString => Some acc
  | String c s' =>
      match hex_val c with
      | Some d => from_hex s' (16 * acc + d)%N
      | None => None
      end
  end.

Definition ObjectId (s : string) : exn + N :=
  if Nat.eqb (String.length s) 24 then
    match from_hex s 0%N with
    | Some n => inr n
    | None => inl InvalidId
    end
  else inl InvalidId.

Definition hex_digit (d : N) : ascii :=
  if (d <? 10)%N then ascii_of_N (48 + d) else ascii_of_N (87 + d).

Fixpoint to_hex (digits : nat) (n : N) (acc : string) : string :=
  match digits with
  | O => acc
  | S k => to_hex k (n / 16)%N (String (hex_digit (n mod 16)%N) acc)
  end.

(** [str(oid)] *)
Definition str_oid (n : N) : string := to_hex 24 n "".

(** A string is a well-formed object id when [ObjectId] accepts it. *)
Definition well_formed_id (s : string) : Prop := ∃ n, ObjectId s = inr n.

(** ** Documents *)

Record TimelineEvent := {
  ev_status : string;
  ev_timestamp : Z;
  ev_message : string;
  ev_by_user_id : option string   (* the key is absent in the creation entry *)
}.

Record Snapshot := {
  snap_nombre : option string;
  snap_descripcion : string;
  snap_precio : Q;
  snap_categoria : option string;
  snap_talla : string;
  snap_imagen_url : string
}.

(** A document of [db.transactions]; field [t_k] is the key [k]. *)
Record TransactionDoc := {
  t_transaction_code : string;
  t_product_id : string;
  t_buyer_id : string;
  t_seller_id : string;
  t_product_snapshot : Snapshot;
  t_status : string;
  t_timeline : list TimelineEvent;
  t_seller_confirmed : bool;
  t_buyer_paid : bool;
  t_notes : string;
  t_payment_method : string;
  t_created_at : Z;
  t_updated_at : Z;
  t_expires_at : option Z;
  t_completed_at : option Z
}.

(** A document of [db.products]; field [p_k] is the key [k]. *)
Record ProductDoc := {
  p_nombre : option string;
  p_descripcion : string;
  p_precio : Q;
  p_talla : string;
  p_categoria : option string;
  p_imagen_url : string;
  p_user_id : string;
  p_username : string;
  p_estado : string;
  p_stock : Z;
  p_reserved_by : option string;
  p_transaction_id : option string;
  p_views : Z;
  p_created_at : Z;
  p_updated_at : Z
}.

Global Instance Q_eq_dec : EqDecision Q.
Proof. solve_decision. Defined.
Global Instance TimelineEvent_eq_dec : EqDecision TimelineEvent.
Proof. solve_decision. Defined.
Global Instance Snapshot_eq_dec : EqDecision Snapshot.
Proof. solve_decision. Defined.
Global Instance TransactionDoc_eq_dec : EqDecision TransactionDoc.
Proof. solve_decision. Defined.
Global Instance ProductDoc_eq_dec : EqDecision ProductDoc.
Proof. solve_decision. Defined.

(** ** The world *)

Record World := {
  products : gmap N ProductDoc;          (* db.products *)
  transactions : gmap N TransactionDoc;  (* db.transactions *)
  utc : nat → Z;      (* the successive readings of [datetime.utcnow()] *)
  ticks : nat;        (* how many readings were taken *)
  rng : nat → nat;    (* the successive draws of [secrets.choice] *)
  draws : nat;        (* how many draws were taken *)
  oids : nat → N;     (* the ids the driver generates for [insert_one] *)
  made : nat          (* how many ids were generated *)
}.

Definition M (A : Type) : Type := World → outcome A * World.

Definition ret {A} (a : A) : M A := λ w, (Ret a, w).
Definition raise {A} (e : exn) : M A := λ w, (Exc e, w).
Definition bind {A B} (m : M A) (f : A → M B) : M B :=
  λ w, match m w with
       | (Ret a, w') => f a w'
       | (Exc e, w') => (Exc e, w')
       | (Timeout, w') => (Timeout, w')
       end.

(** [try: m except Exception as e: h e] *)
Definition try_except {A} (m : M A) (h : exn → M A) : M A :=
  λ w, match m w with
       | (Exc e, w') => h e w'
       | r => r
       end.

Notation "'let!' x ':=' m 'in' k" := (bind m (λ x, k))
  (at level 10, x name, m at level 100, k at level 200).
Notation "'let!' ' p ':=' m 'in' k" := (bind m (λ x, match x with p => k end))
  (at level 10, p pattern, m at level 100, k at level 200).
Notation "'run' m 'in' k" := (bind m (λ _, k))
  (at level 10, m at level 100, k at level 200).

Definition lift_oid (s : string) : M N :=
  match ObjectId s with
  | inr n => ret n
  | inl e => raise e
  end.

(** [datetime.utcnow()] *)
Definition utcnow : M Z :=
  λ w, (Ret (utc w (ticks w)),
        {| products := products w; transactions := transactions w;
           utc := utc w; ticks := S (ticks w);
           rng := rng w; draws := draws w; oids := oids w; made := made w |}).

Definition get_products : M (gmap N ProductDoc) := λ w, (Ret (products w), w).
Definition get_transactions : M (gmap N TransactionDoc) :=
  λ w, (Ret (transactions w), w).

Definition put_products (ps : gmap N ProductDoc) : M unit :=
  λ w, (Ret tt,
        {| products := ps; transactions := transactions w;
           utc := utc w; ticks := ticks w;
           rng := rng w; draws := draws w; oids := oids w; made := made w |}).

Definition put_transactions (ts : gmap N TransactionDoc) : M unit :=
  λ w, (Ret tt,
        {| products := products w; transactions := ts;
           utc := utc w; ticks := ticks w;
           rng := rng w; draws := draws w; oids := oids w; made := made w |}).

(** [collection.update_one({"_id": k} ∧ cond, upd)]: the first document
    that matches is rewritten; [modified_count] is 1 when it was found and
    the rewrite changed it, 0 otherwise. *)
Definition update_one {D} `{EqDecision D}
    (k : N) (cond : D → bool) (upd : D → D) (m : gmap N D) : gmap N D * nat :=
  match m !! k with
  | Some d =>
      if cond d then
        if decide (upd d = d) then (m, 0) else (<[k := upd d]> m, 1)
      else (m, 0)
  | None => (m, 0)
  end.

(** The [ObjectId()] the driver generates for a document inserted
    without an [_id]. *)
Definition new_oid : M N :=
  λ w, (Ret (oids w (made w)),
        {| products := products w; transactions := transactions w;
           utc := utc w; ticks := ticks w;
           rng := rng w; draws := draws w; oids := oids w; made := S (made w) |}).

(** [secrets.choice(seq)] *)
Definition choice (seq : string) : M ascii :=
  λ w, match String.get (rng w (draws w) mod String.length seq) seq with
       | Some c =>
           (Ret c,
            {| products := products w; transactions := transactions w;
               utc := utc w; ticks := ticks w;
               rng := rng w; draws := S (draws w);
               oids := oids w; made := made w |})
       | None => (Exc IndexError, w)
       end.

(** [collection.find_one(query)] for a query that is not on [_id]. *)
Definition find_one {D} (query : D → bool) (m : gmap N D) : option D :=
  snd <$> List.find (λ kv, query kv.2) (map_to_list m).

(** [collection.find(query).sort("created_at", -1).skip(skip).limit(limit)]
    read into a list: the documents that match, newest first, without
    the first [skip] of them, at most [limit] of them ([limit(0)] is no
    limit).  [skip] and [limit] are never negative here: pymongo refuses a
    negative [skip]. *)
Definition newest_first {D} (created : D → Z) (a b : D) : Prop :=
  (created b ≤ created a)%Z.

Global Instance newest_first_dec {D} (created : D → Z) a b :
  Decision (newest_first created a b).
Proof. unfold newest_first. apply _. Defined.

Definition find_sorted {D} (created : D → Z) (query : D → bool)
    (skip limit : nat) (m : gmap N D) : list D :=
  let found := List.filter query (map_to_list m).*2 in
  let sorted := merge_sort (newest_first created) found in
  let skipped := drop skip sorted in
  match limit with
  | O => skipped
  | S _ => take limit skipped
  end.

(** [collection.delete_one({"_id": k} ∧ cond)] and its [deleted_count]. *)
Definition delete_one {D} (k : N) (cond : D → bool) (m : gmap N D)
    : gmap N D * nat :=
  match m !! k with
  | Some d => if cond d then (delete k m, 1) else (m, 0)
  | None => (m, 0)
  end.

(** ** models/product.py *)

Module Product.

Definition AVAILABLE : string := "disponible".
Definition RESERVED : string := "reservado".
Definition SOLD : string := "vendido".
Definition INACTIVE : string := "inactivo".

(** The [data] dictionary handed to [create]; an absent key is [None]. *)
Record ProductData := {
  d_nombre : option string;
  d_descripcion : option string;
  d_precio : option Q;
  d_talla : option string;
  d_categoria : option string;
  d_imagen_url : option string;
  d_username : option string
}.

Definition insert_one (doc : ProductDoc) : M N :=
  let! oid := new_oid in
  let! ps := get_products in
  match ps !! oid with
  | Some _ => raise DuplicateKeyError
  | None => run put_products (<[oid := doc]> ps) in ret oid
  end.

Definition create (data : ProductData) (user_id : string) : M string :=
  let! created := utcnow in
  let! updated := utcnow in
  let product_data :=
    {| p_nombre := d_nombre data;
       p_descripcion := default "" (d_descripcion data);
       p_precio := default 0%Q (d_precio data);
       p_talla := default "" (d_talla data);
       p_categoria := d_categoria data;
       p_imagen_url := default "" (d_imagen_url data);
       p_user_id := user_id;
       p_username := default "" (d_username data);
       p_estado := AVAILABLE;
       p_stock := 1;
       p_reserved_by := None;
       p_transaction_id := None;
       p_views := 0;
       p_created_at := created;
       p_updated_at := updated |} in
  let! inserted_id := insert_one product_data in
  ret (str_oid inserted_id).

Definition find_by_id (product_id : string) : M (option ProductDoc) :=
  try_except
    (let! oid := lift_oid product_id in
     let! ps := get_products in
     ret (ps !! oid))
    (λ _, ret None).

(** The [$set] of [reserve]. *)
Definition set_reserved (buyer_id transaction_id : string) (now : Z)
    (p : ProductDoc) : ProductDoc :=
  {| p_nombre := p_nombre p; p_descripcion := p_descripcion p;
     p_precio := p_precio p; p_talla := p_talla p;
     p_categoria := p_categoria p; p_imagen_url := p_imagen_url p;
     p_user_id := p_user_id p; p_username := p_username p;
     p_estado := RESERVED;
     p_stock := p_stock p;
     p_reserved_by := Some buyer_id;
     p_transaction_id := Some transaction_id;
     p_views := p_views p; p_created_at := p_created_at p;
     p_updated_at := now |}.

(** The [$set] of [unreserve]. *)
Definition set_available (now : Z) (p : ProductDoc) : ProductDoc :=
  {| p_nombre := p_nombre p; p_descripcion := p_descripcion p;
     p_precio := p_precio p; p_talla := p_talla p;
     p_categoria := p_categoria p; p_imagen_url := p_imagen_url p;
     p_user_id := p_user_id p; p_username := p_username p;
     p_estado := AVAILABLE;
     p_stock := p_stock p;
     p_reserved_by := None;
     p_transaction_id := None;
     p_views := p_views p; p_created_at := p_created_at p;
     p_updated_at := now |}.

(** The [$set] of [mark_as_sold]. *)
Definition set_sold (transaction_id : string) (now : Z)
    (p : ProductDoc) : ProductDoc :=
  {| p_nombre := p_nombre p; p_descripcion := p_descripcion p;
     p_precio := p_precio p; p_talla := p_talla p;
     p_categoria := p_categoria p; p_imagen_url := p_imagen_url p;
     p_user_id := p_user_id p; p_username := p_username p;
     p_estado := SOLD;
     p_stock := 0;
     p_reserved_by := p_reserved_by p;
     p_transaction_id := Some transaction_id;
     p_views := p_views p; p_created_at := p_created_at p;
     p_updated_at := now |}.

Definition reserve (product_id buyer_id transaction_id : string) : M bool :=
  let! product := find_by_id product_id in
  match product with
  | None => ret false
  | Some p =>
      if decide (p_estado p ≠ AVAILABLE) then ret false
      else if decide (p_user_id p = buyer_id) then ret false
      else
        let! oid := lift_oid product_id in
        let! now := utcnow in
        let! ps := get_products in
        let '(ps', modified_count) :=
          update_one oid (λ d, bool_decide (p_estado d = AVAILABLE))
            (set_reserved buyer_id transaction_id now) ps in
        run put_products ps' in
        ret (Nat.ltb 0 modified_count)
  end.

Definition unreserve (product_id : string) : M bool :=
  let! oid := lift_oid product_id in
  let! now := utcnow in
  let! ps := get_products in
  let '(ps', modified_count) :=
    update_one oid (λ _, true) (set_available now) ps in
  run put_products ps' in
  ret (Nat.ltb 0 modified_count).

Definition mark_as_sold (product_id transaction_id : string) : M bool :=
  let! oid := lift_oid product_id in
  let! now := utcnow in
  let! ps := get_products in
  let '(ps', modified_count) :=
    update_one oid (λ _, true) (set_sold transaction_id now) ps in
  run put_products ps' in
  ret (Nat.ltb 0 modified_count).

Definition find_by_user (user_id : string) (skip limit : nat)
    : M (list ProductDoc) :=
  let! ps := get_products in
  ret (find_sorted p_created_at (λ d, bool_decide (p_user_id d = user_id))
         skip limit ps).

Definition filter_by_category (categoria : string) (skip limit : nat)
    : M (list ProductDoc) :=
  let! ps := get_products in
  ret (find_sorted p_created_at
         (λ d, bool_decide (p_categoria d = Some categoria)
               && bool_decide (p_estado d = AVAILABLE))
         skip limit ps).

(** The [$set] of [update]: the allowed fields present in [data], and
    [updated_at].  The source stores [float(data["precio"])]; [d_precio]
    stands for the number after that conversion, whose rounding and
    failures are not followed here. *)
Definition set_fields (data : ProductData) (now : Z) (p : ProductDoc)
    : ProductDoc :=
  {| p_nombre := match d_nombre data with Some v => Some v | None => p_nombre p end;
     p_descripcion := default (p_descripcion p) (d_descripcion data);
     p_precio := default (p_precio p) (d_precio data);
     p_talla := default (p_talla p) (d_talla data);
     p_categoria :=
       match d_categoria data with Some v => Some v | None => p_categoria p end;
     p_imagen_url := default (p_imagen_url p) (d_imagen_url data);
     p_user_id := p_user_id p; p_username := p_username p;
     p_estado := p_estado p; p_stock := p_stock p;
     p_reserved_by := p_reserved_by p;
     p_transaction_id := p_transaction_id p;
     p_views := p_views p; p_created_at := p_created_at p;
     p_updated_at := now |}.

Definition update (product_id : string) (data : ProductData) (user_id : string)
    : M bool :=
  let! now := utcnow in
  let! oid := lift_oid product_id in
  let! ps := get_products in
  let '(ps', modified_count) :=
    update_one oid (λ d, bool_decide (p_user_id d = user_id))
      (set_fields data now) ps in
  run put_products ps' in
  ret (Nat.ltb 0 modified_count).

Definition delete (product_id user_id : string) : M bool :=
  let! oid := lift_oid product_id in
  let! ps := get_products in
  let '(ps', deleted_count) :=
    delete_one oid (λ d, bool_decide (p_user_id d = user_id)) ps in
  run put_products ps' in
  ret (Nat.ltb 0 deleted_count).

(** The [$set] of [change_status]. *)
Definition set_estado (status : string) (now : Z) (p : ProductDoc) : ProductDoc :=
  {| p_nombre := p_nombre p; p_descripcion := p_descripcion p;
     p_precio := p_precio p; p_talla := p_talla p;
     p_categoria := p_categoria p; p_imagen_url := p_imagen_url p;
     p_user_id := p_user_id p; p_username := p_username p;
     p_estado := status;
     p_stock := p_stock p;
     p_reserved_by := p_reserved_by p;
     p_transaction_id := p_transaction_id p;
     p_views := p_views p; p_created_at := p_created_at p;
     p_updated_at := now |}.

Definition change_status (product_id status user_id : string) : M bool :=
  let! oid := lift_oid product_id in
  let! now := utcnow in
  let! ps := get_products in
  let '(ps', modified_count) :=
    update_one oid (λ d, bool_decide (p_user_id d = user_id))
      (set_estado status now) ps in
  run put_products ps' in
  ret (Nat.ltb 0 modified_count).

(** The [$inc] of [increment_views]. *)
Definition inc_views (p : ProductDoc) : ProductDoc :=
  {| p_nombre := p_nombre p; p_descripcion := p_descripcion p;
     p_precio := p_precio p; p_talla := p_talla p;
     p_categoria := p_categoria p; p_imagen_url := p_imagen_url p;
     p_user_id := p_user_id p; p_username := p_username p;
     p_estado := p_estado p; p_stock := p_stock p;
     p_reserved_by := p_reserved_by p;
     p_transaction_id := p_transaction_id p;
     p_views := (p_views p + 1)%Z; p_created_at := p_created_at p;
     p_updated_at := p_updated_at p |}.

Definition increment_views (product_id : string) : M unit :=
  let! oid := lift_oid product_id in
  let! ps := get_products in
  let '(ps', _) := update_one oid (λ _, true) inc_views ps in
  put_products ps'.

End Product.

(** ** models/transaction.py *)

Module Transaction.

Definition PENDING : string := "pendiente".
Definition CONFIRMED : string := "confirmada".
Definition PAYMENT_CONFIRMED : string := "pago_confirmado".
Definition COMPLETED : string := "completada".
Definition CANCELLED : string := "cancelada".
Definition DISPUTED : string := "en_disputa".

(** [string.ascii_uppercase + string.digits] *)
Definition chars : string := "ABCDEFGHIJKLMNOPQRSTUVWXYZ0123456789".

(** [''.join(secrets.choice(chars) for _ in range(n))] *)
Fixpoint join_choices (n : nat) : M string :=
  match n with
  | O => ret ""
  | S k =>
      let! c := choice chars in
      let! rest := join_choices k in
      ret (String c rest)
  end.

Definition _generate_transaction_code : M string :=
  let! code := join_choices 6 in
  ret ("TRD-" ++ code).

Definition find_by_code (transaction_code : string)
    : M (option TransactionDoc) :=
  let! ts := get_transactions in
  ret (find_one (λ d, bool_decide (t_transaction_code d = transaction_code)) ts).

(** [while self.collection.find_one({"transaction_code": code}): code = ...];
    [fuel] bounds the number of regenerations. *)
Fixpoint regenerate (fuel : nat) (transaction_code : string) : M string :=
  let! taken := find_by_code transaction_code in
  match taken with
  | None => ret transaction_code
  | Some _ =>
      match fuel with
      | O => λ w, (Timeout, w)
      | S fuel' =>
          let! transaction_code := _generate_transaction_code in
          regenerate fuel' transaction_code
      end
  end.

Definition insert_one (doc : TransactionDoc) : M N :=
  let! oid := new_oid in
  let! ts := get_transactions in
  match ts !! oid with
  | Some _ => raise DuplicateKeyError
  | None => run put_transactions (<[oid := doc]> ts) in ret oid
  end.

Definition create (fuel : nat) (product_id buyer_id seller_id : string)
    (product_data : ProductDoc) : M (string * string) :=
  let! transaction_code := _generate_transaction_code in
  let! transaction_code := regenerate fuel transaction_code in
  let! stamp := utcnow in
  let! created := utcnow in
  let! updated := utcnow in
  let transaction_data :=
    {| t_transaction_code := transaction_code;
       t_product_id := product_id;
       t_buyer_id := buyer_id;
       t_seller_id := seller_id;
       t_product_snapshot :=
         {| snap_nombre := p_nombre product_data;
            snap_descripcion := p_descripcion product_data;
            snap_precio := p_precio product_data;
            snap_categoria := p_categoria product_data;
            snap_talla := p_talla product_data;
            snap_imagen_url := p_imagen_url product_data |};
       t_status := PENDING;
       t_timeline :=
         [ {| ev_status := PENDING; ev_timestamp := stamp;
              ev_message := "Reserva creada"; ev_by_user_id := None |} ];
       t_seller_confirmed := false;
       t_buyer_paid := false;
       t_notes := "";
       t_payment_method := "";
       t_created_at := created;
       t_updated_at := updated;
       t_expires_at := None;
       t_completed_at := None |} in
  let! inserted_id := insert_one transaction_data in
  ret (str_oid inserted_id, transaction_code).

Definition find_by_id (transaction_id : string) : M (option TransactionDoc) :=
  try_except
    (let! oid := lift_oid transaction_id in
     let! ts := get_transactions in
     ret (ts !! oid))
    (λ _, ret None).

(** [{"$set": {"status", "updated_at" [, "completed_at"]},
      "$push": {"timeline": event}}] *)
Definition set_status (new_status : string) (updated : Z)
    (completed : option Z) (event : TimelineEvent)
    (t : TransactionDoc) : TransactionDoc :=
  {| t_transaction_code := t_transaction_code t;
     t_product_id := t_product_id t; t_buyer_id := t_buyer_id t;
     t_seller_id := t_seller_id t;
     t_product_snapshot := t_product_snapshot t;
     t_status := new_status;
     t_timeline := t_timeline t ++ [event];
     t_seller_confirmed := t_seller_confirmed t;
     t_buyer_paid := t_buyer_paid t;
     t_notes := t_notes t; t_payment_method := t_payment_method t;
     t_created_at := t_created_at t;
     t_updated_at := updated;
     t_expires_at := t_expires_at t;
     t_completed_at :=
       match completed with
       | Some c => Some c
       | None => t_completed_at t
       end |}.

(** The update of [seller_confirm]. *)
Definition set_seller_confirmed (payment_method : string) (updated : Z)
    (event : TimelineEvent) (t : TransactionDoc) : TransactionDoc :=
  {| t_transaction_code := t_transaction_code t;
     t_product_id := t_product_id t; t_buyer_id := t_buyer_id t;
     t_seller_id := t_seller_id t;
     t_product_snapshot := t_product_snapshot t;
     t_status := CONFIRMED;
     t_timeline := t_timeline t ++ [event];
     t_seller_confirmed := true;
     t_buyer_paid := t_buyer_paid t;
     t_notes := t_notes t; t_payment_method := payment_method;
     t_created_at := t_created_at t;
     t_updated_at := updated;
     t_expires_at := t_expires_at t;
     t_completed_at := t_completed_at t |}.

(** The update of [buyer_confirm_payment]. *)
Definition set_buyer_paid (updated : Z) (event : TimelineEvent)
    (t : TransactionDoc) : TransactionDoc :=
  {| t_transaction_code := t_transaction_code t;
     t_product_id := t_product_id t; t_buyer_id := t_buyer_id t;
     t_seller_id := t_seller_id t;
     t_product_snapshot := t_product_snapshot t;
     t_status := PAYMENT_CONFIRMED;
     t_timeline := t_timeline t ++ [event];
     t_seller_confirmed := t_seller_confirmed t;
     t_buyer_paid := true;
     t_notes := t_notes t; t_payment_method := t_payment_method t;
     t_created_at := t_created_at t;
     t_updated_at := updated;
     t_expires_at := t_expires_at t;
     t_completed_at := t_completed_at t |}.

(** The update of [add_note]. *)
Definition push_note (updated : Z) (event : TimelineEvent)
    (t : TransactionDoc) : TransactionDoc :=
  {| t_transaction_code := t_transaction_code t;
     t_product_id := t_product_id t; t_buyer_id := t_buyer_id t;
     t_seller_id := t_seller_id t;
     t_product_snapshot := t_product_snapshot t;
     t_status := t_status t;
     t_timeline := t_timeline t ++ [event];
     t_seller_confirmed := t_seller_confirmed t;
     t_buyer_paid := t_buyer_paid t;
     t_notes := t_notes t; t_payment_method := t_payment_method t;
     t_created_at := t_created_at t;
     t_updated_at := updated;
     t_expires_at := t_expires_at t;
     t_completed_at := t_completed_at t |}.

(** [self.collection.update_one({"_id": ObjectId(transaction_id)}, upd)] *)
Definition update_by_id (oid : N) (upd : TransactionDoc → TransactionDoc)
    : M bool :=
  let! ts := get_transactions in
  let '(ts', modified_count) := update_one oid (λ _, true) upd ts in
  run put_transactions ts' in
  ret (Nat.ltb 0 modified_count).

Definition update_status (transaction_id new_status message user_id : string)
    : M bool :=
  let! transaction := find_by_id transaction_id in
  match transaction with
  | None => ret false
  | Some t =>
      if decide (user_id ∉ [t_buyer_id t; t_seller_id t]) then ret false
      else
        let! stamp := utcnow in
        let timeline_event :=
          {| ev_status := new_status; ev_timestamp := stamp;
             ev_message := message; ev_by_user_id := Some user_id |} in
        let! updated := utcnow in
        let! completed :=
          (if decide (new_status = COMPLETED)
           then let! c := utcnow in ret (Some c)
           else ret None) in
        let! oid := lift_oid transaction_id in
        update_by_id oid (set_status new_status updated completed timeline_event)
  end.

Definition seller_confirm (transaction_id seller_id payment_method : string)
    : M bool :=
  let! transaction := find_by_id transaction_id in
  match transaction with
  | None => ret false
  | Some t =>
      if decide (t_seller_id t ≠ seller_id) then ret false
      else
        let! stamp := utcnow in
        let timeline_event :=
          {| ev_status := CONFIRMED; ev_timestamp := stamp;
             ev_message := "Vendedor confirmó la venta";
             ev_by_user_id := Some seller_id |} in
        let! updated := utcnow in
        let! oid := lift_oid transaction_id in
        update_by_id oid (set_seller_confirmed payment_method updated timeline_event)
  end.

Definition buyer_confirm_payment (transaction_id buyer_id : string) : M bool :=
  let! transaction := find_by_id transaction_id in
  match transaction with
  | None => ret false
  | Some t =>
      if decide (t_buyer_id t ≠ buyer_id) then ret false
      else
        let! stamp := utcnow in
        let timeline_event :=
          {| ev_status := PAYMENT_CONFIRMED; ev_timestamp := stamp;
             ev_message := "Comprador confirmó el pago";
             ev_by_user_id := Some buyer_id |} in
        let! updated := utcnow in
        let! oid := lift_oid transaction_id in
        update_by_id oid (set_buyer_paid updated timeline_event)
  end.

Definition complete_transaction (transaction_id user_id : string) : M bool :=
  update_status transaction_id COMPLETED
    "Transacción completada exitosamente" user_id.

Definition cancel_transaction (transaction_id user_id reason : string)
    : M bool :=
  let message :=
    if decide (reason ≠ "")
    then "Transacción cancelada. Motivo: " ++ reason
    else "Transacción cancelada" in
  update_status transaction_id CANCELLED message user_id.

Definition add_note (transaction_id user_id note : string) : M bool :=
  let! transaction := find_by_id transaction_id in
  match transaction with
  | None => ret false
  | Some t =>
      if decide (user_id ∉ [t_buyer_id t; t_seller_id t]) then ret false
      else
        let! _note_entry_stamp := utcnow in
        let! oid := lift_oid transaction_id in
        let! stamp := utcnow in
        let event :=
          {| ev_status := t_status t; ev_timestamp := stamp;
             ev_message := "Nota agregada: " ++ note;
             ev_by_user_id := Some user_id |} in
        let! updated := utcnow in
        update_by_id oid (push_note updated event)
  end.

Definition find_by_product (product_id : string) : M (list TransactionDoc) :=
  let! ts := get_transactions in
  ret (find_sorted t_created_at (λ d, bool_decide (t_product_id d = product_id))
         0 0 ts).

Definition find_by_buyer (buyer_id : string) (skip limit : nat)
    : M (list TransactionDoc) :=
  let! ts := get_transactions in
  ret (find_sorted t_created_at (λ d, bool_decide (t_buyer_id d = buyer_id))
         skip limit ts).

Definition find_by_seller (seller_id : string) (skip limit : nat)
    : M (list TransactionDoc) :=
  let! ts := get_transactions in
  ret (find_sorted t_created_at (λ d, bool_decide (t_seller_id d = seller_id))
         skip limit ts).

End Transaction.

(** ** routes/transactions.py

    A handler receives the caller's identity from [token_required], the
    id in the URL and the JSON object of the request body ([data], a
    dictionary with string values).  [models/user.py] is outside the
    workflow: the handlers that read user profiles take its
    [find_by_id] as the argument [user_find_by_id]. *)

Module Routes.

Inductive Payload :=
  | ReservationData (transaction : option TransactionDoc)
      (seller_username seller_nombre : option string) (seller_whatsapp : string)
  | TransactionData (transaction : TransactionDoc)
      (buyer_username buyer_nombre : option string)
      (seller_username seller_nombre : option string) (seller_whatsapp : string).

(** [jsonify({...}), http_status] *)
Record Response := {
  http_status : nat;
  success : bool;
  message : string;
  data : option Payload
}.

Definition failure (code : nat) (msg : string) : Response :=
  {| http_status := code; success := false; message := msg; data := None |}.

Definition ok (code : nat) (msg : string) (d : option Payload) : Response :=
  {| http_status := code; success := true; message := msg; data := d |}.

(** [try: body  except Exception as e: return jsonify(...), 500] *)
Definition handler (prefix : string) (body : M Response) : M Response :=
  try_except body (λ e, ret (failure 500 (prefix ++ exn_str e))).

(** [user.get(key)] on the result of [user_model.find_by_id] *)
Definition user_get (user : option (gmap string string)) (key : string)
    : M (option string) :=
  match user with
  | Some u => ret (u !! key)
  | None => raise AttributeError
  end.

Definition create_reservation
    (user_find_by_id : string → option (gmap string string)) (fuel : nat)
    (current_user_id current_user_role : string) (data : gmap string string)
    : M Response :=
  handler "Error al crear reserva: "
    (match data !! "product_id" with
     | None | Some "" => ret (failure 400 "ID de producto requerido")
     | Some product_id =>
         let! product := Product.find_by_id product_id in
         match product with
         | None => ret (failure 404 "Producto no encontrado")
         | Some p =>
             if decide (p_estado p ≠ "disponible") then
               ret (failure 400
                 ("El producto no está disponible. Estado actual: " ++ p_estado p))
             else
               let seller_id := p_user_id p in
               if decide (current_user_id = seller_id) then
                 ret (failure 400 "No puedes comprar tu propio producto")
               else
                 let! '(transaction_id, transaction_code) :=
                   Transaction.create fuel product_id current_user_id seller_id p in
                 let! reserved :=
                   Product.reserve product_id current_user_id transaction_id in
                 if negb reserved then
                   ret (failure 400 "No se pudo reservar el producto")
                 else
                   let! transaction := Transaction.find_by_id transaction_id in
                   let seller := user_find_by_id seller_id in
                   let! s_username := user_get seller "username" in
                   let! s_nombre := user_get seller "nombre" in
                   let! s_whatsapp := user_get seller "whatsapp" in
                   ret (ok 201 "Producto reservado exitosamente"
                          (Some (ReservationData transaction s_username s_nombre
                                   (default "" s_whatsapp))))
         end
     end).

Definition get_transaction
    (user_find_by_id : string → option (gmap string string))
    (current_user_id current_user_role transaction_id : string) : M Response :=
  handler "Error al obtener transacción: "
    (let! transaction := Transaction.find_by_id transaction_id in
     match transaction with
     | None => ret (failure 404 "Transacción no encontrada")
     | Some t =>
         if decide (current_user_id ∉ [t_buyer_id t; t_seller_id t]) then
           ret (failure 403 "No tienes acceso a esta transacción")
         else
           let buyer := user_find_by_id (t_buyer_id t) in
           let seller := user_find_by_id (t_seller_id t) in
           let! b_username := user_get buyer "username" in
           let! b_nombre := user_get buyer "nombre" in
           let! s_username := user_get seller "username" in
           let! s_nombre := user_get seller "nombre" in
           let! s_whatsapp := user_get seller "whatsapp" in
           ret (ok 200 ""
                  (Some (TransactionData t b_username b_nombre
                           s_username s_nombre (default "" s_whatsapp))))
     end).

Definition seller_confirm
    (current_user_id current_user_role transaction_id : string)
    (data : gmap string string) : M Response :=
  handler "Error: "
    (let payment_method := default "" (data !! "payment_method") in
     let! transaction := Transaction.find_by_id transaction_id in
     match transaction with
     | None => ret (failure 404 "Transacción no encontrada")
     | Some t =>
         if decide (t_seller_id t ≠ current_user_id) then
           ret (failure 403 "No tienes permiso para confirmar esta venta")
         else
           let! success :=
             Transaction.seller_confirm transaction_id current_user_id
               payment_method in
           if negb success then
             ret (failure 400 "No se pudo confirmar la venta")
           else ret (ok 200 "Venta confirmada exitosamente" None)
     end).

Definition buyer_confirm_payment
    (current_user_id current_user_role transaction_id : string) : M Response :=
  handler "Error: "
    (let! transaction := Transaction.find_by_id transaction_id in
     match transaction with
     | None => ret (failure 404 "Transacción no encontrada")
     | Some t =>
         if decide (t_buyer_id t ≠ current_user_id) then
           ret (failure 403 "No tienes permiso para confirmar este pago")
         else
           let! success :=
             Transaction.buyer_confirm_payment transaction_id current_user_id in
           if negb success then
             ret (failure 400 "No se pudo confirmar el pago")
           else ret (ok 200 "Pago confirmado exitosamente" None)
     end).

Definition complete_transaction
    (current_user_id current_user_role transaction_id : string) : M Response :=
  handler "Error: "
    (let! transaction := Transaction.find_by_id transaction_id in
     match transaction with
     | None => ret (failure 404 "Transacción no encontrada")
     | Some t =>
         if decide (current_user_id ∉ [t_buyer_id t; t_seller_id t]) then
           ret (failure 403 "No tienes permiso para completar esta transacción")
         else if negb (t_seller_confirmed t) || negb (t_buyer_paid t) then
           ret (failure 400 "Ambas partes deben confirmar antes de completar")
         else
           let! success :=
             Transaction.complete_transaction transaction_id current_user_id in
           if success then
             run Product.mark_as_sold (t_product_id t) transaction_id in
             ret (ok 200 "Transacción completada exitosamente" None)
           else ret (failure 400 "No se pudo completar la transacción")
     end).

Definition cancel_transaction
    (current_user_id current_user_role transaction_id : string)
    (data : gmap string string) : M Response :=
  handler "Error: "
    (let reason := default "" (data !! "reason") in
     let! transaction := Transaction.find_by_id transaction_id in
     match transaction with
     | None => ret (failure 404 "Transacción no encontrada")
     | Some t =>
         if decide (current_user_id ∉ [t_buyer_id t; t_seller_id t]) then
           ret (failure 403 "No tienes permiso para cancelar esta transacción")
         else
           let! success :=
             Transaction.cancel_transaction transaction_id current_user_id reason in
           if success then
             run Product.unreserve (t_product_id t) in
             ret (ok 200 "Transacción cancelada exitosamente" None)
           else ret (failure 400 "No se pudo cancelar la transacción")
     end).

Definition add_note
    (current_user_id current_user_role transaction_id : string)
    (data : gmap string string) : M Response :=
  handler "Error: "
    (let note := default "" (data !! "note") in
     if decide (note = "") then
       ret (failure 400 "La nota no puede estar vacía")
     else
       let! success :=
         Transaction.add_note transaction_id current_user_id note in
       if success then ret (ok 200 "Nota agregada exitosamente" None)
       else ret (failure 400 "No se pudo agregar la nota")).

End Routes.

(** * Auxiliary definitions for the statements *)

(** The world after [n] more readings of the clock. *)
Definition tick (n : nat) (w : World) : World :=
  {| products := products w; transactions := transactions w;
     utc := utc w; ticks := n + ticks w;
     rng := rng w; draws := draws w; oids := oids w; made := made w |}.

Definition with_transactions (ts : gmap N TransactionDoc) (w : World) : World :=
  {| products := products w; transactions := ts;
     utc := utc w; ticks := ticks w;
     rng := rng w; draws := draws w; oids := oids w; made := made w |}.

Definition with_products (ps : gmap N ProductDoc) (w : World) : World :=
  {| products := ps; transactions := transactions w;
     utc := utc w; ticks := ticks w;
     rng := rng w; draws := draws w; oids := oids w; made := made w |}.

(** The document a string id designates, as both [find_by_id] compute it. *)
Definition transaction_at (w : World) (transaction_id : string)
    : option TransactionDoc :=
  match ObjectId transaction_id with
  | inr k => transactions w !! k
  | inl _ => None
  end.

Definition product_at (w : World) (product_id : string) : option ProductDoc :=
  match ObjectId product_id with
  | inr k => products w !! k
  | inl _ => None
  end.

(** The parties of a transaction. *)
Definition party (user : string) (t : TransactionDoc) : Prop :=
  user ∈ [t_buyer_id t; t_seller_id t].

Global Instance party_dec user t : Decision (party user t).
Proof. unfold party. apply _. Defined.

(** The timeline entry and the stamps [update_status] writes when it is
    entered in world [w]. *)
Definition status_event (new_status message user_id : string) (w : World)
    : TimelineEvent :=
  {| ev_status := new_status; ev_timestamp := utc w (ticks w);
     ev_message := message; ev_by_user_id := Some user_id |}.

Definition completed_stamp (new_status : string) (w : World) : option Z :=
  if decide (new_status = Transaction.COMPLETED)
  then Some (utc w (2 + ticks w)) else None.

Definition status_ticks (new_status : string) : nat :=
  if decide (new_status = Transaction.COMPLETED) then 3 else 2.

Definition confirm_event (seller_id : string) (w : World) : TimelineEvent :=
  {| ev_status := Transaction.CONFIRMED; ev_timestamp := utc w (ticks w);
     ev_message := "Vendedor confirmó la venta";
     ev_by_user_id := Some seller_id |}.

Definition payment_event (buyer_id : string) (w : World) : TimelineEvent :=
  {| ev_status := Transaction.PAYMENT_CONFIRMED; ev_timestamp := utc w (ticks w);
     ev_message := "Comprador confirmó el pago";
     ev_by_user_id := Some buyer_id |}.

Definition note_event (t : TransactionDoc) (user_id note : string) (w : World)
    : TimelineEvent :=
  {| ev_status := t_status t; ev_timestamp := utc w (1 + ticks w);
     ev_message := "Nota agregada: " ++ note;
     ev_by_user_id := Some user_id |}.

(** [unreserve] and [mark_as_sold] rewrite the product unconditionally;
    [settle upd k ps] is the collection afterwards. *)
Definition settle (upd : ProductDoc → ProductDoc) (k : N)
    (ps : gmap N ProductDoc) : gmap N ProductDoc :=
  (update_one k (λ _, true) upd ps).1.

(** The status of the transaction stored under [k] once a handler has
    answered. *)
Definition status_after {A} (k : N) (r : outcome A * World) : option string :=
  t_status <$> transactions r.2 !! k.

(** ** Transaction codes *)

(** The world after [n] more draws of the generator. *)
Definition draw (n : nat) (w : World) : World :=
  {| products := products w; transactions := transactions w;
     utc := utc w; ticks := ticks w;
     rng := rng w; draws := n + draws w; oids := oids w; made := made w |}.

(** The character [secrets.choice(chars)] returns on the draw [i]. *)
Definition chosen (i : nat) : ascii :=
  default "A"%char
    (String.get (i mod String.length Transaction.chars) Transaction.chars).

(** The [n] characters read from position [pos] of the generator. *)
Fixpoint chosen_string (rng : nat → nat) (pos n : nat) : string :=
  match n with
  | O => ""
  | S n' => String (chosen (rng pos)) (chosen_string rng (S pos) n')
  end.

(** The code [_generate_transaction_code] builds from position [pos]. *)
Definition code_at (rng : nat → nat) (pos : nat) : string :=
  "TRD-" ++ chosen_string rng pos 6.

Definition alphanumeric (c : ascii) : bool :=
  let n := N_of_ascii c in
  ((48 <=? n) && (n <=? 57) || (65 <=? n) && (n <=? 90)
   || (97 <=? n) && (n <=? 122))%N.

(** The fixed prefix followed by exactly 6 alphanumeric characters. *)
Definition code_format (code : string) : bool :=
  bool_decide (String.substring 0 4 code = "TRD-")
  && Nat.eqb (String.length code) 10
  && forallb alphanumeric (list_ascii_of_string (String.substring 4 6 code)).

(** The code [create] holds after [j] regenerations. *)
Definition candidate (w : World) (j : nat) : string :=
  code_at (rng w) (draws w + 6 * j).

(** Some stored transaction carries the code. *)
Definition code_taken (ts : gmap N TransactionDoc) (code : string) : Prop :=
  ∃ k t, ts !! k = Some t ∧ t_transaction_code t = code.

(** No two stored transactions share a code. *)
Definition codes_unique (ts : gmap N TransactionDoc) : Prop :=
  ∀ k1 k2 t1 t2,
    ts !! k1 = Some t1 → ts !! k2 = Some t2 →
    t_transaction_code t1 = t_transaction_code t2 → k1 = k2.

(** ** Runs of the product workflow

    The operations of [models/product.py] that the workflow applies to a
    listing, and the world after a sequence of them. *)






(** ** Runs of the ledger

    The methods of [models/transaction.py] that write to the collection,
    and the world after a sequence of calls. *)

Inductive ledger_op :=
  | TxCreate (fuel : nat) (product_id buyer_id seller_id : string)
      (product_data : ProductDoc)
  | UpdateStatus (transaction_id new_status message user_id : string)
  | SellerConfirm (transaction_id seller_id payment_method : string)
  | BuyerConfirmPayment (transaction_id buyer_id : string)
  | AddNote (transaction_id user_id note : string).

(** The call; for [create] the result is whether it returned. *)
Definition ledger_exec (op : ledger_op) : M bool :=
  match op with
  | TxCreate fuel product_id buyer_id seller_id product_data =>
      let! _ := Transaction.create fuel product_id buyer_id seller_id product_data in
      ret true
  | UpdateStatus transaction_id new_status message user_id =>
      Transaction.update_status transaction_id new_status message user_id
  | SellerConfirm transaction_id seller_id payment_method =>
      Transaction.seller_confirm transaction_id seller_id payment_method
  | BuyerConfirmPayment transaction_id buyer_id =>
      Transaction.buyer_confirm_payment transaction_id buyer_id
  | AddNote transaction_id user_id note =>
      Transaction.add_note transaction_id user_id note
  end.

Definition ledger_step (w : World) (op : ledger_op) : World :=
  (ledger_exec op w).2.

Definition ledger (ops : list ledger_op) (w : World) : World :=
  foldl ledger_step w ops.

(** The transaction id an operation is called with. *)
Definition target (op : ledger_op) : option string :=
  match op with
  | TxCreate _ _ _ _ _ => None
  | UpdateStatus transaction_id _ _ _ => Some transaction_id
  | SellerConfirm transaction_id _ _ => Some transaction_id
  | BuyerConfirmPayment transaction_id _ => Some transaction_id
  | AddNote transaction_id _ _ => Some transaction_id
  end.

(** The calls that ask for the status completed. *)
Definition completes (op : ledger_op) : bool :=
  match op with
  | UpdateStatus _ new_status _ _ => bool_decide (new_status = Transaction.COMPLETED)
  | _ => false
  end.

(** [1] when [op], run in [w], is a successful call on the transaction
    stored under [k], [0] otherwise. *)
Definition applied (k : N) (op : ledger_op) (w : World) : nat :=
  match target op, (ledger_exec op w).1 with
  | Some transaction_id, Ret true =>
      if decide (ObjectId transaction_id = inr k) then 1 else 0
  | _, _ => 0
  end.

(** The number of successful calls on the transaction under [k] in a run. *)
Fixpoint applications (k : N) (ops : list ledger_op) (w : World) : nat :=
  match ops with
  | [] => 0
  | op :: ops' => applied k op w + applications k ops' (ledger_step w op)
  end.

(** A completed transaction carries a completion stamp. *)
Definition completed_stamped (ts : gmap N TransactionDoc) : Prop :=
  ∀ k T, ts !! k = Some T →
    t_status T = Transaction.COMPLETED → is_Some (t_completed_at T).

(** ** Strings the driver refuses as ids

    [bson.ObjectId] hands a string of length 24 to [bytes.fromhex], which
    skips ASCII white space between digit pairs; so besides the strings of
    24 hexadecimal digits it accepts some that mix digits and white space.
    The strings below are refused whatever is done about white space. *)

(** The characters [bytes.fromhex] skips. *)
Definition ascii_space (c : ascii) : bool :=
  let n := N_of_ascii c in
  (((9 <=? n) && (n <=? 13)) || (n =? 32))%N.

(** Neither a hexadecimal digit nor white space. *)
Definition foreign_char (c : ascii) : bool :=
  match hex_val c with
  | Some _ => false
  | None => negb (ascii_space c)
  end.

(** The length is not 24, or some character is neither a hexadecimal digit
    nor white space: [bson.ObjectId] raises [InvalidId]. *)
Definition refused_id (s : string) : bool :=
  negb (Nat.eqb (String.length s) 24)
  || existsb foreign_char (list_ascii_of_string s).

(** ** Which calls the ledger accepts

    Read off the guards of the methods, before anything is run. *)

(** The caller [op] names is one the method allows on [t]. *)
Definition allows (t : TransactionDoc) (op : ledger_op) : bool :=
  match op with
  | TxCreate _ _ _ _ _ => false
  | UpdateStatus _ _ _ user_id => bool_decide (party user_id t)
  | SellerConfirm _ seller_id _ => bool_decide (t_seller_id t = seller_id)
  | BuyerConfirmPayment _ buyer_id => bool_decide (t_buyer_id t = buyer_id)
  | AddNote _ user_id _ => bool_decide (party user_id t)
  end.

(** [op] is called with an id of the transaction stored under [k], by a
    caller the method allows. *)
Definition accepted (k : N) (op : ledger_op) (w : World) : bool :=
  match target op, transactions w !! k with
  | Some transaction_id, Some t =>
      bool_decide (ObjectId transaction_id = inr k) && allows t op
  | _, _ => false
  end.

(** The number of accepted calls on the transaction under [k] in a run. *)
Fixpoint acceptances (k : N) (ops : list ledger_op) (w : World) : nat :=
  match ops with
  | [] => 0
  | op :: ops' =>
      (if accepted k op w then 1 else 0) + acceptances k ops' (ledger_step w op)
  end.

(** The status an accepted call leaves on [t]. *)
Definition status_set (op : ledger_op) (t : TransactionDoc) : string :=
  match op with
  | UpdateStatus _ new_status _ _ => new_status
  | SellerConfirm _ _ _ => Transaction.CONFIRMED
  | BuyerConfirmPayment _ _ => Transaction.PAYMENT_CONFIRMED
  | _ => t_status t
  end.

(** ** What the ledger keeps of a transaction *)

(** The fields fixed at creation. *)
Definition same_identity (t t' : TransactionDoc) : Prop :=
  t_transaction_code t' = t_transaction_code t
  ∧ t_product_id t' = t_product_id t
  ∧ t_buyer_id t' = t_buyer_id t
  ∧ t_seller_id t' = t_seller_id t
  ∧ t_product_snapshot t' = t_product_snapshot t
  ∧ t_created_at t' = t_created_at t
  ∧ t_expires_at t' = t_expires_at t
  ∧ t_notes t' = t_notes t.

(** A confirmation that was given is still given. *)
Definition confirmations_kept (t t' : TransactionDoc) : Prop :=
  (t_seller_confirmed t = true → t_seller_confirmed t' = true)
  ∧ (t_buyer_paid t = true → t_buyer_paid t' = true).

(** ** Runs over a listing

    Every method of [models/product.py] that writes, except [delete]. *)

Inductive listing_op :=
  | LCreate (data : Product.ProductData) (user_id : string)
  | LUpdate (product_id : string) (data : Product.ProductData) (user_id : string)
  | LChangeStatus (product_id status user_id : string)
  | LIncrementViews (product_id : string)
  | LReserve (product_id buyer_id transaction_id : string)
  | LUnreserve (product_id : string)
  | LMarkAsSold (product_id transaction_id : string).

Definition listing_step (w : World) (op : listing_op) : World :=
  match op with
  | LCreate data user_id => (Product.create data user_id w).2
  | LUpdate product_id data user_id =>
      (Product.update product_id data user_id w).2
  | LChangeStatus product_id status user_id =>
      (Product.change_status product_id status user_id w).2
  | LIncrementViews product_id => (Product.increment_views product_id w).2
  | LReserve product_id buyer_id transaction_id =>
      (Product.reserve product_id buyer_id transaction_id w).2
  | LUnreserve product_id => (Product.unreserve product_id w).2
  | LMarkAsSold product_id transaction_id =>
      (Product.mark_as_sold product_id transaction_id w).2
  end.

Definition listing_run (ops : list listing_op) (w : World) : World :=
  foldl listing_step w ops.

(** What every such method keeps of a product: owner and creation time
    stay, the stock stays or drops to 0, the views never go down. *)
Definition listing_kept (p p' : ProductDoc) : Prop :=
  p_user_id p' = p_user_id p
  ∧ p_username p' = p_username p
  ∧ p_created_at p' = p_created_at p
  ∧ (p_stock p' = p_stock p ∨ p_stock p' = 0%Z)
  ∧ (p_views p ≤ p_views p')%Z.

(** ** Time stamps of the timeline *)




(** ** A sample marketplace

    One listing owned by [ana] and one transaction in which [bob] buys it;
    the clock reads 100, 101, ... and ids are handed out from 1000. *)

Module Sample.

Definition product_id : string := "0000000000000000000003e8".
Definition transaction_id : string := "0000000000000000000003e9".

Definition remera (estado : string) (reserved_by transaction : option string)
    : ProductDoc :=
  {| p_nombre := Some "Remera"; p_descripcion := "Remera de algodon";
     p_precio := 5%Q; p_talla := "M"; p_categoria := Some "Remeras";
     p_imagen_url := ""; p_user_id := "ana"; p_username := "ana";
     p_estado := estado; p_stock := 1;
     p_reserved_by := reserved_by; p_transaction_id := transaction;
     p_views := 0; p_created_at := 10; p_updated_at := 10 |}.

Definition reserva (status : string) (seller_confirmed buyer_paid : bool)
    (completed_at : option Z) : TransactionDoc :=
  {| t_transaction_code := "TRD-AB12CD";
     t_product_id := product_id; t_buyer_id := "bob"; t_seller_id := "ana";
     t_product_snapshot :=
       {| snap_nombre := Some "Remera"; snap_descripcion := "Remera de algodon";
          snap_precio := 5%Q; snap_categoria := Some "Remeras";
          snap_talla := "M"; snap_imagen_url := "" |};
     t_status := status;
     t_timeline :=
       [ {| ev_status := "pendiente"; ev_timestamp := 20;
            ev_message := "Reserva creada"; ev_by_user_id := None |} ];
     t_seller_confirmed := seller_confirmed; t_buyer_paid := buyer_paid;
     t_notes := ""; t_payment_method := "";
     t_created_at := 20; t_updated_at := 20;
     t_expires_at := None; t_completed_at := completed_at |}.

Definition world (ps : gmap N ProductDoc) (ts : gmap N TransactionDoc)
    : World :=
  {| products := ps; transactions := ts;
     utc := λ n, (100 + Z.of_nat n)%Z; ticks := 0;
     rng := λ n, 7 * n; draws := 0;
     oids := λ n, N.of_nat (1000 + n); made := 0 |}.

(** The listing reserved by [bob] under the transaction, in a given
    state of the handshake. *)
Definition reserved (status : string) (seller_confirmed buyer_paid : bool)
    (completed_at : option Z) : World :=
  world {[ 1000%N := remera "reservado" (Some "bob") (Some transaction_id) ]}
        {[ 1001%N := reserva status seller_confirmed buyer_paid completed_at ]}.

(** A transaction that already carries the first code the sample
    generator yields. *)
Definition second_reserva : TransactionDoc :=
  {| t_transaction_code := "TRD-AHOV29";
     t_product_id := product_id; t_buyer_id := "dan"; t_seller_id := "ana";
     t_product_snapshot :=
       {| snap_nombre := Some "Remera"; snap_descripcion := "Remera de algodon";
          snap_precio := 5%Q; snap_categoria := Some "Remeras";
          snap_talla := "M"; snap_imagen_url := "" |};
     t_status := "cancelada";
     t_timeline :=
       [ {| ev_status := "pendiente"; ev_timestamp := 5;
            ev_message := "Reserva creada"; ev_by_user_id := None |} ];
     t_seller_confirmed := false; t_buyer_paid := false;
     t_notes := ""; t_payment_method := "";
     t_created_at := 5; t_updated_at := 6;
     t_expires_at := None; t_completed_at := None |}.

(** What [ana] submits to list the shirt. *)
Definition listing : Product.ProductData :=
  {| Product.d_nombre := Some "Remera";
     Product.d_descripcion := Some "Remera de algodon";
     Product.d_precio := Some 5%Q; Product.d_talla := Some "M";
     Product.d_categoria := Some "Remeras";
     Product.d_imagen_url := None; Product.d_username := Some "ana" |}.


End Sample.
(** * Verification *)

Lemma party_iff user t : party user t ↔ user = t_buyer_id t ∨ user = t_seller_id t.
Proof.
  unfold party. rewrite !elem_of_cons, elem_of_nil. tauto.
Qed.

Lemma world_eta w :
  {| products := products w; transactions := transactions w;
     utc := utc w; ticks := ticks w;
     rng := rng w; draws := draws w; oids := oids w; made := made w |} = w.
Proof. by destruct w. Qed.

Lemma app_singleton_neq {A} (l : list A) (x : A) : (l ++ [x])%list ≠ l.
Proof.
  intros H. apply (f_equal length) in H.
  rewrite length_app in H. simpl in H. lia.
Qed.

Lemma Transaction_find_by_id_eq transaction_id w :
  Transaction.find_by_id transaction_id w = (Ret (transaction_at w transaction_id), w).
Proof.
  unfold Transaction.find_by_id, transaction_at, try_except, bind, lift_oid.
  by destruct (ObjectId transaction_id) as [e|k].
Qed.

Lemma Product_find_by_id_eq product_id w :
  Product.find_by_id product_id w = (Ret (product_at w product_id), w).
Proof.
  unfold Product.find_by_id, product_at, try_except, bind, lift_oid.
  by destruct (ObjectId product_id) as [e|k].
Qed.

Lemma update_by_id_eq k upd w t :
  transactions w !! k = Some t →
  upd t ≠ t →
  Transaction.update_by_id k upd w
  = (Ret true, with_transactions (<[k := upd t]> (transactions w)) w).
Proof.
  intros Hk Hne.
  unfold Transaction.update_by_id, bind, get_transactions, update_one.
  rewrite Hk. simpl. by destruct (decide (upd t = t)).
Qed.

Lemma update_status_ok transaction_id new_status message user_id w k t :
  ObjectId transaction_id = inr k →
  transactions w !! k = Some t →
  party user_id t →
  Transaction.update_status transaction_id new_status message user_id w
  = (Ret true,
     with_transactions
       (<[k := Transaction.set_status new_status (utc w (1 + ticks w))
                 (completed_stamp new_status w)
                 (status_event new_status message user_id w) t]>
          (transactions w))
       (tick (status_ticks new_status) w)).
Proof.
  intros Hid Hk Hp.
  unfold Transaction.update_status, bind.
  rewrite Transaction_find_by_id_eq. unfold transaction_at. rewrite Hid, Hk.
  destruct (decide (user_id ∉ [t_buyer_id t; t_seller_id t])) as [Hn|_];
    [by destruct Hn|].
  unfold completed_stamp, status_ticks, lift_oid, bind.
  destruct (decide (new_status = Transaction.COMPLETED)); simpl; rewrite Hid;
    simpl;
    (erewrite update_by_id_eq;
      [reflexivity | exact Hk
      | intros H; apply (f_equal t_timeline) in H; simpl in H;
        by apply app_singleton_neq in H]).
Qed.

Lemma update_status_rejected transaction_id new_status message user_id w :
  match transaction_at w transaction_id with
  | None => True
  | Some t => ¬ party user_id t
  end →
  Transaction.update_status transaction_id new_status message user_id w
  = (Ret false, w).
Proof.
  intros H. unfold Transaction.update_status, bind.
  rewrite Transaction_find_by_id_eq.
  destruct (transaction_at w transaction_id) as [t|]; [|done].
  by destruct (decide (user_id ∉ [t_buyer_id t; t_seller_id t])).
Qed.

Ltac timeline_changed :=
  let H := fresh in
  intros H; apply (f_equal t_timeline) in H; simpl in H;
  by apply app_singleton_neq in H.

Lemma seller_confirm_ok transaction_id seller_id payment_method w k t :
  ObjectId transaction_id = inr k →
  transactions w !! k = Some t →
  t_seller_id t = seller_id →
  Transaction.seller_confirm transaction_id seller_id payment_method w
  = (Ret true,
     with_transactions
       (<[k := Transaction.set_seller_confirmed payment_method
                 (utc w (1 + ticks w)) (confirm_event seller_id w) t]>
          (transactions w))
       (tick 2 w)).
Proof.
  intros Hid Hk Hs.
  unfold Transaction.seller_confirm, bind.
  rewrite Transaction_find_by_id_eq. unfold transaction_at. rewrite Hid, Hk.
  destruct (decide (t_seller_id t ≠ seller_id)); [done|].
  unfold lift_oid. simpl. rewrite Hid. simpl.
  erewrite update_by_id_eq; [reflexivity | exact Hk | timeline_changed].
Qed.

Lemma seller_confirm_rejected transaction_id seller_id payment_method w :
  match transaction_at w transaction_id with
  | None => True
  | Some t => t_seller_id t ≠ seller_id
  end →
  Transaction.seller_confirm transaction_id seller_id payment_method w
  = (Ret false, w).
Proof.
  intros H. unfold Transaction.seller_confirm, bind.
  rewrite Transaction_find_by_id_eq.
  destruct (transaction_at w transaction_id) as [t|]; [|done].
  by destruct (decide (t_seller_id t ≠ seller_id)).
Qed.

Lemma buyer_confirm_payment_ok transaction_id buyer_id w k t :
  ObjectId transaction_id = inr k →
  transactions w !! k = Some t →
  t_buyer_id t = buyer_id →
  Transaction.buyer_confirm_payment transaction_id buyer_id w
  = (Ret true,
     with_transactions
       (<[k := Transaction.set_buyer_paid (utc w (1 + ticks w))
                 (payment_event buyer_id w) t]>
          (transactions w))
       (tick 2 w)).
Proof.
  intros Hid Hk Hs.
  unfold Transaction.buyer_confirm_payment, bind.
  rewrite Transaction_find_by_id_eq. unfold transaction_at. rewrite Hid, Hk.
  destruct (decide (t_buyer_id t ≠ buyer_id)); [done|].
  unfold lift_oid. simpl. rewrite Hid. simpl.
  erewrite update_by_id_eq; [reflexivity | exact Hk | timeline_changed].
Qed.

Lemma buyer_confirm_payment_rejected transaction_id buyer_id w :
  match transaction_at w transaction_id with
  | None => True
  | Some t => t_buyer_id t ≠ buyer_id
  end →
  Transaction.buyer_confirm_payment transaction_id buyer_id w = (Ret false, w).
Proof.
  intros H. unfold Transaction.buyer_confirm_payment, bind.
  rewrite Transaction_find_by_id_eq.
  destruct (transaction_at w transaction_id) as [t|]; [|done].
  by destruct (decide (t_buyer_id t ≠ buyer_id)).
Qed.

Lemma add_note_ok transaction_id user_id note w k t :
  ObjectId transaction_id = inr k →
  transactions w !! k = Some t →
  party user_id t →
  Transaction.add_note transaction_id user_id note w
  = (Ret true,
     with_transactions
       (<[k := Transaction.push_note (utc w (2 + ticks w))
                 (note_event t user_id note w) t]>
          (transactions w))
       (tick 3 w)).
Proof.
  intros Hid Hk Hp.
  unfold Transaction.add_note, bind.
  rewrite Transaction_find_by_id_eq. unfold transaction_at. rewrite Hid, Hk.
  destruct (decide (user_id ∉ [t_buyer_id t; t_seller_id t])) as [Hn|_];
    [by destruct Hn|].
  unfold lift_oid. simpl. rewrite Hid. simpl.
  erewrite update_by_id_eq; [reflexivity | exact Hk | timeline_changed].
Qed.

Lemma add_note_rejected transaction_id user_id note w :
  match transaction_at w transaction_id with
  | None => True
  | Some t => ¬ party user_id t
  end →
  Transaction.add_note transaction_id user_id note w = (Ret false, w).
Proof.
  intros H. unfold Transaction.add_note, bind.
  rewrite Transaction_find_by_id_eq.
  destruct (transaction_at w transaction_id) as [t|]; [|done].
  by destruct (decide (user_id ∉ [t_buyer_id t; t_seller_id t])).
Qed.

Lemma settle_lookup upd k ps p :
  ps !! k = Some p → settle upd k ps !! k = Some (upd p).
Proof.
  intros Hk. unfold settle, update_one. rewrite Hk.
  destruct (decide (upd p = p)) as [->|]; simpl; [done|].
  apply lookup_insert_eq.
Qed.


Lemma unreserve_eq product_id w k :
  ObjectId product_id = inr k →
  ∃ b, Product.unreserve product_id w
       = (Ret b,
          with_products
            (settle (Product.set_available (utc w (ticks w))) k (products w))
            (tick 1 w)).
Proof.
  intros Hid. unfold Product.unreserve, bind, lift_oid, settle.
  rewrite Hid. simpl.
  destruct (update_one k _ _ (products w)) as [ps' n]. simpl. eauto.
Qed.

Lemma mark_as_sold_eq product_id transaction_id w k :
  ObjectId product_id = inr k →
  ∃ b, Product.mark_as_sold product_id transaction_id w
       = (Ret b,
          with_products
            (settle (Product.set_sold transaction_id (utc w (ticks w))) k
               (products w))
            (tick 1 w)).
Proof.
  intros Hid. unfold Product.mark_as_sold, bind, lift_oid, settle.
  rewrite Hid. simpl.
  destruct (update_one k _ _ (products w)) as [ps' n]. simpl. eauto.
Qed.

Lemma settle_raises product_id w :
  ObjectId product_id = inl InvalidId →
  Product.unreserve product_id w = (Exc InvalidId, w)
  ∧ ∀ transaction_id,
      Product.mark_as_sold product_id transaction_id w = (Exc InvalidId, w).
Proof.
  intros Hid. unfold Product.unreserve, Product.mark_as_sold, bind, lift_oid.
  by rewrite Hid.
Qed.

Lemma ObjectId_error s e : ObjectId s = inl e → e = InvalidId.
Proof.
  unfold ObjectId. destruct (Nat.eqb _ _); [|congruence].
  destruct (from_hex s 0); congruence.
Qed.

Lemma reserve_rejected product_id buyer_id transaction_id w :
  match product_at w product_id with
  | None => True
  | Some p => p_estado p ≠ Product.AVAILABLE ∨ p_user_id p = buyer_id
  end →
  Product.reserve product_id buyer_id transaction_id w = (Ret false, w).
Proof.
  intros H. unfold Product.reserve, bind.
  rewrite Product_find_by_id_eq.
  destruct (product_at w product_id) as [p|]; [|done].
  destruct (decide (p_estado p ≠ Product.AVAILABLE)); [done|].
  destruct (decide (p_user_id p = buyer_id)); [done|]. tauto.
Qed.

Lemma reserve_ok product_id buyer_id transaction_id w k p :
  ObjectId product_id = inr k →
  products w !! k = Some p →
  p_estado p = Product.AVAILABLE →
  p_user_id p ≠ buyer_id →
  Product.reserve product_id buyer_id transaction_id w
  = (Ret true,
     with_products
       (<[k := Product.set_reserved buyer_id transaction_id (utc w (ticks w)) p]>
          (products w))
       (tick 1 w)).
Proof.
  intros Hid Hk Hav Hown. unfold Product.reserve, bind.
  rewrite Product_find_by_id_eq. unfold product_at. rewrite Hid, Hk.
  destruct (decide (p_estado p ≠ Product.AVAILABLE)); [done|].
  destruct (decide (p_user_id p = buyer_id)); [done|].
  unfold lift_oid. rewrite Hid. simpl. unfold update_one. rewrite Hk.
  rewrite bool_decide_eq_true_2 by done.
  destruct (decide (Product.set_reserved _ _ _ p = p)) as [Heq|_]; [|done].
  apply (f_equal p_estado) in Heq. simpl in Heq. rewrite Hav in Heq. done.
Qed.

(** Closed decidable facts about the sample worlds. *)
Ltac decide_by_eval := apply (bool_decide_unpack _); vm_compute; exact I.

(** ** The route handlers *)

Lemma handler_eq prefix body w :
  Routes.handler prefix body w
  = match body w with
    | (Exc e, w') => (Ret (Routes.failure 500 (prefix ++ exn_str e)), w')
    | r => r
    end.
Proof. reflexivity. Qed.

Lemma complete_route_not_found current_user_id role transaction_id w :
  transaction_at w transaction_id = None →
  Routes.complete_transaction current_user_id role transaction_id w
  = (Ret (Routes.failure 404 "Transacción no encontrada"), w).
Proof.
  intros H. unfold Routes.complete_transaction. rewrite handler_eq.
  unfold bind. by rewrite Transaction_find_by_id_eq, H.
Qed.

Lemma complete_route_forbidden current_user_id role transaction_id w t :
  transaction_at w transaction_id = Some t →
  ¬ party current_user_id t →
  Routes.complete_transaction current_user_id role transaction_id w
  = (Ret (Routes.failure 403
            "No tienes permiso para completar esta transacción"), w).
Proof.
  intros H Hp. unfold Routes.complete_transaction. rewrite handler_eq.
  unfold bind. rewrite Transaction_find_by_id_eq, H.
  by destruct (decide (current_user_id ∉ [t_buyer_id t; t_seller_id t])).
Qed.

Lemma complete_route_unconfirmed current_user_id role transaction_id w t :
  transaction_at w transaction_id = Some t →
  party current_user_id t →
  t_seller_confirmed t = false ∨ t_buyer_paid t = false →
  Routes.complete_transaction current_user_id role transaction_id w
  = (Ret (Routes.failure 400
            "Ambas partes deben confirmar antes de completar"), w).
Proof.
  intros H Hp Hf. unfold Routes.complete_transaction. rewrite handler_eq.
  unfold bind. rewrite Transaction_find_by_id_eq, H.
  destruct (decide (current_user_id ∉ [t_buyer_id t; t_seller_id t])) as [Hn|_];
    [by destruct Hn|].
  by destruct Hf as [-> | ->]; destruct (t_seller_confirmed t); simpl.
Qed.

(** The world once [Transaction.complete_transaction] ([w1]) and
    [Product.mark_as_sold] have run. *)
Lemma complete_route_completed current_user_id role transaction_id w k t :
  ObjectId transaction_id = inr k →
  transactions w !! k = Some t →
  party current_user_id t →
  t_seller_confirmed t = true →
  t_buyer_paid t = true →
  let w1 :=
    with_transactions
      (<[k := Transaction.set_status Transaction.COMPLETED (utc w (1 + ticks w))
                (Some (utc w (2 + ticks w)))
                (status_event Transaction.COMPLETED
                   "Transacción completada exitosamente" current_user_id w) t]>
         (transactions w))
      (tick 3 w) in
  Routes.complete_transaction current_user_id role transaction_id w
  = match ObjectId (t_product_id t) with
    | inr pk =>
        (Ret (Routes.ok 200 "Transacción completada exitosamente" None),
         with_products
           (settle (Product.set_sold transaction_id (utc w1 (ticks w1))) pk
              (products w1))
           (tick 1 w1))
    | inl e => (Ret (Routes.failure 500 ("Error: " ++ exn_str InvalidId)), w1)
    end.
Proof.
  intros Hid Hk Hp Hs Hb w1.
  unfold Routes.complete_transaction. rewrite handler_eq.
  unfold bind. rewrite Transaction_find_by_id_eq.
  unfold transaction_at. rewrite Hid, Hk.
  destruct (decide (current_user_id ∉ [t_buyer_id t; t_seller_id t])) as [Hn|_];
    [by destruct Hn|].
  rewrite Hs, Hb. simpl.
  unfold Transaction.complete_transaction.
  rewrite (update_status_ok _ _ _ _ _ _ _ Hid Hk Hp).
  change (completed_stamp Transaction.COMPLETED w) with (Some (utc w (2 + ticks w))).
  change (status_ticks Transaction.COMPLETED) with 3.
  fold w1.
  destruct (ObjectId (t_product_id t)) as [e|pk] eqn:Hpid.
  - pose proof (ObjectId_error _ _ Hpid) as ->.
    destruct (settle_raises _ w1 Hpid) as [_ Hm]. by rewrite Hm.
  - destruct (mark_as_sold_eq _ transaction_id w1 _ Hpid) as [b Hm].
    by rewrite Hm.
Qed.

Lemma cancel_route_not_found current_user_id role transaction_id data w :
  transaction_at w transaction_id = None →
  Routes.cancel_transaction current_user_id role transaction_id data w
  = (Ret (Routes.failure 404 "Transacción no encontrada"), w).
Proof.
  intros H. unfold Routes.cancel_transaction. rewrite handler_eq.
  unfold bind. by rewrite Transaction_find_by_id_eq, H.
Qed.

Lemma cancel_route_forbidden current_user_id role transaction_id data w t :
  transaction_at w transaction_id = Some t →
  ¬ party current_user_id t →
  Routes.cancel_transaction current_user_id role transaction_id data w
  = (Ret (Routes.failure 403
            "No tienes permiso para cancelar esta transacción"), w).
Proof.
  intros H Hp. unfold Routes.cancel_transaction. rewrite handler_eq.
  unfold bind. rewrite Transaction_find_by_id_eq, H.
  by destruct (decide (current_user_id ∉ [t_buyer_id t; t_seller_id t])).
Qed.

(** The world once [Transaction.cancel_transaction] and
    [Product.unreserve] have run; [message] is what the ledger records. *)
Lemma cancel_route_cancelled current_user_id role transaction_id data w k t :
  ObjectId transaction_id = inr k →
  transactions w !! k = Some t →
  party current_user_id t →
  ∃ message,
    let w1 :=
      with_transactions
        (<[k := Transaction.set_status Transaction.CANCELLED
                  (utc w (1 + ticks w)) None
                  (status_event Transaction.CANCELLED message current_user_id w)
                  t]>
           (transactions w))
        (tick 2 w) in
    Routes.cancel_transaction current_user_id role transaction_id data w
    = match ObjectId (t_product_id t) with
      | inr pk =>
          (Ret (Routes.ok 200 "Transacción cancelada exitosamente" None),
           with_products
             (settle (Product.set_available (utc w1 (ticks w1))) pk
                (products w1))
             (tick 1 w1))
      | inl e => (Ret (Routes.failure 500 ("Error: " ++ exn_str InvalidId)), w1)
      end.
Proof.
  intros Hid Hk Hp.
  unfold Routes.cancel_transaction. rewrite handler_eq.
  unfold bind. rewrite Transaction_find_by_id_eq.
  unfold transaction_at. rewrite Hid, Hk.
  destruct (decide (current_user_id ∉ [t_buyer_id t; t_seller_id t])) as [Hn|_];
    [by destruct Hn|].
  unfold Transaction.cancel_transaction.
  eexists.
  rewrite (update_status_ok _ _ _ _ _ _ _ Hid Hk Hp).
  change (completed_stamp Transaction.CANCELLED w) with (@None Z).
  change (status_ticks Transaction.CANCELLED) with 2.
  cbv zeta.
  match goal with
  | |- context [with_transactions ?ts (tick 2 w)] =>
      set (w1 := with_transactions ts (tick 2 w))
  end.
  destruct (ObjectId (t_product_id t)) as [e|pk] eqn:Hpid.
  - pose proof (ObjectId_error _ _ Hpid) as ->.
    destruct (settle_raises _ w1 Hpid) as [Hu _]. by rewrite Hu.
  - destruct (unreserve_eq _ w1 _ Hpid) as [b Hu]. by rewrite Hu.
Qed.

(** [create_reservation] up to its checks on the product. *)
Lemma reservation_route_rejected users fuel current_user_id role data w product_id :
  data !! "product_id" = Some product_id →
  product_id ≠ "" →
  match product_at w product_id with
  | None => True
  | Some p => p_estado p ≠ Product.AVAILABLE ∨ p_user_id p = current_user_id
  end →
  Routes.create_reservation users fuel current_user_id role data w
  = (Ret (match product_at w product_id with
          | None => Routes.failure 404 "Producto no encontrado"
          | Some p =>
              if decide (p_estado p ≠ Product.AVAILABLE) then
                Routes.failure 400
                  ("El producto no está disponible. Estado actual: " ++ p_estado p)
              else Routes.failure 400 "No puedes comprar tu propio producto"
          end), w).
Proof.
  intros Hd Hne H. unfold Routes.create_reservation. rewrite handler_eq, Hd.
  destruct product_id as [|c s]; [done|].
  unfold bind. rewrite Product_find_by_id_eq.
  destruct (product_at w (String c s)) as [p|]; [|done].
  change "disponible" with Product.AVAILABLE.
  destruct (decide (p_estado p ≠ Product.AVAILABLE)); [done|].
  destruct (decide (current_user_id = p_user_id p)); [done|].
  destruct H; [done | congruence].
Qed.

(** ** The product workflow keeps the reservation fields consistent *)


Lemma reserve_cases product_id buyer_id transaction_id w :
  Product.reserve product_id buyer_id transaction_id w = (Ret false, w)
  ∨ ∃ k p,
      ObjectId product_id = inr k ∧ products w !! k = Some p
      ∧ Product.reserve product_id buyer_id transaction_id w
        = (Ret true,
           with_products
             (<[k := Product.set_reserved buyer_id transaction_id
                       (utc w (ticks w)) p]> (products w))
             (tick 1 w)).
Proof.
  destruct (product_at w product_id) as [p|] eqn:Hat.
  - destruct (decide (p_estado p = Product.AVAILABLE)) as [Hav|Hav].
    + destruct (decide (p_user_id p = buyer_id)) as [Ho|Ho].
      * left. apply reserve_rejected. rewrite Hat. auto.
      * right. unfold product_at in Hat.
        destruct (ObjectId product_id) as [e|k] eqn:Hid; [done|].
        exists k, p. split; [done|]. split; [done|].
        by apply reserve_ok.
    + left. apply reserve_rejected. rewrite Hat. auto.
  - left. apply reserve_rejected. by rewrite Hat.
Qed.

Lemma create_products data user_id w :
  products (Product.create data user_id w).2 = products w
  ∨ ∃ k P,
      products w !! k = None
      ∧ products (Product.create data user_id w).2 = <[k := P]> (products w)
      ∧ p_estado P = Product.AVAILABLE
      ∧ p_stock P = 1%Z
      ∧ p_reserved_by P = None ∧ p_transaction_id P = None.
Proof.
  unfold Product.create, Product.insert_one, bind. simpl.
  destruct (products w !! oids w (made w)) eqn:Hk; simpl; [by left|].
  right. eexists _, _. split; [exact Hk|]. split; [reflexivity|]. done.
Qed.


(** ** The confirmation handlers *)

Lemma seller_confirm_route_not_found current_user_id role transaction_id data w :
  transaction_at w transaction_id = None →
  Routes.seller_confirm current_user_id role transaction_id data w
  = (Ret (Routes.failure 404 "Transacción no encontrada"), w).
Proof.
  intros H. unfold Routes.seller_confirm. rewrite handler_eq.
  unfold bind. by rewrite Transaction_find_by_id_eq, H.
Qed.

Lemma seller_confirm_route_forbidden current_user_id role transaction_id data w t :
  transaction_at w transaction_id = Some t →
  t_seller_id t ≠ current_user_id →
  Routes.seller_confirm current_user_id role transaction_id data w
  = (Ret (Routes.failure 403 "No tienes permiso para confirmar esta venta"), w).
Proof.
  intros H Hp. unfold Routes.seller_confirm. rewrite handler_eq.
  unfold bind. rewrite Transaction_find_by_id_eq, H.
  by destruct (decide (t_seller_id t ≠ current_user_id)).
Qed.

Lemma seller_confirm_route_ok current_user_id role transaction_id data w k t :
  ObjectId transaction_id = inr k →
  transactions w !! k = Some t →
  t_seller_id t = current_user_id →
  Routes.seller_confirm current_user_id role transaction_id data w
  = (Ret (Routes.ok 200 "Venta confirmada exitosamente" None),
     with_transactions
       (<[k := Transaction.set_seller_confirmed
                 (default "" (data !! "payment_method"))
                 (utc w (1 + ticks w)) (confirm_event current_user_id w) t]>
          (transactions w))
       (tick 2 w)).
Proof.
  intros Hid Hk Hs. unfold Routes.seller_confirm. rewrite handler_eq.
  unfold bind. rewrite Transaction_find_by_id_eq.
  unfold transaction_at. rewrite Hid, Hk.
  destruct (decide (t_seller_id t ≠ current_user_id)); [done|].
  by rewrite (seller_confirm_ok _ _ _ _ _ _ Hid Hk Hs).
Qed.

Lemma buyer_confirm_route_not_found current_user_id role transaction_id w :
  transaction_at w transaction_id = None →
  Routes.buyer_confirm_payment current_user_id role transaction_id w
  = (Ret (Routes.failure 404 "Transacción no encontrada"), w).
Proof.
  intros H. unfold Routes.buyer_confirm_payment. rewrite handler_eq.
  unfold bind. by rewrite Transaction_find_by_id_eq, H.
Qed.

Lemma buyer_confirm_route_forbidden current_user_id role transaction_id w t :
  transaction_at w transaction_id = Some t →
  t_buyer_id t ≠ current_user_id →
  Routes.buyer_confirm_payment current_user_id role transaction_id w
  = (Ret (Routes.failure 403 "No tienes permiso para confirmar este pago"), w).
Proof.
  intros H Hp. unfold Routes.buyer_confirm_payment. rewrite handler_eq.
  unfold bind. rewrite Transaction_find_by_id_eq, H.
  by destruct (decide (t_buyer_id t ≠ current_user_id)).
Qed.

Lemma buyer_confirm_route_ok current_user_id role transaction_id w k t :
  ObjectId transaction_id = inr k →
  transactions w !! k = Some t →
  t_buyer_id t = current_user_id →
  Routes.buyer_confirm_payment current_user_id role transaction_id w
  = (Ret (Routes.ok 200 "Pago confirmado exitosamente" None),
     with_transactions
       (<[k := Transaction.set_buyer_paid (utc w (1 + ticks w))
                 (payment_event current_user_id w) t]>
          (transactions w))
       (tick 2 w)).
Proof.
  intros Hid Hk Hs. unfold Routes.buyer_confirm_payment. rewrite handler_eq.
  unfold bind. rewrite Transaction_find_by_id_eq.
  unfold transaction_at. rewrite Hid, Hk.
  destruct (decide (t_buyer_id t ≠ current_user_id)); [done|].
  by rewrite (buyer_confirm_payment_ok _ _ _ _ _ Hid Hk Hs).
Qed.

(** ** Generation of transaction codes *)

Lemma chars_get j :
  j < 36 →
  ∃ c, String.get j Transaction.chars = Some c ∧ alphanumeric c = true.
Proof.
  intros Hj.
  do 36 (destruct j as [|j]; [eexists; split; reflexivity|]). lia.
Qed.

Lemma chosen_alphanumeric i : alphanumeric (chosen i) = true.
Proof.
  unfold chosen. change (String.length Transaction.chars) with 36.
  destruct (chars_get (i mod 36)) as (c & -> & Hc); [|exact Hc].
  apply Nat.mod_upper_bound. lia.
Qed.

Lemma choice_chars_eq w :
  choice Transaction.chars w = (Ret (chosen (rng w (draws w))), draw 1 w).
Proof.
  unfold choice, chosen. change (String.length Transaction.chars) with 36.
  destruct (chars_get (rng w (draws w) mod 36)) as (c & -> & _); [|done].
  apply Nat.mod_upper_bound. lia.
Qed.

Lemma join_choices_eq n w :
  Transaction.join_choices n w
  = (Ret (chosen_string (rng w) (draws w) n), draw n w).
Proof.
  revert w. induction n as [|n IH]; intros w; simpl.
  - unfold ret. f_equal. symmetry. apply world_eta.
  - unfold bind. rewrite choice_chars_eq, IH. simpl. unfold ret, draw. simpl.
    do 3 f_equal. lia.
Qed.

Lemma generate_eq w :
  Transaction._generate_transaction_code w
  = (Ret (code_at (rng w) (draws w)), draw 6 w).
Proof.
  unfold Transaction._generate_transaction_code, bind.
  by rewrite join_choices_eq.
Qed.

Lemma code_at_format rng pos : code_format (code_at rng pos) = true.
Proof.
  unfold code_at, code_format. simpl.
  rewrite !chosen_alphanumeric. reflexivity.
Qed.

Lemma find_one_None {D} (query : D → bool) (m : gmap N D) :
  find_one query m = None ↔ ∀ k d, m !! k = Some d → query d = false.
Proof.
  unfold find_one. split.
  - intros H k d Hk.
    destruct (List.find _ (map_to_list m)) as [kv|] eqn:Hf; [done|].
    apply (find_none _ _ Hf (k, d)).
    apply list_elem_of_In. by apply elem_of_map_to_list.
  - intros H.
    destruct (List.find _ (map_to_list m)) as [[k d]|] eqn:Hf; [|done].
    apply find_some in Hf as [Hin Hq].
    apply list_elem_of_In, elem_of_map_to_list in Hin.
    simpl in Hq. rewrite (H _ _ Hin) in Hq. done.
Qed.

Lemma find_by_code_None code w :
  find_one (λ d, bool_decide (t_transaction_code d = code)) (transactions w) = None
  ↔ ¬ code_taken (transactions w) code.
Proof.
  rewrite find_one_None. unfold code_taken. split.
  - intros H (k & t & Hk & Hc). specialize (H k t Hk).
    by apply bool_decide_eq_false in H.
  - intros H k t Hk. apply bool_decide_eq_false. intros Hc. apply H. eauto.
Qed.

(** The loop of [create] only draws from the generator; what it returns
    is a code no stored transaction carries. *)
Lemma regenerate_spec fuel code w :
  code_format code = true →
  ∃ n,
    (Transaction.regenerate fuel code w).2 = draw n w
    ∧ match (Transaction.regenerate fuel code w).1 with
      | Ret c => code_format c = true ∧ ¬ code_taken (transactions w) c
      | Exc _ => False
      | Timeout => True
      end.
Proof.
  revert code w. induction fuel as [|fuel IH]; intros code w Hfmt; simpl;
    unfold bind, Transaction.find_by_code, get_transactions; simpl;
    destruct (find_one _ (transactions w)) as [t|] eqn:Hf; simpl.
  - exists 0. split; [symmetry; apply world_eta | done].
  - exists 0. split; [symmetry; apply world_eta|].
    split; [done | by apply find_by_code_None].
  - rewrite generate_eq.
    destruct (IH (code_at (rng w) (draws w)) (draw 6 w)) as (n & Hw & Hr);
      [apply code_at_format|].
    exists (n + 6). split.
    + rewrite Hw. unfold draw. simpl. f_equal. lia.
    + exact Hr.
  - exists 0. split; [symmetry; apply world_eta|].
    split; [done | by apply find_by_code_None].
Qed.

(** [create] either stores nothing or inserts one new document under a
    key that was free. *)
Lemma create_cases fuel product_id buyer_id seller_id product_data w :
  let r := Transaction.create fuel product_id buyer_id seller_id product_data w in
  products r.2 = products w
  ∧ ((transactions r.2 = transactions w ∧ ∀ v, r.1 ≠ Ret v)
     ∨ ∃ k doc stamp,
         transactions w !! k = None
         ∧ transactions r.2 = <[k := doc]> (transactions w)
         ∧ r.1 = Ret (str_oid k, t_transaction_code doc)
         ∧ code_format (t_transaction_code doc) = true
         ∧ ¬ code_taken (transactions w) (t_transaction_code doc)
         ∧ t_status doc = Transaction.PENDING
         ∧ t_timeline doc
           = [ {| ev_status := Transaction.PENDING; ev_timestamp := stamp;
                  ev_message := "Reserva creada"; ev_by_user_id := None |} ]
         ∧ t_completed_at doc = None
         ∧ t_seller_confirmed doc = false ∧ t_buyer_paid doc = false
         ∧ t_product_id doc = product_id
         ∧ t_buyer_id doc = buyer_id ∧ t_seller_id doc = seller_id).
Proof.
  unfold Transaction.create, bind. rewrite generate_eq.
  destruct (regenerate_spec fuel (code_at (rng w) (draws w)) (draw 6 w))
    as (n & Hw & Hr); [apply code_at_format|].
  destruct (Transaction.regenerate fuel _ (draw 6 w)) as [r1 w1].
  simpl in Hw, Hr. subst w1.
  destruct r1 as [c|e|]; simpl.
  - destruct Hr as [Hfmt Hfree].
    unfold Transaction.insert_one, bind. simpl.
    destruct (transactions w !! oids w (made w)) eqn:Hk; simpl.
    + split; [done|]. left. split; [done|]. intros v. discriminate.
    + split; [done|]. right. eexists _, _, _.
      split; [exact Hk|]. split; [reflexivity|]. split; [reflexivity|].
      simpl. repeat split; done.
  - done.
  - split; [done|]. left. split; [done|]. intros v. discriminate.
Qed.

Lemma candidate_0 w : candidate w 0 = code_at (rng w) (draws w).
Proof. unfold candidate. f_equal. lia. Qed.

Lemma candidate_draw w i : candidate (draw 6 w) i = candidate w (S i).
Proof. unfold candidate, draw. simpl rng. simpl draws. f_equal. lia. Qed.

Lemma regenerate_total (fuel : nat) : ∀ (j : nat) (code : string) (w : World),
  (j ≤ fuel)%nat →
  ¬ code_taken (transactions w)
      (match j with
       | O => code
       | S i => candidate w i
       end) →
  ∃ c n, Transaction.regenerate fuel code w = (Ret c, draw n w).
Proof.
  induction fuel as [|fuel IH]; intros j code w Hj Hfree; simpl;
    unfold bind, Transaction.find_by_code, get_transactions; simpl;
    destruct (find_one _ (transactions w)) as [t|] eqn:Hf; simpl.
  - destruct j; [|lia]. apply find_by_code_None in Hfree. congruence.
  - exists code, 0. unfold ret. by rewrite <- (world_eta w) at 1.
  - destruct j as [|j].
    + exfalso. apply find_by_code_None in Hfree. congruence.
    + rewrite generate_eq.
      destruct (IH j (code_at (rng w) (draws w)) (draw 6 w)) as (c & n & ->).
      * lia.
      * destruct j as [|i].
        -- by rewrite <- candidate_0.
        -- by rewrite candidate_draw.
      * exists c, (n + 6). unfold draw. simpl. do 2 f_equal. lia.
  - exists code, 0. unfold ret. by rewrite <- (world_eta w) at 1.
Qed.

Lemma create_total (fuel : nat) product_id buyer_id seller_id product_data w
    (j : nat) :
  (j ≤ fuel)%nat →
  ¬ code_taken (transactions w) (candidate w j) →
  transactions w !! oids w (made w) = None →
  ∃ code,
    (Transaction.create fuel product_id buyer_id seller_id product_data w).1
    = Ret (str_oid (oids w (made w)), code).
Proof.
  intros Hj Hfree Hk.
  unfold Transaction.create, bind. rewrite generate_eq.
  destruct (regenerate_total fuel j (code_at (rng w) (draws w)) (draw 6 w))
    as (c & n & ->); [done| |].
  - destruct j as [|i].
    + by rewrite <- candidate_0.
    + by rewrite candidate_draw.
  - simpl. unfold Transaction.insert_one, bind. simpl. rewrite Hk. simpl.
    eauto.
Qed.

Lemma codes_unique_insert ts k doc :
  ts !! k = None →
  ¬ code_taken ts (t_transaction_code doc) →
  codes_unique ts → codes_unique (<[k := doc]> ts).
Proof.
  intros Hk Hfree Hu k1 k2 t1 t2.
  destruct (decide (k = k1)) as [<-|H1]; destruct (decide (k = k2)) as [<-|H2];
    [done| | |].
  - rewrite lookup_insert_eq, lookup_insert_ne by done.
    intros [= <-] H Hc. exfalso. apply Hfree. exists k2, t2. auto.
  - rewrite lookup_insert_eq, lookup_insert_ne by done.
    intros H [= <-] Hc. exfalso. apply Hfree. exists k1, t1. auto.
  - rewrite !lookup_insert_ne by done. apply Hu.
Qed.

(** ** Every write of the ledger *)

(** What a call of the ledger does to the collection: nothing; or one
    stored document is replaced by itself with one entry appended to its
    timeline; or [create] inserts a new document under a free key. *)
Lemma ledger_exec_cases op w :
  ((ledger_exec op w).1 ≠ Ret true
   ∧ transactions (ledger_exec op w).2 = transactions w)
  ∨ (∃ transaction_id k t t' e,
       target op = Some transaction_id
       ∧ ObjectId transaction_id = inr k
       ∧ transactions w !! k = Some t
       ∧ (ledger_exec op w).1 = Ret true
       ∧ transactions (ledger_exec op w).2 = <[k := t']> (transactions w)
       ∧ t_timeline t' = (t_timeline t ++ [e])%list
       ∧ ev_status e = t_status t'
       ∧ t_transaction_code t' = t_transaction_code t
       ∧ t_completed_at t'
         = (if completes op then Some (utc w (2 + ticks w))
            else t_completed_at t)
       ∧ (t_status t' = Transaction.COMPLETED →
          completes op = true ∨ t_status t = Transaction.COMPLETED))
  ∨ (∃ k doc stamp,
       target op = None
       ∧ transactions w !! k = None
       ∧ transactions (ledger_exec op w).2 = <[k := doc]> (transactions w)
       ∧ ¬ code_taken (transactions w) (t_transaction_code doc)
       ∧ t_status doc = Transaction.PENDING
       ∧ t_timeline doc
         = [ {| ev_status := Transaction.PENDING; ev_timestamp := stamp;
                ev_message := "Reserva creada"; ev_by_user_id := None |} ]
       ∧ t_completed_at doc = None).
Proof.
  destruct op as [fuel pid b s pd|tid ns msg u|tid u pm|tid u|tid u note];
    simpl.
  - unfold bind.
    destruct (create_cases fuel pid b s pd w) as [_ H]. simpl in H.
    destruct (Transaction.create fuel pid b s pd w) as [r w'].
    simpl in H.
    destruct H as [[Ht Hr]|(k & doc & stamp & Hk & Ht & Hr & _ & Hfree & Hs & Htl & Hc & _)].
    + left. destruct r as [v| |]; simpl; [by destruct (Hr v)|done|done].
    + right. right. rewrite Hr. simpl. exists k, doc, stamp. done.
  - destruct (transaction_at w tid) as [t|] eqn:Hat.
    + destruct (decide (party u t)) as [Hp|Hp].
      * unfold transaction_at in Hat.
        destruct (ObjectId tid) as [e|k] eqn:Hid; [done|].
        right. left. rewrite (update_status_ok _ ns msg _ _ _ _ Hid Hat Hp).
        eexists tid, k, t, _, _. repeat split; try done; simpl.
        -- unfold completed_stamp. by destruct (decide _); case_bool_decide.
        -- intros ->. left. by apply bool_decide_eq_true.
      * left. rewrite update_status_rejected; [done|]. by rewrite Hat.
    + left. rewrite update_status_rejected; [done|]. by rewrite Hat.
  - destruct (transaction_at w tid) as [t|] eqn:Hat.
    + destruct (decide (t_seller_id t = u)) as [Hp|Hp].
      * unfold transaction_at in Hat.
        destruct (ObjectId tid) as [e|k] eqn:Hid; [done|].
        right. left. rewrite (seller_confirm_ok _ _ pm _ _ _ Hid Hat Hp).
        eexists tid, k, t, _, _. repeat split; try done; simpl; auto.
      * left. rewrite seller_confirm_rejected; [done|]. by rewrite Hat.
    + left. rewrite seller_confirm_rejected; [done|]. by rewrite Hat.
  - destruct (transaction_at w tid) as [t|] eqn:Hat.
    + destruct (decide (t_buyer_id t = u)) as [Hp|Hp].
      * unfold transaction_at in Hat.
        destruct (ObjectId tid) as [e|k] eqn:Hid; [done|].
        right. left. rewrite (buyer_confirm_payment_ok _ _ _ _ _ Hid Hat Hp).
        eexists tid, k, t, _, _. repeat split; try done; simpl; auto.
      * left. rewrite buyer_confirm_payment_rejected; [done|]. by rewrite Hat.
    + left. rewrite buyer_confirm_payment_rejected; [done|]. by rewrite Hat.
  - destruct (transaction_at w tid) as [t|] eqn:Hat.
    + destruct (decide (party u t)) as [Hp|Hp].
      * unfold transaction_at in Hat.
        destruct (ObjectId tid) as [e|k] eqn:Hid; [done|].
        right. left. rewrite (add_note_ok _ _ note _ _ _ Hid Hat Hp).
        eexists tid, k, t, _, _. repeat split; try done; simpl; auto.
      * left. rewrite add_note_rejected; [done|]. by rewrite Hat.
    + left. rewrite add_note_rejected; [done|]. by rewrite Hat.
Qed.

Lemma ledger_step_timeline op w k T :
  transactions w !! k = Some T →
  ∃ T' added,
    transactions (ledger_step w op) !! k = Some T'
    ∧ t_timeline T' = (t_timeline T ++ added)%list
    ∧ length added = applied k op w
    ∧ t_transaction_code T' = t_transaction_code T.
Proof.
  intros Hk. unfold ledger_step, applied.
  destruct (ledger_exec_cases op w)
    as [[Hr Ht]|[(tid & k0 & t & t' & e & Htg & Hid & Hk0 & Hr & Ht & Htl & _ & Hc & _)
                |(k0 & doc & stamp & Htg & Hk0 & Ht & _)]].
  - exists T, []. rewrite Ht, app_nil_r. repeat split; try done.
    destruct (target op); [|done].
    destruct (ledger_exec op w).1 as [[|]| |]; done.
  - rewrite Ht, Htg, Hr. destruct (decide (k0 = k)) as [->|Hne].
    + rewrite lookup_insert_eq. exists t', [e].
      assert (t = T) as -> by congruence.
      rewrite decide_True by done. done.
    + rewrite lookup_insert_ne by done. exists T, [].
      rewrite app_nil_r, decide_False by congruence. done.
  - rewrite Ht, Htg. exists T, [].
    rewrite lookup_insert_ne, app_nil_r by congruence. done.
Qed.

Lemma ledger_timeline ops : ∀ w k T,
  transactions w !! k = Some T →
  ∃ T' added,
    transactions (ledger ops w) !! k = Some T'
    ∧ t_timeline T' = (t_timeline T ++ added)%list
    ∧ length added = applications k ops w.
Proof.
  unfold ledger. induction ops as [|op ops IH]; intros w k T Hk; simpl.
  - exists T, []. by rewrite app_nil_r.
  - destruct (ledger_step_timeline op w k T Hk) as (T1 & a1 & H1 & Htl1 & Hl1 & _).
    destruct (IH _ _ _ H1) as (T2 & a2 & H2 & Htl2 & Hl2).
    exists T2, (a1 ++ a2)%list. split; [exact H2|]. split.
    + by rewrite Htl2, Htl1, app_assoc.
    + rewrite length_app. lia.
Qed.

Lemma codes_unique_replace ts k t t' :
  ts !! k = Some t →
  t_transaction_code t' = t_transaction_code t →
  codes_unique ts → codes_unique (<[k := t']> ts).
Proof.
  intros Hk Hc Hu.
  assert (Hold : ∀ k1 t1, <[k := t']> ts !! k1 = Some t1 →
            ∃ o1, ts !! k1 = Some o1
                  ∧ t_transaction_code o1 = t_transaction_code t1).
  { intros k1 t1. destruct (decide (k = k1)) as [<-|Hne].
    - rewrite lookup_insert_eq. intros [= <-]. eauto.
    - rewrite lookup_insert_ne by done. eauto. }
  intros k1 k2 t1 t2 H1 H2 Heq.
  destruct (Hold _ _ H1) as (o1 & Ho1 & Hc1).
  destruct (Hold _ _ H2) as (o2 & Ho2 & Hc2).
  apply (Hu k1 k2 o1 o2 Ho1 Ho2). congruence.
Qed.

Lemma ledger_step_codes_unique op w :
  codes_unique (transactions w) → codes_unique (transactions (ledger_step w op)).
Proof.
  intros Hu. unfold ledger_step.
  destruct (ledger_exec_cases op w)
    as [[Hr Ht]|[(tid & k0 & t & t' & e & Htg & Hid & Hk0 & Hr & Ht & Htl & _ & Hc & _)
                |(k0 & doc & stamp & Htg & Hk0 & Ht & Hfree & _)]].
  - by rewrite Ht.
  - rewrite Ht. by apply codes_unique_replace with t.
  - rewrite Ht. by apply codes_unique_insert.
Qed.

Lemma ledger_codes_unique ops : ∀ w,
  codes_unique (transactions w) → codes_unique (transactions (ledger ops w)).
Proof.
  unfold ledger. induction ops as [|op ops IH]; intros w Hu; simpl; [done|].
  apply IH. by apply ledger_step_codes_unique.
Qed.

Lemma applied_le_1 k op w : (applied k op w ≤ 1)%nat.
Proof.
  unfold applied. destruct (target op) as [tid|]; [|lia].
  destruct (ledger_exec op w).1 as [[|]| |]; try lia.
  destruct (decide (ObjectId tid = inr k)); lia.
Qed.

(** ** The completion stamp *)

Lemma ledger_step_completed_at op w k T :
  transactions w !! k = Some T →
  completes op = false →
  ∃ T', transactions (ledger_step w op) !! k = Some T'
        ∧ t_completed_at T' = t_completed_at T.
Proof.
  intros Hk Hc. unfold ledger_step.
  destruct (ledger_exec_cases op w)
    as [[Hr Ht]|[(tid & k0 & t & t' & e & Htg & Hid & Hk0 & Hr & Ht & _ & _ & _ & Hca & _)
                |(k0 & doc & stamp & Htg & Hk0 & Ht & _)]].
  - exists T. by rewrite Ht.
  - rewrite Ht. rewrite Hc in Hca. destruct (decide (k0 = k)) as [->|Hne].
    + rewrite lookup_insert_eq. exists t'. split; [done|]. congruence.
    + rewrite lookup_insert_ne by done. eauto.
  - rewrite Ht. exists T. by rewrite lookup_insert_ne by congruence.
Qed.

Lemma ledger_completed_at ops : ∀ w k T,
  transactions w !! k = Some T →
  Forall (λ op, completes op = false) ops →
  ∃ T', transactions (ledger ops w) !! k = Some T'
        ∧ t_completed_at T' = t_completed_at T.
Proof.
  unfold ledger. induction ops as [|op ops IH]; intros w k T Hk Hall; simpl.
  - eauto.
  - apply Forall_cons in Hall as [Hop Hall].
    destruct (ledger_step_completed_at op w k T Hk Hop) as (T1 & H1 & Hc1).
    destruct (IH _ _ _ H1 Hall) as (T2 & H2 & Hc2).
    exists T2. split; [done | congruence].
Qed.

Lemma ledger_step_completed_stamped op w :
  completed_stamped (transactions w) →
  completed_stamped (transactions (ledger_step w op)).
Proof.
  intros Hinv. unfold ledger_step.
  destruct (ledger_exec_cases op w)
    as [[Hr Ht]|[(tid & k0 & t & t' & e & Htg & Hid & Hk0 & Hr & Ht & _ & _ & _ & Hca & Hst)
                |(k0 & doc & stamp & Htg & Hk0 & Ht & _ & Hs & _)]].
  - by rewrite Ht.
  - rewrite Ht. intros k T. destruct (decide (k0 = k)) as [->|Hne].
    + rewrite lookup_insert_eq. intros [= <-] Hcomp. rewrite Hca.
      destruct (Hst Hcomp) as [-> | Hold]; [eauto|].
      destruct (completes op); [eauto|]. by apply (Hinv k t).
    + rewrite lookup_insert_ne by done. apply Hinv.
  - rewrite Ht. intros k T. destruct (decide (k0 = k)) as [->|Hne].
    + rewrite lookup_insert_eq. intros [= <-]. rewrite Hs. discriminate.
    + rewrite lookup_insert_ne by done. apply Hinv.
Qed.

Lemma ledger_completed_stamped ops : ∀ w,
  completed_stamped (transactions w) →
  completed_stamped (transactions (ledger ops w)).
Proof.
  unfold ledger. induction ops as [|op ops IH]; intros w Hinv; simpl; [done|].
  apply IH. by apply ledger_step_completed_stamped.
Qed.

(** ** AddNote *)

Lemma add_note_route_empty current_user_id role transaction_id data w :
  default "" (data !! "note") = "" →
  Routes.add_note current_user_id role transaction_id data w
  = (Ret (Routes.failure 400 "La nota no puede estar vacía"), w).
Proof.
  intros H. unfold Routes.add_note. rewrite handler_eq, H.
  by destruct (decide ("" = "")).
Qed.

(** The handler has one answer for every [False] of the model: the
    transaction is missing, or the caller is not a party. *)
Lemma add_note_route_refused current_user_id role transaction_id data w :
  default "" (data !! "note") ≠ "" →
  match transaction_at w transaction_id with
  | None => True
  | Some t => ¬ party current_user_id t
  end →
  Routes.add_note current_user_id role transaction_id data w
  = (Ret (Routes.failure 400 "No se pudo agregar la nota"), w).
Proof.
  intros Hn H. unfold Routes.add_note. rewrite handler_eq.
  destruct (decide (default "" (data !! "note") = "")); [done|].
  unfold bind. by rewrite add_note_rejected.
Qed.

Lemma add_note_route_ok current_user_id role transaction_id data w k t :
  default "" (data !! "note") ≠ "" →
  ObjectId transaction_id = inr k →
  transactions w !! k = Some t →
  party current_user_id t →
  Routes.add_note current_user_id role transaction_id data w
  = (Ret (Routes.ok 200 "Nota agregada exitosamente" None),
     with_transactions
       (<[k := Transaction.push_note (utc w (2 + ticks w))
                 (note_event t current_user_id (default "" (data !! "note")) w)
                 t]>
          (transactions w))
       (tick 3 w)).
Proof.
  intros Hn Hid Hk Hp. unfold Routes.add_note. rewrite handler_eq.
  destruct (decide (default "" (data !! "note") = "")); [done|].
  unfold bind. by rewrite (add_note_ok _ _ _ _ _ _ Hid Hk Hp).
Qed.

(** What AddNote does on a stored transaction: an empty note is refused
    with 400; a note from a party is appended to the timeline, status
    unchanged. *)
Lemma add_note_route_spec w current_user_id role transaction_id data k T :
  ObjectId transaction_id = inr k →
  transactions w !! k = Some T →
  let note := default "" (data !! "note") in
  let r := Routes.add_note current_user_id role transaction_id data w in
  (note = "" → r = (Ret (Routes.failure 400 "La nota no puede estar vacía"), w))
  ∧ (note ≠ "" → ¬ party current_user_id T →
     r = (Ret (Routes.failure 400 "No se pudo agregar la nota"), w))
  ∧ (note ≠ "" → party current_user_id T →
     ∃ resp T' e,
       r.1 = Ret resp ∧ Routes.http_status resp = 200
       ∧ transactions r.2 !! k = Some T'
       ∧ t_timeline T' = (t_timeline T ++ [e])%list
       ∧ ev_message e = "Nota agregada: " ++ note
       ∧ t_status T' = t_status T).
Proof.
  intros Hid Hk note r.
  assert (Hat : transaction_at w transaction_id = Some T)
    by (unfold transaction_at; by rewrite Hid).
  split; [|split].
  - intros H. by apply add_note_route_empty.
  - intros Hn Hp. apply add_note_route_refused; [done|]. by rewrite Hat.
  - intros Hn Hp. subst r.
    rewrite (add_note_route_ok _ role _ data _ _ _ Hn Hid Hk Hp). simpl.
    eexists _, _, _. split; [reflexivity|]. split; [reflexivity|].
    rewrite lookup_insert_eq. split; [reflexivity|]. done.
Qed.

(** ** Malformed ids *)

Lemma malformed_transaction_at w s e :
  ObjectId s = inl e → transaction_at w s = None.
Proof. intros H. unfold transaction_at. by rewrite H. Qed.

Lemma malformed_product_at w s e :
  ObjectId s = inl e → product_at w s = None.
Proof. intros H. unfold product_at. by rewrite H. Qed.

Lemma get_transaction_route_not_found users current_user_id role transaction_id w :
  transaction_at w transaction_id = None →
  Routes.get_transaction users current_user_id role transaction_id w
  = (Ret (Routes.failure 404 "Transacción no encontrada"), w).
Proof.
  intros H. unfold Routes.get_transaction. rewrite handler_eq.
  unfold bind. by rewrite Transaction_find_by_id_eq, H.
Qed.

(** A string [ObjectId] rejects: both [find_by_id] return [None] without
    raising, and every handler that calls [find_by_id] answers 404 and
    changes nothing. *)
Lemma malformed_id_not_found w s :
  ¬ well_formed_id s →
  Transaction.find_by_id s w = (Ret None, w)
  ∧ Product.find_by_id s w = (Ret None, w)
  ∧ (∀ users user role,
       Routes.get_transaction users user role s w
       = (Ret (Routes.failure 404 "Transacción no encontrada"), w))
  ∧ (∀ user role data,
       Routes.seller_confirm user role s data w
       = (Ret (Routes.failure 404 "Transacción no encontrada"), w))
  ∧ (∀ user role,
       Routes.buyer_confirm_payment user role s w
       = (Ret (Routes.failure 404 "Transacción no encontrada"), w))
  ∧ (∀ user role,
       Routes.complete_transaction user role s w
       = (Ret (Routes.failure 404 "Transacción no encontrada"), w))
  ∧ (∀ user role data,
       Routes.cancel_transaction user role s data w
       = (Ret (Routes.failure 404 "Transacción no encontrada"), w))
  ∧ (∀ users fuel user role data,
       data !! "product_id" = Some s → s ≠ "" →
       Routes.create_reservation users fuel user role data w
       = (Ret (Routes.failure 404 "Producto no encontrado"), w)).
Proof.
  intros Hwf.
  assert (∃ e, ObjectId s = inl e) as [e He].
  { destruct (ObjectId s) as [e|n] eqn:H; [eauto|].
    destruct Hwf. by exists n. }
  pose proof (malformed_transaction_at w s e He) as Ht.
  pose proof (malformed_product_at w s e He) as Hp.
  split; [by rewrite Transaction_find_by_id_eq, Ht|].
  split; [by rewrite Product_find_by_id_eq, Hp|].
  split; [intros; by apply get_transaction_route_not_found|].
  split; [intros; by apply seller_confirm_route_not_found|].
  split; [intros; by apply buyer_confirm_route_not_found|].
  split; [intros; by apply complete_route_not_found|].
  split; [intros; by apply cancel_route_not_found|].
  intros users fuel user role data Hd Hne.
  rewrite (reservation_route_rejected users fuel user role data w s Hd Hne);
    by rewrite Hp.
Qed.

(** ** The scenarios of the workflow, run on the sample world *)

(** [ana] lists the shirt, [bob] reserves it, [ana] confirms with cash,
    [bob] confirms the payment, [bob] completes: the transaction is
    completed and stamped, the product sold with stock 0. *)
Example scenario_sale :
  let users := λ u : string, Some ({[ "username" := u ]} : gmap string string) in
  let w0 := (Product.create Sample.listing "ana" (Sample.world ∅ ∅)).2 in
  let r1 := Routes.create_reservation users 3 "bob" "user"
              {[ "product_id" := Sample.product_id ]} w0 in
  let r2 := Routes.seller_confirm "ana" "user" Sample.transaction_id
              {[ "payment_method" := "cash" ]} r1.2 in
  let r3 := Routes.buyer_confirm_payment "bob" "user" Sample.transaction_id r2.2 in
  let r4 := Routes.complete_transaction "ana" "user" Sample.transaction_id r3.2 in
  (λ r : outcome Routes.Response,
     match r with Ret resp => Routes.http_status resp | _ => 0 end)
    <$> [r1.1; r2.1; r3.1; r4.1]
  = [201; 200; 200; 200]
  ∧ (p_estado <$> products r1.2 !! 1000%N) = Some "reservado"
  ∧ (t_status <$> transactions r1.2 !! 1001%N) = Some "pendiente"
  ∧ (t_status <$> transactions r2.2 !! 1001%N) = Some "confirmada"
  ∧ (t_status <$> transactions r3.2 !! 1001%N) = Some "pago_confirmado"
  ∧ (t_status <$> transactions r4.2 !! 1001%N) = Some "completada"
  ∧ (length ∘ t_timeline <$> transactions r4.2 !! 1001%N) = Some 4
  ∧ (t_completed_at <$> transactions r3.2 !! 1001%N) = Some None
  ∧ (p_estado <$> products r4.2 !! 1000%N) = Some "vendido"
  ∧ (p_stock <$> products r4.2 !! 1000%N) = Some 0%Z.
Proof. repeat split; vm_compute; reflexivity. Qed.

(** [bob] reserves the shirt and cancels: the transaction is cancelled and
    the product is available again with [reserved_by] cleared. *)
Example scenario_cancel :
  let users := λ u : string, Some ({[ "username" := u ]} : gmap string string) in
  let w0 := (Product.create Sample.listing "ana" (Sample.world ∅ ∅)).2 in
  let r1 := Routes.create_reservation users 3 "bob" "user"
              {[ "product_id" := Sample.product_id ]} w0 in
  let r2 := Routes.cancel_transaction "bob" "user" Sample.transaction_id
              {[ "reason" := "changed mind" ]} r1.2 in
  (t_status <$> transactions r2.2 !! 1001%N) = Some "cancelada"
  ∧ (p_estado <$> products r2.2 !! 1000%N) = Some "disponible"
  ∧ (p_reserved_by <$> products r2.2 !! 1000%N) = Some None
  ∧ (ev_message <$> (transactions r2.2 !! 1001%N ≫= last ∘ t_timeline))
    = Some "Transacción cancelada. Motivo: changed mind".
Proof. repeat split; vm_compute; reflexivity. Qed.

(** A user who is not the seller calls SellerConfirm: 403, nothing
    changes. *)
Example scenario_stranger_confirms :
  let w := Sample.reserved "pendiente" false false None in
  Routes.seller_confirm "mallory" "user" Sample.transaction_id
    {[ "payment_method" := "cash" ]} w
  = (Ret (Routes.failure 403 "No tienes permiso para confirmar esta venta"), w).
Proof. vm_compute. reflexivity. Qed.

(** ** Accepted and rejected calls of the ledger *)

(** A call that is not accepted on the transaction under [k] leaves that
    transaction as it is; an accepted one returns [True], sets the status
    of the call and appends one entry with that status. *)
Lemma ledger_step_accepted op w k T :
  transactions w !! k = Some T →
  ∃ T' added,
    transactions (ledger_step w op) !! k = Some T'
    ∧ t_timeline T' = (t_timeline T ++ added)%list
    ∧ length added = (if accepted k op w then 1 else 0)
    ∧ applied k op w = length added
    ∧ (accepted k op w = false → T' = T)
    ∧ (accepted k op w = true →
       (ledger_exec op w).1 = Ret true
       ∧ t_status T' = status_set op T
       ∧ Forall (λ e, ev_status e = t_status T') added).
Proof.
  intros Hk.
  destruct (accepted k op w) eqn:Hacc.
  - (* accepted *)
    unfold accepted in Hacc. rewrite Hk in Hacc.
    destruct (target op) as [tid|] eqn:Htg; [|done].
    apply andb_true_iff in Hacc as [Hid Had].
    apply bool_decide_eq_true in Hid.
    unfold ledger_step, applied. rewrite Htg.
    destruct op as [fuel pid b s pd|tid' ns msg u|tid' u pm|tid' u|tid' u note];
      simpl in Htg, Had; [done| | | |]; injection Htg as ->;
      apply bool_decide_eq_true in Had; simpl ledger_exec.
    + rewrite (update_status_ok _ ns msg _ _ _ _ Hid Hk Had). simpl.
      rewrite lookup_insert_eq, decide_True by done.
      eexists _, [_]. split; [reflexivity|]. simpl.
      repeat split; try done. by repeat constructor.
    + rewrite (seller_confirm_ok _ _ pm _ _ _ Hid Hk Had). simpl.
      rewrite lookup_insert_eq, decide_True by done.
      eexists _, [_]. split; [reflexivity|]. simpl.
      repeat split; try done. by repeat constructor.
    + rewrite (buyer_confirm_payment_ok _ _ _ _ _ Hid Hk Had). simpl.
      rewrite lookup_insert_eq, decide_True by done.
      eexists _, [_]. split; [reflexivity|]. simpl.
      repeat split; try done. by repeat constructor.
    + rewrite (add_note_ok _ _ note _ _ _ Hid Hk Had). simpl.
      rewrite lookup_insert_eq, decide_True by done.
      eexists _, [_]. split; [reflexivity|]. simpl.
      repeat split; try done. by repeat constructor.
  - (* not accepted *)
    exists T, []. rewrite app_nil_r.
    assert (Hsame : transactions (ledger_step w op) !! k = Some T
                    ∧ applied k op w = 0).
    { unfold ledger_step, applied.
      destruct (ledger_exec_cases op w)
        as [[Hr Ht]|[(tid & k0 & t & t' & e & Htg & Hid & Hk0 & Hr & Ht & _)
                    |(k0 & doc & stamp & Htg & Hk0 & Ht & _)]].
      - rewrite Ht. split; [done|].
        destruct (target op); [|done].
        destruct (ledger_exec op w).1 as [[|]| |]; done.
      - rewrite Ht, Htg, Hr.
        destruct (decide (k0 = k)) as [->|Hne].
        + exfalso. unfold accepted in Hacc. rewrite Htg, Hk in Hacc.
          rewrite bool_decide_eq_true_2 in Hacc by done. simpl in Hacc.
          assert (t = T) as -> by congruence.
          destruct op as [fuel pid b s pd|tid' ns msg u|tid' u pm|tid' u
                         |tid' u note];
            simpl in Htg, Hacc, Hr; [done| | | |]; injection Htg as ->;
            apply bool_decide_eq_false in Hacc.
          * rewrite update_status_rejected in Hr; [done|].
            unfold transaction_at. by rewrite Hid, Hk.
          * rewrite seller_confirm_rejected in Hr; [done|].
            unfold transaction_at. by rewrite Hid, Hk.
          * rewrite buyer_confirm_payment_rejected in Hr; [done|].
            unfold transaction_at. by rewrite Hid, Hk.
          * rewrite add_note_rejected in Hr; [done|].
            unfold transaction_at. by rewrite Hid, Hk.
        + rewrite lookup_insert_ne by done. split; [done|].
          rewrite decide_False by congruence. done.
      - rewrite Ht, Htg. rewrite lookup_insert_ne by congruence. done. }
    destruct Hsame as [H1 H2]. repeat split; try done.
Qed.

Lemma ledger_run_accepted ops : ∀ w k T,
  transactions w !! k = Some T →
  ∃ T' added,
    transactions (ledger ops w) !! k = Some T'
    ∧ t_timeline T' = (t_timeline T ++ added)%list
    ∧ length added = acceptances k ops w
    ∧ applications k ops w = acceptances k ops w.
Proof.
  unfold ledger. induction ops as [|op ops IH]; intros w k T Hk; simpl.
  - exists T, []. by rewrite app_nil_r.
  - destruct (ledger_step_accepted op w k T Hk)
      as (T1 & a1 & H1 & Htl1 & Hl1 & Hap1 & _).
    destruct (IH _ _ _ H1) as (T2 & a2 & H2 & Htl2 & Hl2 & Hap2).
    exists T2, (a1 ++ a2)%list. split; [exact H2|]. split.
    + by rewrite Htl2, Htl1, app_assoc.
    + rewrite length_app. split; lia.
Qed.

(** [create] returns, and stores the new transaction with the system entry
    as its timeline, whenever a candidate code within the fuel is free and
    the driver's id is new. *)
Lemma create_total_entry (fuel : nat) product_id buyer_id seller_id
    product_data w (j : nat) :
  (j ≤ fuel)%nat →
  ¬ code_taken (transactions w) (candidate w j) →
  transactions w !! oids w (made w) = None →
  ∃ doc stamp,
    let r := Transaction.create fuel product_id buyer_id seller_id
               product_data w in
    transactions r.2 = <[oids w (made w) := doc]> (transactions w)
    ∧ r.1 = Ret (str_oid (oids w (made w)), t_transaction_code doc)
    ∧ t_status doc = Transaction.PENDING
    ∧ t_timeline doc
      = [ {| ev_status := Transaction.PENDING; ev_timestamp := stamp;
             ev_message := "Reserva creada"; ev_by_user_id := None |} ].
Proof.
  intros Hj Hfree Hk.
  unfold Transaction.create, bind. rewrite generate_eq.
  destruct (regenerate_total fuel j (code_at (rng w) (draws w)) (draw 6 w))
    as (c & n & ->); [done| |].
  - destruct j as [|i].
    + by rewrite <- candidate_0.
    + by rewrite candidate_draw.
  - simpl. unfold Transaction.insert_one, bind. simpl. rewrite Hk. simpl.
    eexists _, _. split; [reflexivity|]. simpl. repeat split; reflexivity.
Qed.

(** * The claims *)

(** ** C1: Complete *)

(** C1 (as amended).  Let [T] be a stored transaction.  A caller who is
    neither its buyer nor its seller gets 403 (Forbidden) from Complete,
    whatever the confirmation flags.  For a caller who is the buyer or the
    seller, Complete fails with 400 (InvalidState) unless both
    [seller_confirmed] and [buyer_paid] are true, and both failures leave
    the whole world unchanged.  When both flags are true and the caller is
    a party, Complete sets [T.status] to completed and stamps
    [completed_at]; when the linked product exists the answer is 200 and
    the product ends with status sold and stock 0. *)
Theorem complete_transaction_spec w current_user_id role transaction_id k T :
  ObjectId transaction_id = inr k →
  transactions w !! k = Some T →
  let r := Routes.complete_transaction current_user_id role transaction_id w in
  (¬ party current_user_id T →
     r = (Ret (Routes.failure 403
                 "No tienes permiso para completar esta transacción"), w))
  ∧ (party current_user_id T →
     t_seller_confirmed T = false ∨ t_buyer_paid T = false →
     r = (Ret (Routes.failure 400
                 "Ambas partes deben confirmar antes de completar"), w))
  ∧ (party current_user_id T →
     t_seller_confirmed T = true → t_buyer_paid T = true →
     (∃ T', transactions r.2 !! k = Some T'
            ∧ t_status T' = Transaction.COMPLETED
            ∧ t_completed_at T' = Some (utc w (2 + ticks w)))
     ∧ ∀ pk P,
         ObjectId (t_product_id T) = inr pk →
         products w !! pk = Some P →
         (∃ resp, r.1 = Ret resp ∧ Routes.http_status resp = 200
                  ∧ Routes.success resp = true)
         ∧ ∃ P', products r.2 !! pk = Some P'
                 ∧ p_estado P' = Product.SOLD ∧ p_stock P' = 0%Z).
Proof.
  intros Hid Hk r.
  assert (Hat : transaction_at w transaction_id = Some T)
    by (unfold transaction_at; by rewrite Hid).
  split; [|split].
  - intros Hp. by apply complete_route_forbidden with T.
  - intros Hp Hf. by apply complete_route_unconfirmed with T.
  - intros Hp Hs Hb. subst r.
    rewrite (complete_route_completed _ role _ _ _ _ Hid Hk Hp Hs Hb).
    split.
    + destruct (ObjectId (t_product_id T)) as [e|pk]; simpl;
        rewrite lookup_insert_eq; eauto.
    + intros pk P Hpid HP. rewrite Hpid. simpl. split; [eauto|].
      eexists. split; [by apply settle_lookup|]. done.
Qed.

Lemma complete_transaction_spec_witness :
  let w := Sample.reserved "pago_confirmado" true true None in
  let r := Routes.complete_transaction "bob" "user" Sample.transaction_id w in
  (∃ T', transactions r.2 !! 1001%N = Some T'
         ∧ t_status T' = Transaction.COMPLETED
         ∧ t_completed_at T' = Some 102%Z)
  ∧ ∃ P', products r.2 !! 1000%N = Some P'
          ∧ p_estado P' = Product.SOLD ∧ p_stock P' = 0%Z.
Proof.
  intros w r.
  destruct (complete_transaction_spec w "bob" "user" Sample.transaction_id
              1001%N (Sample.reserva "pago_confirmado" true true None)
              eq_refl eq_refl) as (_ & _ & H).
  destruct H as [HT HP].
  - decide_by_eval.
  - reflexivity.
  - reflexivity.
  - split; [exact HT|].
    exact (proj2 (HP 1000%N
                    (Sample.remera "reservado" (Some "bob")
                       (Some Sample.transaction_id)) eq_refl eq_refl)).
Defined.

(** C1 as stated fails: with neither confirmation given, a caller who is
    not a party is answered 403, not 400. *)
Lemma complete_transaction_stranger_403 :
  let w := Sample.reserved "pendiente" false false None in
  transactions w !! 1001%N = Some (Sample.reserva "pendiente" false false None)
  ∧ ∃ resp,
      Routes.complete_transaction "mallory" "user" Sample.transaction_id w
      = (Ret resp, w)
      ∧ Routes.http_status resp = 403
      ∧ Routes.http_status resp ≠ 400.
Proof.
  split; [reflexivity|].
  eexists. split; [vm_compute; reflexivity|]. split; [reflexivity|].
  simpl. lia.
Qed.

(** ** C2: Cancel *)

(** C2.  For every stored transaction [T] whose status is not terminal
    (neither completed nor cancelled) and every caller who is its buyer or
    its seller, Cancel sets [T.status] to cancelled; when the linked
    product exists the answer is 200 and the product is back to status
    available with [reserved_by] and [transaction_id] both [None]. *)
Theorem cancel_transaction_spec w current_user_id role transaction_id data k T :
  ObjectId transaction_id = inr k →
  transactions w !! k = Some T →
  t_status T ∉ [Transaction.COMPLETED; Transaction.CANCELLED] →
  party current_user_id T →
  let r := Routes.cancel_transaction current_user_id role transaction_id data w in
  (∃ T', transactions r.2 !! k = Some T'
         ∧ t_status T' = Transaction.CANCELLED)
  ∧ ∀ pk P,
      ObjectId (t_product_id T) = inr pk →
      products w !! pk = Some P →
      (∃ resp, r.1 = Ret resp ∧ Routes.http_status resp = 200
               ∧ Routes.success resp = true)
      ∧ ∃ P', products r.2 !! pk = Some P'
              ∧ p_estado P' = Product.AVAILABLE
              ∧ p_reserved_by P' = None
              ∧ p_transaction_id P' = None.
Proof.
  intros Hid Hk _ Hp r. subst r.
  destruct (cancel_route_cancelled _ role _ data _ _ _ Hid Hk Hp) as [msg ->].
  split.
  - destruct (ObjectId (t_product_id T)) as [e|pk]; simpl;
      rewrite lookup_insert_eq; eauto.
  - intros pk P Hpid HP. rewrite Hpid. simpl. split; [eauto|].
    eexists. split; [by apply settle_lookup|]. done.
Qed.

Lemma cancel_transaction_spec_witness :
  let w := Sample.reserved "pendiente" false false None in
  let r := Routes.cancel_transaction "bob" "user" Sample.transaction_id
             {[ "reason" := "changed mind" ]} w in
  (∃ T', transactions r.2 !! 1001%N = Some T'
         ∧ t_status T' = Transaction.CANCELLED)
  ∧ ∃ P', products r.2 !! 1000%N = Some P'
          ∧ p_estado P' = Product.AVAILABLE
          ∧ p_reserved_by P' = None
          ∧ p_transaction_id P' = None.
Proof.
  intros w r.
  destruct (cancel_transaction_spec w "bob" "user" Sample.transaction_id
              {[ "reason" := "changed mind" ]} 1001%N
              (Sample.reserva "pendiente" false false None)
              eq_refl eq_refl) as [HT HP].
  - decide_by_eval.
  - decide_by_eval.
  - split; [exact HT|].
    exact (proj2 (HP 1000%N
                    (Sample.remera "reservado" (Some "bob")
                       (Some Sample.transaction_id)) eq_refl eq_refl)).
Defined.

(** ** C5: a reservation that cannot be made *)

(** C5.  When the product is absent, or its status is not available, or
    the buyer is its owner, [Product.reserve] returns [False] and the
    world, hence every field of the product, is unchanged; the
    reservation route answers such a request with a failure (400 for an
    unavailable product and for a self-purchase, 404 for an absent one)
    and changes nothing either. *)
Theorem reserve_unavailable_no_mutation w product_id buyer_id transaction_id :
  match product_at w product_id with
  | None => True
  | Some P => p_estado P ≠ Product.AVAILABLE ∨ p_user_id P = buyer_id
  end →
  Product.reserve product_id buyer_id transaction_id w = (Ret false, w)
  ∧ ∀ users fuel role data,
      data !! "product_id" = Some product_id →
      product_id ≠ "" →
      ∃ resp,
        Routes.create_reservation users fuel buyer_id role data w = (Ret resp, w)
        ∧ Routes.success resp = false
        ∧ Routes.http_status resp
          = match product_at w product_id with
            | None => 404
            | Some _ => 400
            end.
Proof.
  intros H. split; [by apply reserve_rejected|].
  intros users fuel role data Hd Hne.
  eexists. split; [by apply reservation_route_rejected|].
  destruct (product_at w product_id) as [p|]; [|done].
  by destruct (decide (p_estado p ≠ Product.AVAILABLE)).
Qed.

Lemma reserve_unavailable_no_mutation_witness :
  let w := Sample.reserved "pendiente" false false None in
  Product.reserve Sample.product_id "carol" "0000000000000000000003ea" w
  = (Ret false, w).
Proof.
  intros w.
  refine (proj1 (reserve_unavailable_no_mutation w Sample.product_id "carol"
                   "0000000000000000000003ea" _)).
  vm_compute. left. discriminate.
Defined.

(** ** C3: status and reservation fields of a product *)




(** ** C4: terminal states *)




(** ** C6: the timeline is append-only *)

(** C6.  Let [T] be the transaction stored under [k].

    - [update_status] on [T], called by its buyer or its seller, returns
      [True], sets the status to the new one and appends the one entry
      [status_event] to the timeline; [seller_confirm] by the seller of [T]
      and [buyer_confirm_payment] by its buyer do the same with the statuses
      CONFIRMED and PAYMENT_CONFIRMED and the entries [confirm_event] and
      [payment_event].
    - Any call of the ledger ([add_note] and a [create] of another
      transaction included) leaves the entries of [T]'s timeline in place.
      It appends exactly one entry, carrying the status the call leaves on
      [T], when it is accepted: the id is one of [T] and the caller is one
      the method allows.  Otherwise it leaves [T] as it was.  The call
      returns [True] on [T] exactly when it is accepted.
    - After any sequence of calls the old timeline is a prefix of the new
      one and the length has grown by the number of accepted calls on [T].
    - [create] returns whenever a candidate code within the fuel is free
      and the driver's id is new, and then stores the new transaction under
      that id with status PENDING and a timeline of exactly the system
      entry, leaving [T] as it was; every [create] that returns has done
      so. *)
Theorem timeline_append_only w k T :
  transactions w !! k = Some T →
  (∀ transaction_id new_status message user_id,
     ObjectId transaction_id = inr k →
     party user_id T →
     let r := Transaction.update_status transaction_id new_status message
                user_id w in
     r.1 = Ret true
     ∧ ∃ T', transactions r.2 !! k = Some T'
         ∧ t_status T' = new_status
         ∧ t_timeline T'
           = (t_timeline T ++ [status_event new_status message user_id w])%list)
  ∧ (∀ transaction_id payment_method,
     ObjectId transaction_id = inr k →
     let r := Transaction.seller_confirm transaction_id (t_seller_id T)
                payment_method w in
     r.1 = Ret true
     ∧ ∃ T', transactions r.2 !! k = Some T'
         ∧ t_status T' = Transaction.CONFIRMED
         ∧ t_timeline T'
           = (t_timeline T ++ [confirm_event (t_seller_id T) w])%list)
  ∧ (∀ transaction_id,
     ObjectId transaction_id = inr k →
     let r := Transaction.buyer_confirm_payment transaction_id (t_buyer_id T)
                w in
     r.1 = Ret true
     ∧ ∃ T', transactions r.2 !! k = Some T'
         ∧ t_status T' = Transaction.PAYMENT_CONFIRMED
         ∧ t_timeline T'
           = (t_timeline T ++ [payment_event (t_buyer_id T) w])%list)
  ∧ (∀ op, ∃ T' added,
     transactions (ledger_step w op) !! k = Some T'
     ∧ t_timeline T' = (t_timeline T ++ added)%list
     ∧ length added = (if accepted k op w then 1 else 0)
     ∧ applied k op w = length added
     ∧ (accepted k op w = false → T' = T)
     ∧ (accepted k op w = true →
        (ledger_exec op w).1 = Ret true
        ∧ t_status T' = status_set op T
        ∧ Forall (λ e, ev_status e = t_status T') added))
  ∧ (∀ ops, ∃ T' added,
     transactions (ledger ops w) !! k = Some T'
     ∧ t_timeline T' = (t_timeline T ++ added)%list
     ∧ length added = acceptances k ops w
     ∧ applications k ops w = acceptances k ops w)
  ∧ (∀ fuel product_id buyer_id seller_id product_data,
     let r := Transaction.create fuel product_id buyer_id seller_id
                product_data w in
     (∀ j : nat,
        (j ≤ fuel)%nat →
        ¬ code_taken (transactions w) (candidate w j) →
        transactions w !! oids w (made w) = None →
        ∃ doc stamp,
          r.1 = Ret (str_oid (oids w (made w)), t_transaction_code doc)
          ∧ transactions r.2 !! oids w (made w) = Some doc
          ∧ t_status doc = Transaction.PENDING
          ∧ t_timeline doc
            = [ {| ev_status := Transaction.PENDING; ev_timestamp := stamp;
                   ev_message := "Reserva creada"; ev_by_user_id := None |} ]
          ∧ transactions r.2 !! k = Some T)
     ∧ (∀ transaction_id code,
        r.1 = Ret (transaction_id, code) →
        transactions r.2 !! k = Some T
        ∧ ∃ k' doc stamp,
            transactions w !! k' = None
            ∧ transactions r.2 !! k' = Some doc
            ∧ t_status doc = Transaction.PENDING
            ∧ t_timeline doc
              = [ {| ev_status := Transaction.PENDING; ev_timestamp := stamp;
                     ev_message := "Reserva creada";
                     ev_by_user_id := None |} ])).
Proof.
  intros Hk. split; [|split; [|split; [|split; [|split]]]].
  - intros tid ns msg u Hid Hp r. subst r.
    rewrite (update_status_ok _ ns msg _ _ _ _ Hid Hk Hp). simpl.
    split; [done|]. eexists. rewrite lookup_insert_eq. done.
  - intros tid pm Hid r. subst r.
    rewrite (seller_confirm_ok _ _ pm _ _ _ Hid Hk eq_refl). simpl.
    split; [done|]. eexists. rewrite lookup_insert_eq. done.
  - intros tid Hid r. subst r.
    rewrite (buyer_confirm_payment_ok _ _ _ _ _ Hid Hk eq_refl). simpl.
    split; [done|]. eexists. rewrite lookup_insert_eq. done.
  - intros op. by apply ledger_step_accepted.
  - intros ops. by apply ledger_run_accepted.
  - intros fuel product_id buyer_id seller_id product_data r. subst r.
    split.
    { intros j Hj Hfree Hnew.
    destruct (create_total_entry fuel product_id buyer_id seller_id
                product_data w j Hj Hfree Hnew)
      as (doc & stamp & Ht & Hr & Hs & Htl).
    exists doc, stamp. simpl in Ht, Hr. rewrite Ht.
    split; [exact Hr|]. rewrite lookup_insert_eq.
    split; [done|]. split; [done|]. split; [done|].
    rewrite lookup_insert_ne by congruence. exact Hk. }
    intros tid code Hr.
    destruct (create_cases fuel product_id buyer_id seller_id product_data w)
      as [_ H]. simpl in H.
    destruct H as [[_ Hn]|(k' & doc & stamp & Hk' & Ht & _ & _ & _ & Hs & Htl & _)].
    + by destruct (Hn _ Hr).
    + rewrite Ht. split.
      * rewrite lookup_insert_ne by congruence. exact Hk.
      * exists k', doc, stamp. rewrite lookup_insert_eq. done.
Qed.

Lemma timeline_append_only_witness :
  let w := Sample.reserved "pendiente" false false None in
  let T := Sample.reserva "pendiente" false false None in
  let ops := [SellerConfirm Sample.transaction_id "ana" "cash";
              UpdateStatus Sample.transaction_id "completada"
                "Transacción completada exitosamente" "mallory";
              BuyerConfirmPayment Sample.transaction_id "bob";
              UpdateStatus Sample.transaction_id "completada"
                "Transacción completada exitosamente" "bob"] in
  acceptances 1001%N ops w = 3
  ∧ (∃ T' added,
       transactions (ledger ops w) !! 1001%N = Some T'
       ∧ t_timeline T' = (t_timeline T ++ added)%list
       ∧ length added = acceptances 1001%N ops w
       ∧ applications 1001%N ops w = acceptances 1001%N ops w)
  ∧ (∃ doc stamp,
       (Transaction.create 0 Sample.product_id "carol" "ana"
          (Sample.remera "disponible" None None) w).1
       = Ret (str_oid (oids w (made w)), t_transaction_code doc)
       ∧ transactions
           (Transaction.create 0 Sample.product_id "carol" "ana"
              (Sample.remera "disponible" None None) w).2
         !! oids w (made w) = Some doc
       ∧ t_status doc = Transaction.PENDING
       ∧ t_timeline doc
         = [ {| ev_status := Transaction.PENDING; ev_timestamp := stamp;
                ev_message := "Reserva creada"; ev_by_user_id := None |} ]
       ∧ transactions
           (Transaction.create 0 Sample.product_id "carol" "ana"
              (Sample.remera "disponible" None None) w).2
         !! 1001%N = Some T).
Proof.
  intros w T ops.
  assert (H : transactions w !! 1001%N = Some T) by reflexivity.
  split; [vm_compute; reflexivity|]. split.
  - exact (proj1 (proj2 (proj2 (proj2 (proj2
             (timeline_append_only w 1001%N T H))))) ops).
  - refine (proj1 (proj2 (proj2 (proj2 (proj2 (proj2
              (timeline_append_only w 1001%N T H)))))
              0 Sample.product_id "carol" "ana"
              (Sample.remera "disponible" None None)) 0 _ _ _).
    + lia.
    + intros (k0 & t & Hk0 & Hc).
      change (transactions w) with ({[ 1001%N := T ]} : gmap N TransactionDoc)
        in Hk0.
      apply lookup_singleton_Some in Hk0 as [<- <-].
      vm_compute in Hc. discriminate.
    + reflexivity.
Defined.

(** ** C8: transaction codes *)

(** C8.  Every code [_generate_transaction_code] builds is the prefix
    [TRD-] followed by exactly 6 alphanumeric characters.  When [create]
    returns, its code has that format and differs from the code of every
    transaction stored before, the new document is inserted under a key
    that was free, and if the stored codes were pairwise distinct they
    still are; hence the codes are pairwise distinct in every collection
    the ledger reaches from the empty one.  The retry loop ends: if the
    generator yields a free code within [fuel] regenerations (and the
    driver's id is new), [create] returns. *)
Theorem create_code_format_unique fuel product_id buyer_id seller_id
    product_data w :
  let r := Transaction.create fuel product_id buyer_id seller_id product_data w in
  (∀ w0, ∃ c, (Transaction._generate_transaction_code w0).1 = Ret c
              ∧ code_format c = true)
  ∧ (∀ transaction_id code,
       r.1 = Ret (transaction_id, code) →
       code_format code = true
       ∧ ¬ code_taken (transactions w) code
       ∧ (∃ k doc, transactions w !! k = None
                   ∧ transactions r.2 = <[k := doc]> (transactions w)
                   ∧ t_transaction_code doc = code)
       ∧ (codes_unique (transactions w) → codes_unique (transactions r.2)))
  ∧ (∀ ops w0, transactions w0 = ∅ → codes_unique (transactions (ledger ops w0)))
  ∧ (∀ j : nat,
       (j ≤ fuel)%nat →
       ¬ code_taken (transactions w) (candidate w j) →
       transactions w !! oids w (made w) = None →
       ∃ code, r.1 = Ret (str_oid (oids w (made w)), code)).
Proof.
  intros r. split; [|split; [|split]].
  - intros w0. rewrite generate_eq. eexists. split; [reflexivity|].
    apply code_at_format.
  - intros tid code Hr. subst r.
    destruct (create_cases fuel product_id buyer_id seller_id product_data w)
      as [_ H]. simpl in H.
    destruct H as [[_ Hn]|(k & doc & stamp & Hk & Ht & Hr' & Hfmt & Hfree & _)].
    + by destruct (Hn _ Hr).
    + rewrite Hr' in Hr. injection Hr as _ <-.
      split; [done|]. split; [done|]. split; [eauto|].
      intros Hu. rewrite Ht. by apply codes_unique_insert.
  - intros ops w0 He. apply ledger_codes_unique.
    intros k1 k2 t1 t2. rewrite He, lookup_empty. discriminate.
  - intros j Hj Hfree Hk. by apply create_total with j.
Qed.

Lemma create_code_format_unique_witness :
  let w := Sample.world ∅
             {[ 1001%N := Sample.reserva "pendiente" false false None;
                1002%N := Sample.second_reserva ]} in
  let r := Transaction.create 3 Sample.product_id "carol" "ana"
             (Sample.remera "disponible" None None) w in
  r.1 = Ret ("0000000000000000000003e8", "TRD-GNU18F")
  ∧ code_format "TRD-GNU18F" = true
  ∧ ¬ code_taken (transactions w) "TRD-GNU18F".
Proof.
  intros w r.
  assert (Hr : r.1 = Ret ("0000000000000000000003e8", "TRD-GNU18F"))
    by (vm_compute; reflexivity).
  split; [exact Hr|].
  destruct (proj1 (proj2 (create_code_format_unique 3 Sample.product_id "carol"
                            "ana" (Sample.remera "disponible" None None) w))
              _ _ Hr) as (Hfmt & Hfree & _).
  split; [exact Hfmt | exact Hfree].
Defined.

(** ** C7: the completion stamp *)

(** C7 (as amended).  [completed_at] is absent in a transaction [create]
    has just stored, and no call other than a transition to completed
    changes it ([seller_confirm], [buyer_confirm_payment], cancellation and
    [add_note] keep it, over any sequence of such calls); so it is absent
    before the first completion, and a transaction with status completed
    always carries it.  Every successful transition to completed stamps
    it with the time of that call, also when the transaction was
    completed before: a repeated Complete overwrites the stamp. *)
Theorem completed_at_spec w k T :
  transactions w !! k = Some T →
  (∀ ops, Forall (λ op, completes op = false) ops →
     ∃ T', transactions (ledger ops w) !! k = Some T'
           ∧ t_completed_at T' = t_completed_at T)
  ∧ (∀ transaction_id message user_id,
       ObjectId transaction_id = inr k → party user_id T →
       ∃ T', transactions
               (Transaction.update_status transaction_id Transaction.COMPLETED
                  message user_id w).2 !! k = Some T'
             ∧ t_status T' = Transaction.COMPLETED
             ∧ t_completed_at T' = Some (utc w (2 + ticks w)))
  ∧ (∀ fuel product_id buyer_id seller_id product_data transaction_id code,
       let r := Transaction.create fuel product_id buyer_id seller_id
                  product_data w in
       r.1 = Ret (transaction_id, code) →
       ∃ k' doc, transactions w !! k' = None
                 ∧ transactions r.2 !! k' = Some doc
                 ∧ t_completed_at doc = None)
  ∧ (∀ ops w0, transactions w0 = ∅ →
       ∀ k' T', transactions (ledger ops w0) !! k' = Some T' →
         t_status T' = Transaction.COMPLETED → is_Some (t_completed_at T')).
Proof.
  intros Hk. split; [|split; [|split]].
  - intros ops Hall. by apply ledger_completed_at.
  - intros tid msg u Hid Hp.
    rewrite (update_status_ok _ _ msg _ _ _ _ Hid Hk Hp). simpl.
    rewrite lookup_insert_eq. eexists. split; [reflexivity|]. done.
  - intros fuel pid b s pd tid code r Hr. subst r.
    destruct (create_cases fuel pid b s pd w) as [_ H]. simpl in H.
    destruct H as [[_ Hn]|(k' & doc & stamp & Hk' & Ht & _ & _ & _ & _ & _ & Hc & _)].
    + by destruct (Hn _ Hr).
    + exists k', doc. rewrite Ht, lookup_insert_eq. done.
  - intros ops w0 He. apply ledger_completed_stamped.
    intros k0 T0. rewrite He, lookup_empty. discriminate.
Qed.

Lemma completed_at_spec_witness :
  let w := Sample.reserved "pago_confirmado" true true None in
  ∃ T', transactions
          (Transaction.update_status Sample.transaction_id Transaction.COMPLETED
             "Transacción completada exitosamente" "bob" w).2 !! 1001%N
        = Some T'
        ∧ t_status T' = Transaction.COMPLETED
        ∧ t_completed_at T' = Some 102%Z.
Proof.
  intros w.
  refine (proj1 (proj2 (completed_at_spec w 1001%N
                          (Sample.reserva "pago_confirmado" true true None) _))
            Sample.transaction_id "Transacción completada exitosamente" "bob"
            _ _).
  - reflexivity.
  - reflexivity.
  - decide_by_eval.
Defined.

(** C7 as stated fails: a second Complete replaces the stamp the first
    one wrote. *)
Lemma completed_at_overwritten :
  let w := Sample.reserved "pago_confirmado" true true None in
  let w1 := (Routes.complete_transaction "bob" "user" Sample.transaction_id w).2 in
  let w2 := (Routes.complete_transaction "ana" "user" Sample.transaction_id w1).2 in
  ∃ T1 T2,
    transactions w1 !! 1001%N = Some T1
    ∧ t_status T1 = Transaction.COMPLETED
    ∧ t_completed_at T1 = Some 102%Z
    ∧ transactions w2 !! 1001%N = Some T2
    ∧ t_completed_at T2 = Some 106%Z
    ∧ t_completed_at T2 ≠ t_completed_at T1.
Proof.
  eexists _, _. split; [vm_compute; reflexivity|].
  split; [reflexivity|]. split; [reflexivity|].
  split; [vm_compute; reflexivity|]. split; [reflexivity|]. discriminate.
Qed.

(** ** C9: AddNote *)

(** C9 at the input where the handler departs from it: on a stored
    transaction, a non-empty note from a caller who is neither the buyer
    nor the seller is answered 400 ("No se pudo agregar la nota") and not
    403; nothing is written.  (An empty note is answered 400 and a note
    from a party is appended with the status unchanged, see
    [add_note_route_spec].) *)
Theorem add_note_stranger_400 :
  let w := Sample.reserved "pendiente" false false None in
  ¬ party "mallory" (Sample.reserva "pendiente" false false None)
  ∧ Routes.add_note "mallory" "user" Sample.transaction_id {[ "note" := "hola" ]} w
    = (Ret (Routes.failure 400 "No se pudo agregar la nota"), w)
  ∧ Routes.cancel_transaction "mallory" "user" Sample.transaction_id
      {[ "reason" := "hola" ]} w
    = (Ret (Routes.failure 403
              "No tienes permiso para cancelar esta transacción"), w).
Proof.
  split; [|split].
  - unfold party. rewrite !elem_of_cons, elem_of_nil. simpl.
    intros [H|[H|[]]]; discriminate.
  - vm_compute. reflexivity.
  - vm_compute. reflexivity.
Qed.

(** ** C10: malformed ids *)

(** C10 at the input where a handler departs from it: for the malformed
    id [not-an-object-id] both [find_by_id] return [None] and
    [get_transaction] answers 404, but the AddNote handler, which leaves
    the lookup to the model, answers 400 ("No se pudo agregar la nota")
    instead of NotFound.  (For every malformed id the lookups return
    [None] and the handlers that call [find_by_id] answer 404, see
    [malformed_id_not_found].) *)
Theorem add_note_malformed_id_400 :
  let w := Sample.reserved "pendiente" false false None in
  let s := "not-an-object-id" in
  ¬ well_formed_id s
  ∧ Transaction.find_by_id s w = (Ret None, w)
  ∧ Product.find_by_id s w = (Ret None, w)
  ∧ Routes.get_transaction (λ _, None) "bob" "user" s w
    = (Ret (Routes.failure 404 "Transacción no encontrada"), w)
  ∧ Routes.add_note "bob" "user" s {[ "note" := "hola" ]} w
    = (Ret (Routes.failure 400 "No se pudo agregar la nota"), w).
Proof.
  split; [|split; [|split; [|split]]].
  - intros [n Hn]. vm_compute in Hn. discriminate.
  - vm_compute. reflexivity.
  - vm_compute. reflexivity.
  - vm_compute. reflexivity.
  - vm_compute. reflexivity.
Qed.

(** * Further properties of the code *)

(** ** Object ids survive printing *)

Lemma hex_val_hex_digit d : (d < 16)%N → hex_val (hex_digit d) = Some d.
Proof.
  intros Hd. destruct d as [|p]; [reflexivity|].
  do 4 (destruct p as [p|p|]; try reflexivity; try lia).
Qed.

Lemma to_hex_length digits : ∀ n acc,
  String.length (to_hex digits n acc) = digits + String.length acc.
Proof.
  induction digits as [|d IH]; intros n acc; simpl; [done|].
  rewrite IH. simpl. lia.
Qed.

Lemma from_hex_to_hex digits : ∀ n acc a,
  from_hex (to_hex digits n acc) a
  = from_hex acc (a * 16 ^ N.of_nat digits + n mod 16 ^ N.of_nat digits)%N.
Proof.
  induction digits as [|d IH]; intros n acc a.
  - simpl. f_equal. rewrite N.mod_1_r. lia.
  - cbn [to_hex]. rewrite IH. cbn [from_hex].
    rewrite hex_val_hex_digit by (apply N.mod_upper_bound; lia).
    f_equal. rewrite Nat2N.inj_succ, N.pow_succ_r'.
    rewrite (N.Div0.mod_mul_r n 16 (16 ^ N.of_nat d)). lia.
Qed.

Lemma ObjectId_str_oid n : (n < 2 ^ 96)%N → ObjectId (str_oid n) = inr n.
Proof.
  intros Hn. unfold ObjectId, str_oid.
  rewrite to_hex_length, from_hex_to_hex. simpl String.length. simpl Nat.eqb.
  cbn [from_hex]. rewrite N.mod_small; [done|].
  change (16 ^ N.of_nat 24)%N with (2 ^ 96)%N. exact Hn.
Qed.

(** ** Lookups by code and by id *)

Lemma find_one_Some {D} (query : D → bool) (m : gmap N D) d :
  find_one query m = Some d → ∃ k, m !! k = Some d ∧ query d = true.
Proof.
  unfold find_one.
  destruct (List.find _ (map_to_list m)) as [[k d']|] eqn:Hf; [|done].
  intros [= <-]. apply find_some in Hf as [Hin Hq].
  apply list_elem_of_In, elem_of_map_to_list in Hin. eauto.
Qed.

Lemma find_one_is_Some {D} (query : D → bool) (m : gmap N D) k d :
  m !! k = Some d → query d = true → is_Some (find_one query m).
Proof.
  intros Hk Hq. destruct (find_one query m) eqn:Hf; [eauto|].
  rewrite find_one_None in Hf. rewrite (Hf _ _ Hk) in Hq. done.
Qed.

(** X1.  [find_by_code] never writes.  It returns [None] exactly when no
    stored transaction carries the code; what it returns is a stored
    transaction with that code; and when the stored codes are pairwise
    distinct it returns the transaction that carries the code. *)
Theorem find_by_code_spec transaction_code w :
  ∃ r,
    Transaction.find_by_code transaction_code w = (Ret r, w)
    ∧ (r = None ↔ ¬ code_taken (transactions w) transaction_code)
    ∧ (∀ d, r = Some d →
         ∃ k, transactions w !! k = Some d
              ∧ t_transaction_code d = transaction_code)
    ∧ (codes_unique (transactions w) →
       ∀ k T, transactions w !! k = Some T →
         t_transaction_code T = transaction_code → r = Some T).
Proof.
  eexists. split; [reflexivity|]. split; [apply find_by_code_None|]. split.
  - intros d Hd. apply find_one_Some in Hd as (k & Hk & Hq).
    apply bool_decide_eq_true in Hq. eauto.
  - intros Hu k T Hk Hc.
    destruct (find_one_is_Some
                (λ d, bool_decide (t_transaction_code d = transaction_code))
                (transactions w) k T Hk) as [d Hd];
      [by apply bool_decide_eq_true|].
    rewrite Hd. f_equal.
    apply find_one_Some in Hd as (k' & Hk' & Hq).
    apply bool_decide_eq_true in Hq.
    assert (k' = k) as -> by (apply (Hu k' k d T); congruence).
    congruence.
Qed.

Lemma find_by_code_spec_witness :
  let w := Sample.reserved "pendiente" false false None in
  Transaction.find_by_code "TRD-AB12CD" w
  = (Ret (Some (Sample.reserva "pendiente" false false None)), w).
Proof.
  intros w.
  destruct (find_by_code_spec "TRD-AB12CD" w) as (r & Hr & _ & _ & Hu).
  rewrite Hr. do 2 f_equal.
  apply Hu with 1001%N; [|reflexivity|reflexivity].
  intros k1 k2 t1 t2 H1 H2 _.
  change (transactions w)
    with ({[ 1001%N := Sample.reserva "pendiente" false false None ]}
          : gmap N TransactionDoc) in H1, H2.
  apply lookup_singleton_Some in H1 as [<- _].
  apply lookup_singleton_Some in H2 as [<- _]. done.
Defined.

(** What a [create] that returns has stored, and under which key. *)
Lemma create_returns fuel product_id buyer_id seller_id product_data w
    transaction_id code :
  let r := Transaction.create fuel product_id buyer_id seller_id product_data w in
  r.1 = Ret (transaction_id, code) →
  transaction_id = str_oid (oids w (made w))
  ∧ transactions w !! oids w (made w) = None
  ∧ products r.2 = products w
  ∧ ¬ code_taken (transactions w) code
  ∧ ∃ doc,
      transactions r.2 = <[oids w (made w) := doc]> (transactions w)
      ∧ t_transaction_code doc = code
      ∧ t_product_id doc = product_id
      ∧ t_buyer_id doc = buyer_id ∧ t_seller_id doc = seller_id
      ∧ t_status doc = Transaction.PENDING
      ∧ t_seller_confirmed doc = false ∧ t_buyer_paid doc = false
      ∧ t_completed_at doc = None
      ∧ length (t_timeline doc) = 1
      ∧ t_product_snapshot doc
        = {| snap_nombre := p_nombre product_data;
             snap_descripcion := p_descripcion product_data;
             snap_precio := p_precio product_data;
             snap_categoria := p_categoria product_data;
             snap_talla := p_talla product_data;
             snap_imagen_url := p_imagen_url product_data |}.
Proof.
  unfold Transaction.create, bind. rewrite generate_eq.
  destruct (regenerate_spec fuel (code_at (rng w) (draws w)) (draw 6 w))
    as (n & Hw & Hr); [apply code_at_format|].
  destruct (Transaction.regenerate fuel _ (draw 6 w)) as [r1 w1].
  simpl in Hw, Hr. subst w1.
  destruct r1 as [c|e|]; simpl; [|done|done].
  destruct Hr as [Hfmt Hfree].
  unfold Transaction.insert_one, bind. simpl.
  destruct (transactions w !! oids w (made w)) eqn:Hk; simpl; [done|].
  intros [= <- <-]. split; [done|]. split; [done|]. split; [done|].
  split; [done|]. eexists. split; [reflexivity|]. simpl. repeat split; done.
Qed.

(** X2.  When [create] returns an id and a code (the driver's id being a
    12-byte object id), looking the id up with [find_by_id] and the code
    up with [find_by_code] both give the transaction just stored:
    pending, unconfirmed, with the buyer, seller and product it was
    created for. *)
Theorem create_then_find fuel product_id buyer_id seller_id product_data w
    transaction_id code :
  let r := Transaction.create fuel product_id buyer_id seller_id product_data w in
  r.1 = Ret (transaction_id, code) →
  (oids w (made w) < 2 ^ 96)%N →
  ∃ doc,
    Transaction.find_by_id transaction_id r.2 = (Ret (Some doc), r.2)
    ∧ Transaction.find_by_code code r.2 = (Ret (Some doc), r.2)
    ∧ t_transaction_code doc = code
    ∧ t_product_id doc = product_id
    ∧ t_buyer_id doc = buyer_id ∧ t_seller_id doc = seller_id
    ∧ t_status doc = Transaction.PENDING
    ∧ t_seller_confirmed doc = false ∧ t_buyer_paid doc = false.
Proof.
  intros r Hr Hoid.
  destruct (create_returns _ _ _ _ _ _ _ _ Hr)
    as (-> & Hk & _ & Hfree & doc & Ht & Hc & Hp & Hb & Hs & Hst & Hsc & Hbp & _).
  fold r in Ht. exists doc.
  assert (Hdoc : transactions r.2 !! oids w (made w) = Some doc)
    by (rewrite Ht; apply lookup_insert_eq).
  split.
  { rewrite Transaction_find_by_id_eq. unfold transaction_at.
    by rewrite (ObjectId_str_oid _ Hoid), Hdoc. }
  split; [|done].
  unfold Transaction.find_by_code, bind, get_transactions, ret.
  destruct (find_one _ (transactions r.2)) as [d|] eqn:Hf.
  - do 3 f_equal. apply find_one_Some in Hf as (k' & Hk' & Hc').
    apply bool_decide_eq_true in Hc'.
    destruct (decide (k' = oids w (made w))) as [->|Hne]; [congruence|].
    rewrite Ht, lookup_insert_ne in Hk' by done.
    destruct Hfree. exists k', d. split; [done | congruence].
  - exfalso. apply find_by_code_None in Hf. apply Hf.
    exists (oids w (made w)), doc. done.
Qed.

Lemma create_then_find_witness :
  let w := Sample.world ∅
             {[ 1001%N := Sample.reserva "pendiente" false false None;
                1002%N := Sample.second_reserva ]} in
  let r := Transaction.create 3 Sample.product_id "carol" "ana"
             (Sample.remera "disponible" None None) w in
  ∃ doc,
    Transaction.find_by_id "0000000000000000000003e8" r.2 = (Ret (Some doc), r.2)
    ∧ Transaction.find_by_code "TRD-GNU18F" r.2 = (Ret (Some doc), r.2)
    ∧ t_buyer_id doc = "carol".
Proof.
  intros w r.
  destruct (create_then_find 3 Sample.product_id "carol" "ana"
              (Sample.remera "disponible" None None) w
              "0000000000000000000003e8" "TRD-GNU18F")
    as (doc & H1 & H2 & _ & _ & H3 & _).
  - vm_compute. reflexivity.
  - vm_compute. reflexivity.
  - exists doc. split; [exact H1|]. split; [exact H2 | exact H3].
Defined.

(** ** The reservation route *)

Lemma reservation_route_reserves users fuel current_user_id role data w
    product_id pk P (j : nat) :
  data !! "product_id" = Some product_id →
  ObjectId product_id = inr pk →
  products w !! pk = Some P →
  p_estado P = Product.AVAILABLE →
  p_user_id P ≠ current_user_id →
  (j ≤ fuel)%nat →
  ¬ code_taken (transactions w) (candidate w j) →
  transactions w !! oids w (made w) = None →
  (oids w (made w) < 2 ^ 96)%N →
  ∃ w' doc stamp,
    Routes.create_reservation users fuel current_user_id role data w
    = (Ret (match users (p_user_id P) with
            | Some u =>
                Routes.ok 201 "Producto reservado exitosamente"
                  (Some (Routes.ReservationData (Some doc) (u !! "username")
                           (u !! "nombre") (default "" (u !! "whatsapp"))))
            | None =>
                Routes.failure 500
                  ("Error al crear reserva: " ++ exn_str AttributeError)
            end), w')
    ∧ transactions w' = <[oids w (made w) := doc]> (transactions w)
    ∧ products w'
      = <[pk := Product.set_reserved current_user_id
                  (str_oid (oids w (made w))) stamp P]> (products w)
    ∧ t_product_id doc = product_id
    ∧ t_buyer_id doc = current_user_id ∧ t_seller_id doc = p_user_id P
    ∧ t_status doc = Transaction.PENDING
    ∧ t_seller_confirmed doc = false ∧ t_buyer_paid doc = false
    ∧ snap_nombre (t_product_snapshot doc) = p_nombre P
    ∧ snap_precio (t_product_snapshot doc) = p_precio P.
Proof.
  intros Hd Hid HP Hav Hown Hj Hfree Hk Hoid.
  unfold Routes.create_reservation. rewrite handler_eq, Hd.
  destruct product_id as [|c s]; [done|].
  unfold bind at 1. rewrite Product_find_by_id_eq.
  unfold product_at. rewrite Hid, HP.
  change "disponible" with Product.AVAILABLE.
  destruct (decide (p_estado P ≠ Product.AVAILABLE)); [done|].
  destruct (decide (current_user_id = p_user_id P)); [done|].
  destruct (create_total fuel (String c s) current_user_id (p_user_id P) P w j
              Hj Hfree Hk) as [code Hr].
  destruct (create_returns _ _ _ _ _ _ _ _ Hr)
    as (_ & _ & Hps & _ & doc & Ht & _ & Hpid & Hb & Hs & Hst & Hsc & Hbp & _ & _ & Hsnap).
  unfold bind at 1.
  destruct (Transaction.create fuel (String c s) current_user_id (p_user_id P) P w)
    as [r1 w1].
  simpl in Hr, Hps, Ht. subst r1.
  unfold bind at 1.
  rewrite (reserve_ok (String c s) current_user_id _ w1 pk P Hid);
    [|by rewrite Hps|done|done].
  change (negb true) with false. cbv beta iota. unfold bind at 1.
  rewrite Transaction_find_by_id_eq. unfold transaction_at.
  rewrite (ObjectId_str_oid _ Hoid). simpl transactions.
  rewrite Ht, lookup_insert_eq.
  eexists _, doc, _.
  split.
  { unfold Routes.user_get, bind, ret, raise.
    destruct (users (p_user_id P)) as [u|]; reflexivity. }
  simpl. rewrite Hps, Hsnap. repeat split; done.
Qed.

(** X3.  A reservation request for an available product of another user
    (the retry loop finding a free code within its fuel, the driver's id
    being a new 12-byte id, the seller's profile on record) is answered
    201 with the stored transaction.  Afterwards the transaction is stored
    pending and unconfirmed, with the caller as buyer, the owner as
    seller and the product's name and price in its snapshot; the product
    is reserved by the caller under the id of that transaction, its stock
    and owner unchanged; no other product or transaction is touched. *)
Theorem reservation_made users fuel current_user_id role data w
    product_id pk P (j : nat) u :
  data !! "product_id" = Some product_id →
  ObjectId product_id = inr pk →
  products w !! pk = Some P →
  p_estado P = Product.AVAILABLE →
  p_user_id P ≠ current_user_id →
  (j ≤ fuel)%nat →
  ¬ code_taken (transactions w) (candidate w j) →
  transactions w !! oids w (made w) = None →
  (oids w (made w) < 2 ^ 96)%N →
  users (p_user_id P) = Some u →
  let r := Routes.create_reservation users fuel current_user_id role data w in
  let tk := oids w (made w) in
  ∃ resp doc P',
    r.1 = Ret resp
    ∧ Routes.http_status resp = 201 ∧ Routes.success resp = true
    ∧ Routes.data resp
      = Some (Routes.ReservationData (Some doc) (u !! "username")
                (u !! "nombre") (default "" (u !! "whatsapp")))
    ∧ transactions r.2 !! tk = Some doc
    ∧ t_product_id doc = product_id
    ∧ t_buyer_id doc = current_user_id ∧ t_seller_id doc = p_user_id P
    ∧ t_status doc = Transaction.PENDING
    ∧ t_seller_confirmed doc = false ∧ t_buyer_paid doc = false
    ∧ snap_nombre (t_product_snapshot doc) = p_nombre P
    ∧ snap_precio (t_product_snapshot doc) = p_precio P
    ∧ products r.2 !! pk = Some P'
    ∧ p_estado P' = Product.RESERVED
    ∧ p_reserved_by P' = Some current_user_id
    ∧ p_transaction_id P' = Some (str_oid tk)
    ∧ p_stock P' = p_stock P ∧ p_user_id P' = p_user_id P
    ∧ (∀ k, k ≠ pk → products r.2 !! k = products w !! k)
    ∧ (∀ k, k ≠ tk → transactions r.2 !! k = transactions w !! k).
Proof.
  intros Hd Hid HP Hav Hown Hj Hfree Hk Hoid Hu r tk.
  destruct (reservation_route_reserves users fuel current_user_id role data w
              product_id pk P j Hd Hid HP Hav Hown Hj Hfree Hk Hoid)
    as (w' & doc & stamp & Hr & Ht & Hps & Hfacts).
  subst r. rewrite Hr, Hu. simpl.
  eexists _, doc, _. split; [reflexivity|]. simpl.
  rewrite Ht, Hps, !lookup_insert_eq.
  destruct Hfacts as (? & ? & ? & ? & ? & ? & ? & ?).
  repeat split; try done.
  - intros k Hne. by rewrite lookup_insert_ne.
  - intros k Hne. by rewrite lookup_insert_ne.
Qed.

Lemma reservation_made_witness :
  let w := Sample.world {[ 1000%N := Sample.remera "disponible" None None ]} ∅ in
  let users := λ s : string, Some ({[ "username" := s ]} : gmap string string) in
  let r := Routes.create_reservation users 3 "bob" "user"
             {[ "product_id" := Sample.product_id ]} w in
  ∃ resp doc P',
    r.1 = Ret resp ∧ Routes.http_status resp = 201
    ∧ transactions r.2 !! 1000%N = Some doc ∧ t_buyer_id doc = "bob"
    ∧ products r.2 !! 1000%N = Some P'
    ∧ p_reserved_by P' = Some "bob".
Proof.
  intros w users r.
  destruct (reservation_made users 3 "bob" "user"
              {[ "product_id" := Sample.product_id ]} w Sample.product_id
              1000%N (Sample.remera "disponible" None None) 0
              {[ "username" := "ana" ]})
    as (resp & doc & P' & H1 & H2 & _ & _ & H3 & _ & H4 & _ & _ & _ & _ & _ & _
        & H5 & _ & H6 & _).
  - reflexivity.
  - reflexivity.
  - reflexivity.
  - reflexivity.
  - discriminate.
  - lia.
  - apply find_by_code_None. vm_compute. reflexivity.
  - reflexivity.
  - vm_compute. reflexivity.
  - reflexivity.
  - exists resp, doc, P'. repeat split; assumption.
Defined.

(** X4.  The same request when the seller has no profile on record: the
    handler raises on [seller.get] after both writes, so the answer is
    500 although the transaction has been stored and the product is
    reserved by the caller. *)
Theorem reservation_made_despite_500 users fuel current_user_id role data w
    product_id pk P (j : nat) :
  data !! "product_id" = Some product_id →
  ObjectId product_id = inr pk →
  products w !! pk = Some P →
  p_estado P = Product.AVAILABLE →
  p_user_id P ≠ current_user_id →
  (j ≤ fuel)%nat →
  ¬ code_taken (transactions w) (candidate w j) →
  transactions w !! oids w (made w) = None →
  (oids w (made w) < 2 ^ 96)%N →
  users (p_user_id P) = None →
  let r := Routes.create_reservation users fuel current_user_id role data w in
  ∃ resp doc P',
    r.1 = Ret resp
    ∧ Routes.http_status resp = 500 ∧ Routes.success resp = false
    ∧ transactions r.2 !! oids w (made w) = Some doc
    ∧ t_buyer_id doc = current_user_id
    ∧ t_status doc = Transaction.PENDING
    ∧ products r.2 !! pk = Some P'
    ∧ p_estado P' = Product.RESERVED
    ∧ p_reserved_by P' = Some current_user_id.
Proof.
  intros Hd Hid HP Hav Hown Hj Hfree Hk Hoid Hu r.
  destruct (reservation_route_reserves users fuel current_user_id role data w
              product_id pk P j Hd Hid HP Hav Hown Hj Hfree Hk Hoid)
    as (w' & doc & stamp & Hr & Ht & Hps & Hfacts).
  subst r. rewrite Hr, Hu. simpl.
  eexists _, doc, _. split; [reflexivity|]. simpl.
  rewrite Ht, Hps, !lookup_insert_eq.
  destruct Hfacts as (? & ? & ? & ? & ? & ? & ? & ?).
  repeat split; done.
Qed.

Lemma reservation_made_despite_500_witness :
  let w := Sample.world {[ 1000%N := Sample.remera "disponible" None None ]} ∅ in
  let r := Routes.create_reservation (λ _, None) 3 "bob" "user"
             {[ "product_id" := Sample.product_id ]} w in
  ∃ resp P',
    r.1 = Ret resp ∧ Routes.http_status resp = 500
    ∧ products r.2 !! 1000%N = Some P'
    ∧ p_reserved_by P' = Some "bob".
Proof.
  intros w r.
  destruct (reservation_made_despite_500 (λ _, None) 3 "bob" "user"
              {[ "product_id" := Sample.product_id ]} w Sample.product_id
              1000%N (Sample.remera "disponible" None None) 0)
    as (resp & doc & P' & H1 & H2 & _ & _ & _ & _ & H3 & _ & H4).
  - reflexivity.
  - reflexivity.
  - reflexivity.
  - reflexivity.
  - discriminate.
  - lia.
  - apply find_by_code_None. vm_compute. reflexivity.
  - reflexivity.
  - vm_compute. reflexivity.
  - reflexivity.
  - exists resp, P'. repeat split; assumption.
Defined.

(** ** What no call of the ledger changes *)

Lemma ledger_exec_frame op w :
  transactions (ledger_exec op w).2 = transactions w
  ∨ (∃ k t t',
       transactions w !! k = Some t
       ∧ transactions (ledger_exec op w).2 = <[k := t']> (transactions w)
       ∧ same_identity t t' ∧ confirmations_kept t t')
  ∨ (∃ k doc,
       transactions w !! k = None
       ∧ transactions (ledger_exec op w).2 = <[k := doc]> (transactions w)).
Proof.
  destruct op as [fuel pid b s pd|tid ns msg u|tid u pm|tid u|tid u note];
    simpl.
  - unfold bind.
    destruct (create_cases fuel pid b s pd w) as [_ H]. simpl in H.
    destruct (Transaction.create fuel pid b s pd w) as [r w']. simpl in H.
    destruct H as [[Ht _]|(k & doc & stamp & Hk & Ht & _)].
    + left. by destruct r.
    + right. right. exists k, doc. by destruct r.
  - destruct (transaction_at w tid) as [t|] eqn:Hat.
    + destruct (decide (party u t)) as [Hp|Hp].
      * unfold transaction_at in Hat.
        destruct (ObjectId tid) as [e|k] eqn:Hid; [done|].
        right. left. rewrite (update_status_ok _ ns msg _ _ _ _ Hid Hat Hp).
        eexists k, t, _. split; [done|]. split; [reflexivity|].
        split; repeat split; auto.
      * left. rewrite update_status_rejected; [done|]. by rewrite Hat.
    + left. rewrite update_status_rejected; [done|]. by rewrite Hat.
  - destruct (transaction_at w tid) as [t|] eqn:Hat.
    + destruct (decide (t_seller_id t = u)) as [Hp|Hp].
      * unfold transaction_at in Hat.
        destruct (ObjectId tid) as [e|k] eqn:Hid; [done|].
        right. left. rewrite (seller_confirm_ok _ _ pm _ _ _ Hid Hat Hp).
        eexists k, t, _. split; [done|]. split; [reflexivity|].
        split; repeat split; auto.
      * left. rewrite seller_confirm_rejected; [done|]. by rewrite Hat.
    + left. rewrite seller_confirm_rejected; [done|]. by rewrite Hat.
  - destruct (transaction_at w tid) as [t|] eqn:Hat.
    + destruct (decide (t_buyer_id t = u)) as [Hp|Hp].
      * unfold transaction_at in Hat.
        destruct (ObjectId tid) as [e|k] eqn:Hid; [done|].
        right. left. rewrite (buyer_confirm_payment_ok _ _ _ _ _ Hid Hat Hp).
        eexists k, t, _. split; [done|]. split; [reflexivity|].
        split; repeat split; auto.
      * left. rewrite buyer_confirm_payment_rejected; [done|]. by rewrite Hat.
    + left. rewrite buyer_confirm_payment_rejected; [done|]. by rewrite Hat.
  - destruct (transaction_at w tid) as [t|] eqn:Hat.
    + destruct (decide (party u t)) as [Hp|Hp].
      * unfold transaction_at in Hat.
        destruct (ObjectId tid) as [e|k] eqn:Hid; [done|].
        right. left. rewrite (add_note_ok _ _ note _ _ _ Hid Hat Hp).
        eexists k, t, _. split; [done|]. split; [reflexivity|].
        split; repeat split; auto.
      * left. rewrite add_note_rejected; [done|]. by rewrite Hat.
    + left. rewrite add_note_rejected; [done|]. by rewrite Hat.
Qed.

Lemma ledger_step_frame op w k T :
  transactions w !! k = Some T →
  ∃ T', transactions (ledger_step w op) !! k = Some T'
        ∧ same_identity T T' ∧ confirmations_kept T T'.
Proof.
  intros Hk. unfold ledger_step.
  destruct (ledger_exec_frame op w)
    as [->|[(k0 & t & t' & Hk0 & -> & Hid & Hc)|(k0 & doc & Hk0 & ->)]].
  - exists T. repeat split; auto.
  - destruct (decide (k0 = k)) as [->|Hne].
    + rewrite lookup_insert_eq. exists t'.
      assert (t = T) as -> by congruence. done.
    + rewrite lookup_insert_ne by done. exists T. repeat split; auto.
  - rewrite lookup_insert_ne by congruence. exists T. repeat split; auto.
Qed.

Lemma ledger_frame ops : ∀ w k T,
  transactions w !! k = Some T →
  ∃ T', transactions (ledger ops w) !! k = Some T'
        ∧ same_identity T T' ∧ confirmations_kept T T'.
Proof.
  unfold ledger. induction ops as [|op ops IH]; intros w k T Hk; simpl.
  - exists T. repeat split; auto.
  - destruct (ledger_step_frame op w k T Hk) as (T1 & H1 & Hi1 & Hc1).
    destruct (IH _ _ _ H1) as (T2 & H2 & Hi2 & Hc2).
    exists T2. split; [done|]. split.
    + unfold same_identity in *.
      destruct Hi1 as (?&?&?&?&?&?&?&?), Hi2 as (?&?&?&?&?&?&?&?).
      repeat split; congruence.
    + destruct Hc1, Hc2. split; auto.
Qed.

(** X5.  Once stored, a transaction is never deleted, and no sequence of
    ledger calls ([create], [update_status], [seller_confirm],
    [buyer_confirm_payment], [add_note], with any arguments) changes its
    code, product id, buyer, seller, product snapshot or creation time. *)
Theorem transaction_identity_immutable ops w k T :
  transactions w !! k = Some T →
  ∃ T', transactions (ledger ops w) !! k = Some T'
        ∧ t_transaction_code T' = t_transaction_code T
        ∧ t_product_id T' = t_product_id T
        ∧ t_buyer_id T' = t_buyer_id T
        ∧ t_seller_id T' = t_seller_id T
        ∧ t_product_snapshot T' = t_product_snapshot T
        ∧ t_created_at T' = t_created_at T.
Proof.
  intros Hk. destruct (ledger_frame ops w k T Hk) as (T' & H & Hi & _).
  exists T'. destruct Hi as (?&?&?&?&?&?&_). done.
Qed.

Lemma transaction_identity_immutable_witness :
  let w := Sample.reserved "pendiente" false false None in
  let ops := [SellerConfirm Sample.transaction_id "ana" "cash";
              UpdateStatus Sample.transaction_id "cancelada" "x" "bob";
              AddNote Sample.transaction_id "ana" "hola"] in
  ∃ T', transactions (ledger ops w) !! 1001%N = Some T'
        ∧ t_buyer_id T' = "bob" ∧ t_seller_id T' = "ana".
Proof.
  intros w ops.
  destruct (transaction_identity_immutable ops w 1001%N
              (Sample.reserva "pendiente" false false None))
    as (T' & H & _ & _ & Hb & Hs & _).
  - reflexivity.
  - exists T'. repeat split; assumption.
Defined.

(** X6.  The confirmation flags only ever go up: after any sequence of
    ledger calls a transaction whose [seller_confirmed] (or [buyer_paid])
    was true still has it true; not even a cancellation resets them. *)
Theorem confirmations_never_reset ops w k T :
  transactions w !! k = Some T →
  ∃ T', transactions (ledger ops w) !! k = Some T'
        ∧ (t_seller_confirmed T = true → t_seller_confirmed T' = true)
        ∧ (t_buyer_paid T = true → t_buyer_paid T' = true).
Proof.
  intros Hk. destruct (ledger_frame ops w k T Hk) as (T' & H & _ & Hc).
  exists T'. by destruct Hc.
Qed.

Lemma confirmations_never_reset_witness :
  let w := Sample.reserved "pago_confirmado" true true None in
  let ops := [UpdateStatus Sample.transaction_id "cancelada"
                "Transacción cancelada" "bob"] in
  ∃ T', transactions (ledger ops w) !! 1001%N = Some T'
        ∧ t_seller_confirmed T' = true ∧ t_buyer_paid T' = true.
Proof.
  intros w ops.
  destruct (confirmations_never_reset ops w 1001%N
              (Sample.reserva "pago_confirmado" true true None))
    as (T' & H & Hs & Hb).
  - reflexivity.
  - exists T'. split; [exact H|].
    split; [apply Hs | apply Hb]; reflexivity.
Defined.

(** ** Reserving and releasing a product *)

(** X7.  [Product.reserve] returns [True] exactly when the product
    exists, its status is available and the buyer is not its owner. *)
Theorem reserve_succeeds_iff product_id buyer_id transaction_id w :
  (Product.reserve product_id buyer_id transaction_id w).1 = Ret true
  ↔ ∃ P, product_at w product_id = Some P
         ∧ p_estado P = Product.AVAILABLE ∧ p_user_id P ≠ buyer_id.
Proof.
  split.
  - intros Hr.
    destruct (reserve_cases product_id buyer_id transaction_id w)
      as [Hf|(k & p & Hid & Hk & _)]; [by rewrite Hf in Hr|].
    destruct (product_at w product_id) as [P|] eqn:Hat.
    + exists P. split; [done|].
      destruct (decide (p_estado P = Product.AVAILABLE)) as [Hav|Hav].
      * split; [done|]. intros Ho.
        rewrite reserve_rejected in Hr; [done|]. rewrite Hat. auto.
      * rewrite reserve_rejected in Hr; [done|]. rewrite Hat. auto.
    + rewrite reserve_rejected in Hr; [done|]. by rewrite Hat.
  - intros (P & Hat & Hav & Ho). unfold product_at in Hat.
    destruct (ObjectId product_id) as [e|k] eqn:Hid; [done|].
    by rewrite (reserve_ok _ _ _ _ _ _ Hid Hat Hav Ho).
Qed.

Lemma reserve_succeeds_iff_witness :
  let w := Sample.world {[ 1000%N := Sample.remera "disponible" None None ]} ∅ in
  (Product.reserve Sample.product_id "bob" Sample.transaction_id w).1 = Ret true.
Proof.
  intros w. apply reserve_succeeds_iff.
  exists (Sample.remera "disponible" None None).
  split; [reflexivity|]. split; [reflexivity | discriminate].
Defined.

(** X8.  A reservation excludes every other one: once [reserve] has
    returned [True], every further [reserve] of that product, by any
    buyer and for any transaction, returns [False] and changes nothing. *)
Theorem reserve_exclusive product_id buyer_id transaction_id w :
  let r := Product.reserve product_id buyer_id transaction_id w in
  r.1 = Ret true →
  ∀ product_id' buyer_id' transaction_id',
    ObjectId product_id' = ObjectId product_id →
    Product.reserve product_id' buyer_id' transaction_id' r.2 = (Ret false, r.2).
Proof.
  intros r Hr pid' b' t' Hsame. subst r.
  destruct (reserve_cases product_id buyer_id transaction_id w)
    as [Hf|(k & p & Hid & Hk & Heq)]; [by rewrite Hf in Hr|].
  rewrite Heq. simpl. apply reserve_rejected.
  unfold product_at. rewrite Hsame, Hid. simpl.
  rewrite lookup_insert_eq. left. discriminate.
Qed.

Lemma reserve_exclusive_witness :
  let w := Sample.world {[ 1000%N := Sample.remera "disponible" None None ]} ∅ in
  let r := Product.reserve Sample.product_id "bob" Sample.transaction_id w in
  Product.reserve Sample.product_id "carol" "0000000000000000000003ea" r.2
  = (Ret false, r.2).
Proof.
  intros w r.
  apply (reserve_exclusive Sample.product_id "bob" Sample.transaction_id w).
  - vm_compute. reflexivity.
  - reflexivity.
Defined.

(** X9.  [unreserve] releases unconditionally: whatever the status of a
    stored product (reserved, sold, inactive), after [unreserve] it is
    available with both reservation fields cleared and its stock as it
    was, and a [reserve] by anyone but the owner succeeds again. *)
Theorem unreserve_releases product_id w k P :
  ObjectId product_id = inr k →
  products w !! k = Some P →
  let w1 := (Product.unreserve product_id w).2 in
  (∃ P', products w1 !! k = Some P'
         ∧ p_estado P' = Product.AVAILABLE
         ∧ p_reserved_by P' = None ∧ p_transaction_id P' = None
         ∧ p_stock P' = p_stock P ∧ p_user_id P' = p_user_id P)
  ∧ ∀ buyer_id transaction_id,
      p_user_id P ≠ buyer_id →
      (Product.reserve product_id buyer_id transaction_id w1).1 = Ret true.
Proof.
  intros Hid Hk w1. subst w1.
  destruct (unreserve_eq _ w _ Hid) as [b ->]. simpl.
  rewrite (settle_lookup _ _ _ _ Hk). split; [eauto 10|].
  intros buyer tid Ho.
  erewrite (reserve_ok product_id buyer tid _ k _ Hid); [done| | |].
  - simpl. by apply settle_lookup.
  - reflexivity.
  - exact Ho.
Qed.

Lemma unreserve_releases_witness :
  let w := Sample.world
             {[ 1000%N := Sample.remera "vendido" (Some "bob")
                            (Some Sample.transaction_id) ]} ∅ in
  let w1 := (Product.unreserve Sample.product_id w).2 in
  (Product.reserve Sample.product_id "carol" "0000000000000000000003ea" w1).1
  = Ret true.
Proof.
  intros w w1.
  refine (proj2 (unreserve_releases Sample.product_id w 1000%N
                   (Sample.remera "vendido" (Some "bob")
                      (Some Sample.transaction_id)) _ _)
            "carol" "0000000000000000000003ea" _).
  - reflexivity.
  - reflexivity.
  - discriminate.
Defined.

(** ** Handlers in sequence *)

(** X10.  Sold is not final for the handlers: when a party cancels a
    transaction that was completed, the cancelled transaction keeps its
    completion stamp and the product it sold is put back on sale,
    available with no reservation, but with the stock 0 the sale left. *)
Theorem cancel_after_complete user1 user2 role transaction_id data w k T pk P :
  ObjectId transaction_id = inr k →
  transactions w !! k = Some T →
  party user1 T → party user2 T →
  t_seller_confirmed T = true → t_buyer_paid T = true →
  ObjectId (t_product_id T) = inr pk →
  products w !! pk = Some P →
  let r1 := Routes.complete_transaction user1 role transaction_id w in
  let r2 := Routes.cancel_transaction user2 role transaction_id data r1.2 in
  (∃ resp, r2.1 = Ret resp ∧ Routes.http_status resp = 200)
  ∧ (∃ T', transactions r2.2 !! k = Some T'
           ∧ t_status T' = Transaction.CANCELLED
           ∧ t_completed_at T' = Some (utc w (2 + ticks w)))
  ∧ (∃ P', products r2.2 !! pk = Some P'
           ∧ p_estado P' = Product.AVAILABLE
           ∧ p_reserved_by P' = None ∧ p_transaction_id P' = None
           ∧ p_stock P' = 0%Z).
Proof.
  intros Hid Hk Hp1 Hp2 Hs Hb Hpid HP r1 r2. subst r2 r1.
  rewrite (complete_route_completed _ role _ _ _ _ Hid Hk Hp1 Hs Hb).
  rewrite Hpid. simpl.
  match goal with
  | |- context [Routes.cancel_transaction _ _ _ _ ?w1] => set (w1' := w1)
  end.
  assert (Hk1 : transactions w1' !! k
                = Some (Transaction.set_status Transaction.COMPLETED
                          (utc w (1 + ticks w)) (Some (utc w (2 + ticks w)))
                          (status_event Transaction.COMPLETED
                             "Transacción completada exitosamente" user1 w) T))
    by (subst w1'; simpl; apply lookup_insert_eq).
  destruct (cancel_route_cancelled user2 role _ data _ _ _ Hid Hk1 Hp2)
    as [msg Heq].
  simpl in Heq. rewrite Hpid in Heq. rewrite Heq. simpl.
  split; [eauto|]. split.
  - rewrite lookup_insert_eq. eauto.
  - assert (HP1 : products w1' !! pk
                  = Some (Product.set_sold transaction_id (utc w (3 + ticks w)) P))
      by (subst w1'; simpl; by apply settle_lookup).
    rewrite (settle_lookup _ _ _ _ HP1). eauto 10.
Qed.

Lemma cancel_after_complete_witness :
  let w := Sample.reserved "pago_confirmado" true true None in
  let r1 := Routes.complete_transaction "bob" "user" Sample.transaction_id w in
  let r2 := Routes.cancel_transaction "ana" "user" Sample.transaction_id
              {[ "reason" := "devuelto" ]} r1.2 in
  ∃ P', products r2.2 !! 1000%N = Some P'
        ∧ p_estado P' = Product.AVAILABLE
        ∧ p_reserved_by P' = None ∧ p_transaction_id P' = None
        ∧ p_stock P' = 0%Z.
Proof.
  intros w r1 r2.
  refine (proj2 (proj2 (cancel_after_complete "bob" "ana" "user"
                          Sample.transaction_id {[ "reason" := "devuelto" ]} w
                          1001%N (Sample.reserva "pago_confirmado" true true None)
                          1000%N (Sample.remera "reservado" (Some "bob")
                                    (Some Sample.transaction_id))
                          _ _ _ _ _ _ _ _))).
  - reflexivity.
  - reflexivity.
  - decide_by_eval.
  - decide_by_eval.
  - reflexivity.
  - reflexivity.
  - reflexivity.
  - reflexivity.
Defined.

(** X11.  The two confirmations can come in either order.  After
    SellerConfirm by the seller and BuyerConfirmPayment by the buyer, in
    whichever order, both flags are true and the payment method is the one
    the seller sent; the status is the one of the later confirmation
    (payment_confirmed, or confirmed when the seller came last); and
    Complete by either party then sets the status to completed. *)
Theorem confirmations_in_either_order role data transaction_id w k T :
  ObjectId transaction_id = inr k →
  transactions w !! k = Some T →
  let seller := t_seller_id T in
  let buyer := t_buyer_id T in
  let w_sb :=
    (Routes.buyer_confirm_payment buyer role transaction_id
       (Routes.seller_confirm seller role transaction_id data w).2).2 in
  let w_bs :=
    (Routes.seller_confirm seller role transaction_id data
       (Routes.buyer_confirm_payment buyer role transaction_id w).2).2 in
  (∃ T1, transactions w_sb !! k = Some T1
         ∧ t_seller_confirmed T1 = true ∧ t_buyer_paid T1 = true
         ∧ t_payment_method T1 = default "" (data !! "payment_method")
         ∧ t_status T1 = Transaction.PAYMENT_CONFIRMED)
  ∧ (∃ T2, transactions w_bs !! k = Some T2
           ∧ t_seller_confirmed T2 = true ∧ t_buyer_paid T2 = true
           ∧ t_payment_method T2 = default "" (data !! "payment_method")
           ∧ t_status T2 = Transaction.CONFIRMED)
  ∧ ∀ user, party user T →
      status_after k (Routes.complete_transaction user role transaction_id w_sb)
      = Some Transaction.COMPLETED
      ∧ status_after k (Routes.complete_transaction user role transaction_id w_bs)
        = Some Transaction.COMPLETED.
Proof.
  intros Hid Hk seller buyer w_sb w_bs. subst w_sb w_bs seller buyer.
  rewrite (seller_confirm_route_ok _ role _ data _ _ _ Hid Hk eq_refl).
  rewrite (buyer_confirm_route_ok _ role _ _ _ _ Hid Hk eq_refl).
  cbn [snd].
  set (wa := with_transactions _ (tick 2 w)).
  assert (Ha : ∃ Ta, transactions wa !! k = Some Ta
                     ∧ t_buyer_id Ta = t_buyer_id T
                     ∧ t_seller_id Ta = t_seller_id T
                     ∧ t_seller_confirmed Ta = true
                     ∧ t_payment_method Ta = default "" (data !! "payment_method")).
  { eexists. split; [subst wa; simpl; apply lookup_insert_eq|]. done. }
  destruct Ha as (Ta & HTa & Hba & Hsa & Hfa & Hpa).
  rewrite (buyer_confirm_route_ok _ role _ _ _ _ Hid HTa Hba). cbn [snd].
  clearbody wa.
  set (wb := with_transactions
               (<[k := Transaction.set_buyer_paid _ _ T]> (transactions w))
               (tick 2 w)).
  assert (Hb : ∃ Tb, transactions wb !! k = Some Tb
                     ∧ t_buyer_id Tb = t_buyer_id T
                     ∧ t_seller_id Tb = t_seller_id T
                     ∧ t_buyer_paid Tb = true).
  { eexists. split; [subst wb; simpl; apply lookup_insert_eq|]. done. }
  destruct Hb as (Tb & HTb & Hbb & Hsb & Hfb).
  rewrite (seller_confirm_route_ok _ role _ data _ _ _ Hid HTb Hsb). cbn [snd].
  clearbody wb.
  set (w1 := with_transactions _ (tick 2 wa)).
  set (w2 := with_transactions _ (tick 2 wb)).
  assert (H1 : ∃ T1, transactions w1 !! k = Some T1
                     ∧ t_buyer_id T1 = t_buyer_id T ∧ t_seller_id T1 = t_seller_id T
                     ∧ t_seller_confirmed T1 = true ∧ t_buyer_paid T1 = true
                     ∧ t_payment_method T1 = default "" (data !! "payment_method")
                     ∧ t_status T1 = Transaction.PAYMENT_CONFIRMED).
  { eexists. split; [subst w1; simpl; apply lookup_insert_eq|]. done. }
  assert (H2 : ∃ T2, transactions w2 !! k = Some T2
                     ∧ t_buyer_id T2 = t_buyer_id T ∧ t_seller_id T2 = t_seller_id T
                     ∧ t_seller_confirmed T2 = true ∧ t_buyer_paid T2 = true
                     ∧ t_payment_method T2 = default "" (data !! "payment_method")
                     ∧ t_status T2 = Transaction.CONFIRMED).
  { eexists. split; [subst w2; simpl; apply lookup_insert_eq|]. done. }
  clearbody w1 w2.
  destruct H1 as (T1 & HT1 & Hb1 & Hs1 & Hsc1 & Hbp1 & Hpm1 & Hst1).
  destruct H2 as (T2 & HT2 & Hb2 & Hs2 & Hsc2 & Hbp2 & Hpm2 & Hst2).
  split; [eauto 10|]. split; [eauto 10|].
  intros user Hp. unfold status_after. split.
  - assert (Hp1 : party user T1) by (unfold party in *; by rewrite Hb1, Hs1).
    rewrite (complete_route_completed _ role _ _ _ _ Hid HT1 Hp1 Hsc1 Hbp1).
    destruct (ObjectId (t_product_id T1)); simpl; by rewrite lookup_insert_eq.
  - assert (Hp2 : party user T2) by (unfold party in *; by rewrite Hb2, Hs2).
    rewrite (complete_route_completed _ role _ _ _ _ Hid HT2 Hp2 Hsc2 Hbp2).
    destruct (ObjectId (t_product_id T2)); simpl; by rewrite lookup_insert_eq.
Qed.

Lemma confirmations_in_either_order_witness :
  let w := Sample.reserved "pendiente" false false None in
  let w_bs :=
    (Routes.seller_confirm "ana" "user" Sample.transaction_id
       {[ "payment_method" := "cash" ]}
       (Routes.buyer_confirm_payment "bob" "user" Sample.transaction_id w).2).2 in
  status_after 1001%N
    (Routes.complete_transaction "ana" "user" Sample.transaction_id w_bs)
  = Some Transaction.COMPLETED.
Proof.
  intros w w_bs.
  refine (proj2 (proj2 (proj2 (confirmations_in_either_order "user"
                                 {[ "payment_method" := "cash" ]}
                                 Sample.transaction_id w 1001%N
                                 (Sample.reserva "pendiente" false false None)
                                 _ _))
                   "ana" _)).
  - reflexivity.
  - reflexivity.
  - decide_by_eval.
Defined.

(** ** Managing a listing *)

Lemma change_status_eq product_id status user_id w k :
  ObjectId product_id = inr k →
  ∃ b ps',
    Product.change_status product_id status user_id w
    = (Ret b, with_products ps' (tick 1 w))
    ∧ (b, ps')
      = match products w !! k with
        | Some P =>
            if decide (p_user_id P = user_id) then
              if decide (Product.set_estado status (utc w (ticks w)) P = P)
              then (false, products w)
              else (true,
                    <[k := Product.set_estado status (utc w (ticks w)) P]>
                      (products w))
            else (false, products w)
        | None => (false, products w)
        end.
Proof.
  intros Hid. unfold Product.change_status, bind, lift_oid. rewrite Hid.
  simpl. unfold update_one.
  destruct (products w !! k) as [P|]; [|by eexists _, _].
  destruct (decide (p_user_id P = user_id)) as [Ho|Ho].
  - rewrite bool_decide_eq_true_2 by done.
    destruct (decide (Product.set_estado _ _ P = P)); by eexists _, _.
  - rewrite bool_decide_eq_false_2 by done. by eexists _, _.
Qed.

(** X12.  [change_status] is for the owner only and looks at nothing
    else.  Called by anyone but the owner it returns [False] and leaves
    the collection as it was.  Called by the owner it puts the given
    status on the product whatever the current one (also on a reserved or
    sold product) and keeps the reservation fields and the stock; so
    when the owner sets a reserved product to available, the next buyer's
    [reserve] succeeds and replaces the earlier reservation. *)
Theorem change_status_owner_only product_id status user_id w k P :
  ObjectId product_id = inr k →
  products w !! k = Some P →
  let r := Product.change_status product_id status user_id w in
  transactions r.2 = transactions w
  ∧ (p_user_id P ≠ user_id → r.1 = Ret false ∧ products r.2 = products w)
  ∧ (p_user_id P = user_id →
     (∃ P', products r.2 !! k = Some P'
            ∧ p_estado P' = status
            ∧ p_reserved_by P' = p_reserved_by P
            ∧ p_transaction_id P' = p_transaction_id P
            ∧ p_stock P' = p_stock P ∧ p_user_id P' = p_user_id P)
     ∧ (status = Product.AVAILABLE →
        ∀ buyer_id transaction_id, buyer_id ≠ user_id →
          ∃ P'', products
                   (Product.reserve product_id buyer_id transaction_id r.2).2
                 !! k = Some P''
                 ∧ p_estado P'' = Product.RESERVED
                 ∧ p_reserved_by P'' = Some buyer_id
                 ∧ p_transaction_id P'' = Some transaction_id)).
Proof.
  intros Hid Hk r. subst r.
  destruct (change_status_eq product_id status user_id w k Hid)
    as (b & ps' & -> & Heq).
  rewrite Hk in Heq. simpl. split; [done|]. split.
  - intros Ho. destruct (decide (p_user_id P = user_id)); [done|].
    by injection Heq as -> ->.
  - intros Ho. destruct (decide (p_user_id P = user_id)); [|done].
    assert (HP' : ∃ P', ps' !! k = Some P'
                        ∧ p_estado P' = status
                        ∧ p_reserved_by P' = p_reserved_by P
                        ∧ p_transaction_id P' = p_transaction_id P
                        ∧ p_stock P' = p_stock P ∧ p_user_id P' = p_user_id P).
    { destruct (decide (Product.set_estado status (utc w (ticks w)) P = P))
        as [Hsame|Hdiff]; injection Heq as -> ->.
      - exists P. split; [done|]. rewrite <- Hsame at 1. done.
      - eexists. split; [apply lookup_insert_eq|]. done. }
    destruct HP' as (P' & HP' & Hst & Hrb & Htid & Hstock & Hu).
    split; [eauto 10|].
    intros -> buyer tid Hb.
    rewrite (reserve_ok product_id buyer tid _ k P' Hid); [| done | done |].
    + simpl. rewrite lookup_insert_eq. eauto.
    + congruence.
Qed.

Lemma change_status_owner_only_witness :
  let w := Sample.reserved "pendiente" false false None in
  let r := Product.change_status Sample.product_id "disponible" "ana" w in
  ∃ P'', products
           (Product.reserve Sample.product_id "carol"
              "0000000000000000000003ea" r.2).2 !! 1000%N = Some P''
         ∧ p_estado P'' = Product.RESERVED
         ∧ p_reserved_by P'' = Some "carol"
         ∧ p_transaction_id P'' = Some "0000000000000000000003ea".
Proof.
  intros w r.
  refine (proj2 (proj2 (proj2 (change_status_owner_only Sample.product_id
                                 "disponible" "ana" w 1000%N
                                 (Sample.remera "reservado" (Some "bob")
                                    (Some Sample.transaction_id)) _ _)) _)
            _ "carol" "0000000000000000000003ea" _).
  - reflexivity.
  - reflexivity.
  - reflexivity.
  - reflexivity.
  - discriminate.
Defined.

(** X13.  [delete] is for the owner only and does not look at the
    status.  Called by the owner it removes the product, so that
    [find_by_id] returns [None] and [reserve] returns [False] afterwards,
    and it touches no other product and no transaction: a transaction
    that references the product stays as it was.  Called by anyone else
    it returns [False] and removes nothing. *)
Theorem delete_owner_only product_id user_id w k P :
  ObjectId product_id = inr k →
  products w !! k = Some P →
  let r := Product.delete product_id user_id w in
  transactions r.2 = transactions w
  ∧ (∀ k', k' ≠ k → products r.2 !! k' = products w !! k')
  ∧ (p_user_id P ≠ user_id → r = (Ret false, w))
  ∧ (p_user_id P = user_id →
     r.1 = Ret true
     ∧ products r.2 !! k = None
     ∧ Product.find_by_id product_id r.2 = (Ret None, r.2)
     ∧ ∀ buyer_id transaction_id,
         Product.reserve product_id buyer_id transaction_id r.2
         = (Ret false, r.2)).
Proof.
  intros Hid Hk r. subst r.
  unfold Product.delete, bind, lift_oid, delete_one. rewrite Hid. simpl.
  rewrite Hk.
  destruct (decide (p_user_id P = user_id)) as [Ho|Ho].
  - rewrite bool_decide_eq_true_2 by done. simpl.
    split; [done|]. split; [intros k' Hne; by apply lookup_delete_ne|].
    split; [done|]. intros _. split; [done|].
    split; [apply lookup_delete_eq|].
    assert (Hat : ∀ w', products w' = delete k (products w) →
                        product_at w' product_id = None).
    { intros w' Hw'. unfold product_at. rewrite Hid, Hw'.
      apply lookup_delete_eq. }
    split.
    + rewrite Product_find_by_id_eq, Hat; done.
    + intros b t. apply reserve_rejected. rewrite Hat; done.
  - rewrite bool_decide_eq_false_2 by done. simpl.
    split; [done|]. split; [done|]. split; [|done].
    intros _. unfold ret. by rewrite world_eta.
Qed.

Lemma delete_owner_only_witness :
  let w := Sample.reserved "pendiente" false false None in
  let r := Product.delete Sample.product_id "ana" w in
  r.1 = Ret true
  ∧ products r.2 !! 1000%N = None
  ∧ Product.find_by_id Sample.product_id r.2 = (Ret None, r.2)
  ∧ transactions r.2 = transactions w.
Proof.
  intros w r.
  destruct (delete_owner_only Sample.product_id "ana" w 1000%N
              (Sample.remera "reservado" (Some "bob")
                 (Some Sample.transaction_id)) eq_refl eq_refl)
    as (Ht & _ & _ & Hown).
  destruct (Hown eq_refl) as (H1 & H2 & H3 & _).
  repeat split; assumption.
Defined.

(** X14.  [update] edits the description of a listing and nothing of the
    workflow: for any [data] and any caller, the product is still stored
    with the same status, stock, reservation fields, owner, view counter
    and creation time, no transaction changes, no other product changes,
    and a caller who is not the owner changes no product at all.  For a
    [data] without a price (the one field the source converts, with
    [float], before storing it): called by anyone but the owner [update]
    returns [False]; called by the owner it sets the fields present in
    [data] and keeps the absent ones, the price among them. *)
Theorem update_keeps_workflow_fields product_id data user_id w k P :
  ObjectId product_id = inr k →
  products w !! k = Some P →
  let r := Product.update product_id data user_id w in
  transactions r.2 = transactions w
  ∧ (∀ k', k' ≠ k → products r.2 !! k' = products w !! k')
  ∧ (p_user_id P ≠ user_id → products r.2 = products w)
  ∧ (p_user_id P ≠ user_id → Product.d_precio data = None → r.1 = Ret false)
  ∧ ∃ P', products r.2 !! k = Some P'
          ∧ p_estado P' = p_estado P ∧ p_stock P' = p_stock P
          ∧ p_reserved_by P' = p_reserved_by P
          ∧ p_transaction_id P' = p_transaction_id P
          ∧ p_user_id P' = p_user_id P ∧ p_views P' = p_views P
          ∧ p_created_at P' = p_created_at P
          ∧ (p_user_id P = user_id →
             Product.d_precio data = None →
             p_descripcion P' = default (p_descripcion P) (Product.d_descripcion data)
             ∧ p_precio P' = p_precio P
             ∧ p_talla P' = default (p_talla P) (Product.d_talla data)
             ∧ p_imagen_url P' = default (p_imagen_url P) (Product.d_imagen_url data)
             ∧ p_nombre P' = from_option Some (p_nombre P) (Product.d_nombre data)
             ∧ p_categoria P'
               = from_option Some (p_categoria P) (Product.d_categoria data)).
Proof.
  intros Hid Hk r. subst r.
  unfold Product.update, bind, lift_oid, update_one. simpl. rewrite Hid.
  simpl. rewrite Hk.
  destruct (decide (p_user_id P = user_id)) as [Ho|Ho].
  - rewrite bool_decide_eq_true_2 by done.
    destruct (decide (Product.set_fields data (utc w (ticks w)) P = P))
      as [Hsame|Hdiff]; simpl.
    + split; [done|]. split; [done|]. split; [done|]. split; [done|].
      exists P. split; [done|]. do 7 (split; [done|]).
      intros _ Hprice.
      pose proof (f_equal p_descripcion Hsame) as H1.
      pose proof (f_equal p_talla Hsame) as H2.
      pose proof (f_equal p_imagen_url Hsame) as H3.
      pose proof (f_equal p_nombre Hsame) as H4.
      pose proof (f_equal p_categoria Hsame) as H5.
      simpl in H1, H2, H3, H4, H5.
      destruct (Product.d_nombre data), (Product.d_categoria data);
        simpl; repeat split; congruence.
    + split; [done|]. split; [intros k' Hne; by apply lookup_insert_ne|].
      split; [done|]. split; [done|].
      eexists. split; [apply lookup_insert_eq|].
      simpl. do 7 (split; [done|]).
      intros _ Hprice. rewrite Hprice. simpl.
      by destruct (Product.d_nombre data), (Product.d_categoria data).
  - rewrite bool_decide_eq_false_2 by done. simpl.
    split; [done|]. split; [done|]. split; [done|]. split; [done|].
    exists P. repeat split; done.
Qed.

Lemma update_keeps_workflow_fields_witness :
  let w := Sample.reserved "pendiente" false false None in
  let data :=
    {| Product.d_nombre := Some "Remera azul"; Product.d_descripcion := None;
       Product.d_precio := None; Product.d_talla := None;
       Product.d_categoria := None; Product.d_imagen_url := None;
       Product.d_username := Some "mallory" |} in
  let r := Product.update Sample.product_id data "ana" w in
  ∃ P', products r.2 !! 1000%N = Some P'
        ∧ p_estado P' = "reservado" ∧ p_reserved_by P' = Some "bob"
        ∧ p_user_id P' = "ana"
        ∧ p_nombre P' = Some "Remera azul".
Proof.
  intros w data r.
  destruct (update_keeps_workflow_fields Sample.product_id data "ana" w 1000%N
              (Sample.remera "reservado" (Some "bob")
                 (Some Sample.transaction_id)) eq_refl eq_refl)
    as (_ & _ & _ & _ & P' & H & He & _ & Hr & _ & Hu & _ & _ & Hset).
  destruct (Hset eq_refl eq_refl) as (_ & _ & _ & _ & Hn & _).
  exists P'. repeat split; assumption.
Defined.

(** X15.  [increment_views] counts and does nothing else: any caller may
    call it, each call on a stored product adds exactly 1 to [views], and
    after [n] calls every other field of the product, [updated_at]
    included, is as before. *)
Theorem increment_views_counts product_id w k P (n : nat) :
  ObjectId product_id = inr k →
  products w !! k = Some P →
  let w' := Nat.iter n (λ w0, (Product.increment_views product_id w0).2) w in
  transactions w' = transactions w
  ∧ ∃ P', products w' !! k = Some P'
          ∧ p_views P' = (p_views P + Z.of_nat n)%Z
          ∧ p_updated_at P' = p_updated_at P
          ∧ p_estado P' = p_estado P ∧ p_stock P' = p_stock P
          ∧ p_reserved_by P' = p_reserved_by P
          ∧ p_transaction_id P' = p_transaction_id P
          ∧ p_user_id P' = p_user_id P
          ∧ p_nombre P' = p_nombre P ∧ p_precio P' = p_precio P.
Proof.
  intros Hid Hk. induction n as [|n IH]; simpl.
  - split; [done|]. exists P. rewrite Z.add_0_r. done.
  - destruct IH as (Ht & P1 & H1 & Hv & Hu & He & Hs & Hr & Hti & Ho & Hn & Hp).
    set (w1 := Nat.iter n _ w) in *. clearbody w1.
    unfold Product.increment_views, bind, lift_oid, update_one.
    rewrite Hid. simpl. rewrite H1.
    destruct (decide (Product.inc_views P1 = P1)) as [Hsame|_]; simpl.
    + apply (f_equal p_views) in Hsame. simpl in Hsame. lia.
    + split; [done|]. eexists. split; [apply lookup_insert_eq|]. simpl.
      repeat split; try done. lia.
Qed.

Lemma increment_views_counts_witness :
  let w := Sample.reserved "pendiente" false false None in
  let w' := Nat.iter 3 (λ w0, (Product.increment_views Sample.product_id w0).2) w in
  ∃ P', products w' !! 1000%N = Some P' ∧ p_views P' = 3%Z.
Proof.
  intros w w'.
  destruct (increment_views_counts Sample.product_id w 1000%N
              (Sample.remera "reservado" (Some "bob")
                 (Some Sample.transaction_id)) 3 eq_refl eq_refl)
    as (_ & P' & H & Hv & _).
  exists P'. split; [exact H | exact Hv].
Defined.

Lemma foreign_char_from_hex s : ∀ acc,
  existsb foreign_char (list_ascii_of_string s) = true →
  from_hex s acc = None.
Proof.
  induction s as [|c s IH]; intros acc H; simpl in H; [done|].
  simpl. unfold foreign_char in H at 1.
  destruct (hex_val c) as [d|]; [|done].
  simpl in H. by apply IH.
Qed.

Lemma refused_id_invalid s : refused_id s = true → ObjectId s = inl InvalidId.
Proof.
  unfold refused_id, ObjectId. intros H.
  destruct (Nat.eqb (String.length s) 24); [|done].
  simpl in H. by rewrite foreign_char_from_hex.
Qed.

(** X16.  Only the lookups are guarded against malformed ids.  For a
    string the driver refuses (its length is not 24, or it holds a
    character that is neither a hexadecimal digit nor white space),
    [unreserve], [mark_as_sold], [change_status], [delete] and
    [increment_views] raise [InvalidId] and leave the world as it was;
    [update] leaves both collections as they were, and raises [InvalidId]
    when [data] has no price to convert first; while [reserve], which goes
    through [find_by_id], returns [False]. *)
Theorem malformed_id_raises s w :
  refused_id s = true →
  Product.unreserve s w = (Exc InvalidId, w)
  ∧ (∀ transaction_id, Product.mark_as_sold s transaction_id w = (Exc InvalidId, w))
  ∧ (∀ status user_id, Product.change_status s status user_id w = (Exc InvalidId, w))
  ∧ (∀ user_id, Product.delete s user_id w = (Exc InvalidId, w))
  ∧ Product.increment_views s w = (Exc InvalidId, w)
  ∧ (∀ data user_id,
       products (Product.update s data user_id w).2 = products w
       ∧ transactions (Product.update s data user_id w).2 = transactions w
       ∧ (Product.d_precio data = None →
          (Product.update s data user_id w).1 = Exc InvalidId))
  ∧ (∀ buyer_id transaction_id,
       Product.reserve s buyer_id transaction_id w = (Ret false, w)).
Proof.
  intros Hwf.
  pose proof (refused_id_invalid s Hwf) as He.
  destruct (settle_raises s w He) as [Hu Hm].
  split; [done|]. split; [done|].
  unfold Product.change_status, Product.delete, Product.increment_views,
    Product.update, bind, lift_oid.
  rewrite He. simpl. repeat split; try done.
  intros b t. apply reserve_rejected. unfold product_at. by rewrite He.
Qed.

Lemma malformed_id_raises_witness :
  let w := Sample.reserved "pendiente" false false None in
  Product.unreserve "not-an-object-id" w = (Exc InvalidId, w)
  ∧ Product.reserve "not-an-object-id" "carol" Sample.transaction_id w
    = (Ret false, w)
  ∧ Product.delete "00000000000000000000z3e8" "ana" w = (Exc InvalidId, w).
Proof.
  intros w.
  destruct (malformed_id_raises "not-an-object-id" w eq_refl)
    as (H1 & _ & _ & _ & _ & _ & H2).
  split; [exact H1|]. split; [apply H2|].
  exact (proj1 (proj2 (proj2 (proj2
           (malformed_id_raises "00000000000000000000z3e8" w eq_refl))))
           "ana").
Defined.

(** ** What no method changes in a listing *)

Lemma listing_kept_refl p : listing_kept p p.
Proof. unfold listing_kept. repeat split; auto. lia. Qed.

Lemma listing_kept_trans p1 p2 p3 :
  listing_kept p1 p2 → listing_kept p2 p3 → listing_kept p1 p3.
Proof.
  intros (Hu1 & Hn1 & Hc1 & Hs1 & Hv1) (Hu2 & Hn2 & Hc2 & Hs2 & Hv2).
  unfold listing_kept. repeat split; try congruence; [|lia].
  destruct Hs2 as [Hs2|Hs2]; [|by right].
  destruct Hs1 as [Hs1|Hs1]; [left | right]; congruence.
Qed.

Lemma update_one_kept k cond upd (m : gmap N ProductDoc) k' P :
  (∀ p, listing_kept p (upd p)) →
  m !! k' = Some P →
  ∃ P', (update_one k cond upd m).1 !! k' = Some P' ∧ listing_kept P P'.
Proof.
  intros Hupd Hk'. unfold update_one.
  destruct (m !! k) as [p|] eqn:Hk; [|exists P; split; [done | apply listing_kept_refl]].
  destruct (cond p); [|exists P; split; [done | apply listing_kept_refl]].
  destruct (decide (upd p = p)); simpl;
    [exists P; split; [done | apply listing_kept_refl]|].
  destruct (decide (k = k')) as [<-|Hne].
  - rewrite lookup_insert_eq. exists (upd p).
    assert (p = P) as -> by congruence. auto.
  - rewrite lookup_insert_ne by done. exists P.
    split; [done | apply listing_kept_refl].
Qed.

Lemma listing_step_kept op w k P :
  products w !! k = Some P →
  ∃ P', products (listing_step w op) !! k = Some P' ∧ listing_kept P P'.
Proof.
  intros Hk.
  assert (Hsame : ∃ P', products w !! k = Some P' ∧ listing_kept P P')
    by (exists P; split; [done | apply listing_kept_refl]).
  destruct op as [data u|pid data u|pid st u|pid|pid b t|pid|pid t]; simpl.
  - destruct (create_products data u w) as [->|(k0 & P0 & Hk0 & -> & _)];
      [done|].
    rewrite lookup_insert_ne by congruence. done.
  - unfold Product.update, bind, lift_oid. simpl.
    destruct (ObjectId pid) as [e|k0]; simpl; [done|].
    pose proof (update_one_kept k0
                  (λ d, bool_decide (p_user_id d = u))
                  (Product.set_fields data (utc w (ticks w)))
                  (products w) k P) as H.
    destruct (update_one k0 _ _ (products w)) as [ps' n]. simpl in *.
    apply H; [|done]. intros p. unfold listing_kept. simpl.
    repeat split; auto. lia.
  - unfold Product.change_status, bind, lift_oid.
    destruct (ObjectId pid) as [e|k0]; simpl; [done|].
    pose proof (update_one_kept k0
                  (λ d, bool_decide (p_user_id d = u))
                  (Product.set_estado st (utc w (ticks w)))
                  (products w) k P) as H.
    destruct (update_one k0 _ _ (products w)) as [ps' n]. simpl in *.
    apply H; [|done]. intros p. unfold listing_kept. simpl.
    repeat split; auto. lia.
  - unfold Product.increment_views, bind, lift_oid.
    destruct (ObjectId pid) as [e|k0]; simpl; [done|].
    pose proof (update_one_kept k0 (λ _, true) Product.inc_views
                  (products w) k P) as H.
    destruct (update_one k0 _ _ (products w)) as [ps' n]. simpl in *.
    apply H; [|done]. intros p. unfold listing_kept. simpl.
    repeat split; auto. lia.
  - destruct (reserve_cases pid b t w) as [->|(k0 & p & _ & Hk0 & ->)];
      [done|]. simpl.
    destruct (decide (k0 = k)) as [->|Hne].
    + rewrite lookup_insert_eq. eexists. split; [done|].
      assert (p = P) as -> by congruence.
      unfold listing_kept. simpl. repeat split; auto. lia.
    + rewrite lookup_insert_ne by done. done.
  - unfold Product.unreserve, bind, lift_oid.
    destruct (ObjectId pid) as [e|k0]; simpl; [done|].
    pose proof (update_one_kept k0 (λ _, true)
                  (Product.set_available (utc w (ticks w)))
                  (products w) k P) as H.
    destruct (update_one k0 _ _ (products w)) as [ps' n]. simpl in *.
    apply H; [|done]. intros p. unfold listing_kept. simpl.
    repeat split; auto. lia.
  - unfold Product.mark_as_sold, bind, lift_oid.
    destruct (ObjectId pid) as [e|k0]; simpl; [done|].
    pose proof (update_one_kept k0 (λ _, true)
                  (Product.set_sold t (utc w (ticks w)))
                  (products w) k P) as H.
    destruct (update_one k0 _ _ (products w)) as [ps' n]. simpl in *.
    apply H; [|done]. intros p. unfold listing_kept. simpl.
    repeat split; auto. lia.
Qed.

(** X17.  Nothing but [delete] takes a product away or changes whose it
    is: after any sequence of [create], [update], [change_status],
    [increment_views], [reserve], [unreserve] and [mark_as_sold], with
    any arguments and callers, a stored product is still stored with the
    same owner and creation time; its stock is what it was or 0, so a
    stock of 0 is never restored; and its view counter has not gone
    down. *)
Theorem listing_owner_and_stock ops w k P :
  products w !! k = Some P →
  ∃ P', products (listing_run ops w) !! k = Some P'
        ∧ p_user_id P' = p_user_id P
        ∧ p_created_at P' = p_created_at P
        ∧ (p_stock P' = p_stock P ∨ p_stock P' = 0%Z)
        ∧ (p_views P ≤ p_views P')%Z.
Proof.
  intros Hk.
  assert (H : ∃ P', products (listing_run ops w) !! k = Some P'
                    ∧ listing_kept P P').
  { unfold listing_run. revert w P Hk.
    induction ops as [|op ops IH]; intros w P Hk; simpl.
    - exists P. split; [done | apply listing_kept_refl].
    - destruct (listing_step_kept op w k P Hk) as (P1 & H1 & Hk1).
      destruct (IH _ _ H1) as (P2 & H2 & Hk2).
      exists P2. split; [done|]. by apply listing_kept_trans with P1. }
  destruct H as (P' & H & Hu & _ & Hc & Hs & Hv). eauto 10.
Qed.

Lemma listing_owner_and_stock_witness :
  let w := Sample.reserved "pendiente" false false None in
  let ops := [LMarkAsSold Sample.product_id Sample.transaction_id;
              LUnreserve Sample.product_id;
              LChangeStatus Sample.product_id "disponible" "ana";
              LUpdate Sample.product_id Sample.listing "ana"] in
  ∃ P', products (listing_run ops w) !! 1000%N = Some P'
        ∧ p_user_id P' = "ana"
        ∧ (p_stock P' = 1%Z ∨ p_stock P' = 0%Z).
Proof.
  intros w ops.
  destruct (listing_owner_and_stock ops w 1000%N
              (Sample.remera "reservado" (Some "bob")
                 (Some Sample.transaction_id)) eq_refl)
    as (P' & H & Hu & _ & Hs & _).
  exists P'. repeat split; assumption.
Defined.

(** ** Listings: newest first, paginated *)

Global Instance newest_first_total {D} (created : D → Z) :
  Total (newest_first created).
Proof. intros a b. unfold newest_first. lia. Qed.

Global Instance newest_first_trans {D} (created : D → Z) :
  Transitive (newest_first created).
Proof. intros a b c. unfold newest_first. lia. Qed.

Section find_sorted.
Context {D : Type} (created : D → Z) (query : D → bool).

Lemma found_elem (m : gmap N D) d :
  d ∈ merge_sort (newest_first created) (List.filter query (map_to_list m).*2)
  ↔ ∃ k : N, m !! k = Some d ∧ query d = true.
Proof.
  rewrite merge_sort_Permutation, list_elem_of_In, filter_In,
    <- list_elem_of_In, list_elem_of_fmap.
  split.
  - intros [([k d'] & -> & Hin) Hq].
    apply elem_of_map_to_list in Hin. eauto.
  - intros (k & Hk & Hq). split; [|done].
    exists (k, d). split; [done|]. by apply elem_of_map_to_list.
Qed.

Lemma find_sorted_sublist skip limit (m : gmap N D) :
  find_sorted created query skip limit m
  `sublist_of`
  merge_sort (newest_first created) (List.filter query (map_to_list m).*2).
Proof.
  unfold find_sorted. destruct limit as [|n].
  - apply sublist_drop.
  - etrans; [apply sublist_take | apply sublist_drop].
Qed.

Lemma find_sorted_elem skip limit (m : gmap N D) d :
  d ∈ find_sorted created query skip limit m →
  ∃ k : N, m !! k = Some d ∧ query d = true.
Proof.
  intros Hin. apply found_elem.
  by apply (sublist_subseteq _ _ (find_sorted_sublist skip limit m)).
Qed.

Lemma find_sorted_all (m : gmap N D) k d :
  m !! k = Some d → query d = true →
  d ∈ find_sorted created query 0 0 m.
Proof. intros Hk Hq. unfold find_sorted. simpl. apply found_elem. eauto. Qed.

Lemma find_sorted_sorted skip limit (m : gmap N D) :
  StronglySorted (newest_first created) (find_sorted created query skip limit m).
Proof.
  unfold find_sorted.
  set (l := merge_sort _ _).
  assert (Hl : StronglySorted (newest_first created) l)
    by apply (StronglySorted_merge_sort _).
  assert (Hd : StronglySorted (newest_first created) (drop skip l)).
  { rewrite <- (take_drop skip l) in Hl.
    by apply StronglySorted_app in Hl as (_ & _ & ?). }
  destruct limit as [|n]; [done|].
  rewrite <- (take_drop (S n) (drop skip l)) in Hd.
  by apply StronglySorted_app in Hd as (_ & ? & _).
Qed.

Lemma find_sorted_limit skip limit (m : gmap N D) :
  limit ≠ 0 → (length (find_sorted created query skip limit m) ≤ limit)%nat.
Proof.
  intros Hl. unfold find_sorted. destruct limit as [|n]; [done|].
  rewrite length_take. lia.
Qed.
End find_sorted.

(** X18.  [find_by_buyer] and [find_by_seller] never write.  Every
    transaction they return is stored and has the given user as buyer
    (as seller); the list is ordered newest first by [created_at]; with a
    limit other than 0 it has at most [limit] entries; and with skip 0
    and limit 0 (no limit) it holds every stored transaction of that
    user. *)
Theorem purchases_and_sales_listing user_id (skip limit : nat) w :
  ∃ purchases sales,
    Transaction.find_by_buyer user_id skip limit w = (Ret purchases, w)
    ∧ Transaction.find_by_seller user_id skip limit w = (Ret sales, w)
    ∧ (∀ t, t ∈ purchases →
         t_buyer_id t = user_id ∧ ∃ k, transactions w !! k = Some t)
    ∧ (∀ t, t ∈ sales →
         t_seller_id t = user_id ∧ ∃ k, transactions w !! k = Some t)
    ∧ StronglySorted (newest_first t_created_at) purchases
    ∧ StronglySorted (newest_first t_created_at) sales
    ∧ (limit ≠ 0 →
       (length purchases ≤ limit)%nat ∧ (length sales ≤ limit)%nat)
    ∧ (skip = 0 → limit = 0 →
       ∀ k t, transactions w !! k = Some t →
         (t_buyer_id t = user_id → t ∈ purchases)
         ∧ (t_seller_id t = user_id → t ∈ sales)).
Proof.
  eexists _, _. split; [reflexivity|]. split; [reflexivity|].
  split; [|split; [|split; [|split; [|split]]]].
  - intros t (k & Hk & Hq)%find_sorted_elem.
    apply bool_decide_eq_true in Hq. eauto.
  - intros t (k & Hk & Hq)%find_sorted_elem.
    apply bool_decide_eq_true in Hq. eauto.
  - apply find_sorted_sorted.
  - apply find_sorted_sorted.
  - intros Hl. split; by apply find_sorted_limit.
  - intros -> -> k t Hk. split; intros Hu;
      (eapply find_sorted_all; [exact Hk | by apply bool_decide_eq_true]).
Qed.

Lemma purchases_and_sales_listing_witness :
  let w := Sample.reserved "pendiente" false false None in
  ∃ purchases,
    Transaction.find_by_buyer "bob" 0 0 w = (Ret purchases, w)
    ∧ Sample.reserva "pendiente" false false None ∈ purchases.
Proof.
  intros w.
  destruct (purchases_and_sales_listing "bob" 0 0 w)
    as (purchases & sales & Hp & _ & _ & _ & _ & _ & _ & Hall).
  exists purchases. split; [exact Hp|].
  refine (proj1 (Hall eq_refl eq_refl 1001%N _ _) _); reflexivity.
Defined.

(** X19.  [find_by_product] returns, newest first and without a limit,
    exactly the stored transactions whose [product_id] is the given
    string, whatever their status.  The match is on the string: an id
    spelled differently is a different product here. *)
Theorem product_history product_id w :
  ∃ history,
    Transaction.find_by_product product_id w = (Ret history, w)
    ∧ (∀ t, t ∈ history ↔
            t_product_id t = product_id ∧ ∃ k, transactions w !! k = Some t)
    ∧ StronglySorted (newest_first t_created_at) history.
Proof.
  eexists. split; [reflexivity|]. split; [|apply find_sorted_sorted].
  intros t. split.
  - intros (k & Hk & Hq)%find_sorted_elem.
    apply bool_decide_eq_true in Hq. eauto.
  - intros (Hp & k & Hk).
    eapply find_sorted_all; [exact Hk | by apply bool_decide_eq_true].
Qed.

Lemma product_history_witness :
  let w := Sample.reserved "pendiente" false false None in
  ∃ history,
    Transaction.find_by_product Sample.product_id w = (Ret history, w)
    ∧ Sample.reserva "pendiente" false false None ∈ history.
Proof.
  intros w.
  destruct (product_history Sample.product_id w) as (history & Hh & Hiff & _).
  exists history. split; [exact Hh|].
  apply Hiff. split; [reflexivity|]. exists 1001%N. reflexivity.
Defined.

(** X20.  [filter_by_category] shows only what can be bought: every
    product it returns is stored, has the given category and has status
    available, so a reserved, sold or inactive product is never listed;
    the list is newest first and, with a limit other than 0, has at most
    [limit] entries; with skip 0 and limit 0 it holds every available
    product of the category.  [find_by_user] lists the products of an
    owner in every status. *)
Theorem category_listing categoria user_id (skip limit : nat) w :
  ∃ listed owned,
    Product.filter_by_category categoria skip limit w = (Ret listed, w)
    ∧ Product.find_by_user user_id skip limit w = (Ret owned, w)
    ∧ (∀ p, p ∈ listed →
         p_categoria p = Some categoria ∧ p_estado p = Product.AVAILABLE
         ∧ ∃ k, products w !! k = Some p)
    ∧ (∀ p, p_estado p ≠ Product.AVAILABLE → p ∉ listed)
    ∧ StronglySorted (newest_first p_created_at) listed
    ∧ StronglySorted (newest_first p_created_at) owned
    ∧ (limit ≠ 0 → (length listed ≤ limit)%nat ∧ (length owned ≤ limit)%nat)
    ∧ (∀ p, p ∈ owned → p_user_id p = user_id ∧ ∃ k, products w !! k = Some p)
    ∧ (skip = 0 → limit = 0 →
       ∀ k p, products w !! k = Some p →
         (p_categoria p = Some categoria → p_estado p = Product.AVAILABLE →
          p ∈ listed)
         ∧ (p_user_id p = user_id → p ∈ owned)).
Proof.
  eexists _, _. split; [reflexivity|]. split; [reflexivity|].
  assert (Hl : ∀ p,
    p ∈ find_sorted p_created_at
          (λ d, bool_decide (p_categoria d = Some categoria)
                && bool_decide (p_estado d = Product.AVAILABLE))
          skip limit (products w) →
    p_categoria p = Some categoria ∧ p_estado p = Product.AVAILABLE
    ∧ ∃ k, products w !! k = Some p).
  { intros p (k & Hk & Hq)%find_sorted_elem.
    apply andb_true_iff in Hq as [Hc He].
    apply bool_decide_eq_true in Hc, He. eauto. }
  split; [exact Hl|]. split.
  { intros p Hne Hin. by destruct (Hl p Hin) as (_ & He & _). }
  split; [apply find_sorted_sorted|]. split; [apply find_sorted_sorted|].
  split; [intros Hn; split; by apply find_sorted_limit|]. split.
  { intros p (k & Hk & Hq)%find_sorted_elem.
    apply bool_decide_eq_true in Hq. eauto. }
  intros -> -> k p Hk. split.
  - intros Hc He. eapply find_sorted_all; [exact Hk|].
    apply andb_true_iff. split; by apply bool_decide_eq_true.
  - intros Hu. eapply find_sorted_all; [exact Hk|].
    by apply bool_decide_eq_true.
Qed.

Lemma category_listing_witness :
  let w := Sample.world {[ 1000%N := Sample.remera "disponible" None None ]} ∅ in
  ∃ listed,
    Product.filter_by_category "Remeras" 0 0 w = (Ret listed, w)
    ∧ Sample.remera "disponible" None None ∈ listed
    ∧ Sample.remera "reservado" (Some "bob") (Some Sample.transaction_id)
      ∉ listed.
Proof.
  intros w.
  destruct (category_listing "Remeras" "ana" 0 0 w)
    as (listed & owned & Hl & _ & _ & Hnot & _ & _ & _ & _ & Hall).
  exists listed. split; [exact Hl|]. split.
  - refine (proj1 (Hall eq_refl eq_refl 1000%N _ _) _ _); reflexivity.
  - apply Hnot. discriminate.
Defined.

(** ** Requests that are turned down *)

Lemma get_transaction_read_only users user role transaction_id w :
  (Routes.get_transaction users user role transaction_id w).2 = w.
Proof.
  unfold Routes.get_transaction. rewrite handler_eq. unfold bind at 1.
  rewrite Transaction_find_by_id_eq.
  destruct (transaction_at w transaction_id) as [t|]; [|done].
  destruct (decide (user ∉ [t_buyer_id t; t_seller_id t])); [done|].
  unfold Routes.user_get, bind, ret, raise.
  destruct (users (t_buyer_id t)), (users (t_seller_id t)); reflexivity.
Qed.

(** X21.  A request on a transaction that is turned down writes nothing.
    For every world, caller, id and body: when SellerConfirm,
    BuyerConfirmPayment, Complete, Cancel, AddNote or GetTransaction
    answers with a failure other than 500 (that is 400, 403 or 404), the
    world is exactly as before; and GetTransaction never changes it,
    whatever it answers.  (The reservation handler is not among them: its
    400 [No se pudo reservar el producto] comes after [Transaction.create]
    has inserted.) *)
Theorem rejected_requests_write_nothing users user role transaction_id
    data w :
  (∀ r resp,
     r ∈ [ Routes.seller_confirm user role transaction_id data w;
           Routes.buyer_confirm_payment user role transaction_id w;
           Routes.complete_transaction user role transaction_id w;
           Routes.cancel_transaction user role transaction_id data w;
           Routes.add_note user role transaction_id data w;
           Routes.get_transaction users user role transaction_id w ] →
     r.1 = Ret resp →
     Routes.success resp = false →
     Routes.http_status resp ≠ 500 →
     r.2 = w)
  ∧ (Routes.get_transaction users user role transaction_id w).2 = w.
Proof.
  split; [|apply get_transaction_read_only].
  intros r resp Hin Hr Hf H500.
  repeat (apply elem_of_cons in Hin as [->|Hin]).
  - destruct (transaction_at w transaction_id) as [t|] eqn:Hat.
    + destruct (decide (t_seller_id t = user)) as [Hs|Hs].
      * unfold transaction_at in Hat.
        destruct (ObjectId transaction_id) as [e|k] eqn:Hid; [done|].
        rewrite (seller_confirm_route_ok _ role _ data _ _ _ Hid Hat Hs) in Hr.
        injection Hr as <-. done.
      * by rewrite (seller_confirm_route_forbidden _ role _ data _ _ Hat Hs).
    + by rewrite seller_confirm_route_not_found.
  - destruct (transaction_at w transaction_id) as [t|] eqn:Hat.
    + destruct (decide (t_buyer_id t = user)) as [Hs|Hs].
      * unfold transaction_at in Hat.
        destruct (ObjectId transaction_id) as [e|k] eqn:Hid; [done|].
        rewrite (buyer_confirm_route_ok _ role _ _ _ _ Hid Hat Hs) in Hr.
        injection Hr as <-. done.
      * by rewrite (buyer_confirm_route_forbidden _ role _ _ _ Hat Hs).
    + by rewrite buyer_confirm_route_not_found.
  - destruct (transaction_at w transaction_id) as [t|] eqn:Hat.
    + destruct (decide (party user t)) as [Hp|Hp].
      * destruct (t_seller_confirmed t) eqn:Hsc;
          [destruct (t_buyer_paid t) eqn:Hbp|].
        -- unfold transaction_at in Hat.
           destruct (ObjectId transaction_id) as [e|k] eqn:Hid; [done|].
           rewrite (complete_route_completed _ role _ _ _ _ Hid Hat Hp Hsc Hbp)
             in Hr.
           destruct (ObjectId (t_product_id t)); simpl in Hr;
             injection Hr as <-; done.
        -- rewrite (complete_route_unconfirmed _ role _ _ _ Hat Hp); auto.
        -- rewrite (complete_route_unconfirmed _ role _ _ _ Hat Hp); auto.
      * by rewrite (complete_route_forbidden _ role _ _ _ Hat Hp).
    + by rewrite complete_route_not_found.
  - destruct (transaction_at w transaction_id) as [t|] eqn:Hat.
    + destruct (decide (party user t)) as [Hp|Hp].
      * unfold transaction_at in Hat.
        destruct (ObjectId transaction_id) as [e|k] eqn:Hid; [done|].
        destruct (cancel_route_cancelled _ role _ data _ _ _ Hid Hat Hp)
          as [msg Heq].
        rewrite Heq in Hr.
        destruct (ObjectId (t_product_id t)); simpl in Hr;
          injection Hr as <-; done.
      * by rewrite (cancel_route_forbidden _ role _ data _ _ Hat Hp).
    + by rewrite cancel_route_not_found.
  - destruct (decide (default "" (data !! "note") = "")) as [Hn|Hn].
    + by rewrite add_note_route_empty.
    + destruct (transaction_at w transaction_id) as [t|] eqn:Hat.
      * destruct (decide (party user t)) as [Hp|Hp].
        -- unfold transaction_at in Hat.
           destruct (ObjectId transaction_id) as [e|k] eqn:Hid; [done|].
           rewrite (add_note_route_ok _ role _ data _ _ _ Hn Hid Hat Hp) in Hr.
           injection Hr as <-. done.
        -- rewrite add_note_route_refused; [done|done|]. by rewrite Hat.
      * rewrite add_note_route_refused; [done|done|]. by rewrite Hat.
  - apply get_transaction_read_only.
  - by apply elem_of_nil in Hin.
Qed.

Lemma rejected_requests_write_nothing_witness :
  let w := Sample.reserved "pendiente" false false None in
  (Routes.buyer_confirm_payment "mallory" "user" Sample.transaction_id w).2 = w.
Proof.
  intros w.
  refine (proj1 (rejected_requests_write_nothing (λ _, None) "mallory" "user"
                   Sample.transaction_id ∅ w)
            _ (Routes.failure 403 "No tienes permiso para confirmar este pago")
            _ _ _ _).
  - apply elem_of_cons. right. apply elem_of_cons. left. reflexivity.
  - vm_compute. reflexivity.
  - reflexivity.
  - simpl. lia.
Defined.

(** ** Time stamps along the timeline *)





